(** * GTP session handler for NoGo: a model of [gtp_connection.py]

    The development follows the module top-down in dependency order:
    - [PyStr]: the operations on Python [str] and [int] values the module
      relies on ([lower], [split], [int], [repr], indexing, ...);
    - [Py]: exceptions and the state-and-exception monad in which the
      methods of [GtpConnection] are written;
    - [Codec]: [point_to_coord], [format_point], [move_to_coord];
    - [Gtp]: the [GtpConnection] class over an abstract board and engine;
    - [TestBoard]: a small board and engine on which the session runs;
    - [Notions], [SessionNotions]: what the statements speak about;
    - the properties of the codec ([CodecProps], [CodecClaims],
      [RoundTrip]) and of the session ([SessionProps], [OnTestBoard]).

    Text is modelled by Rocq strings whose characters stand for the code
    points 0..255; every character class below is the one Python assigns
    to these code points. *)

From Stdlib Require Import ZArith String Ascii List Lia Permutation Sorted DecimalString.
From stdpp Require Import base gmap strings list.

Local Open Scope Z_scope.

(* ================================================================== *)
(** ** Python text primitives *)
(* ================================================================== *)

Module PyStr.

(** [ord] and [chr] restricted to 0..255. *)
Definition ord (c : ascii) : Z := Z.of_N (N_of_ascii c).
Definition chr (n : Z) : ascii := ascii_of_N (Z.to_N n).

Definition between (lo hi n : Z) : bool := (lo <=? n) && (n <=? hi).

(** The double quote and the line feed, which have no literal form. *)
Definition dquote : string := String "034"%char EmptyString.
Definition nl : string := String "010"%char EmptyString.

(** Whitespace in the sense of [str.split()], [str.lstrip()]:
    TAB..CR, FS..US, SPACE, NEL and NBSP. *)
Definition isspace (c : ascii) : bool :=
  let n := ord c in
  between 9 13 n || between 28 32 n || (n =? 133) || (n =? 160).

(** [str.isdigit]: the decimal digits and the superscripts 1, 2, 3. *)
Definition isdigit (c : ascii) : bool :=
  let n := ord c in
  between 48 57 n || (n =? 178) || (n =? 179) || (n =? 185).

(** The class [\d] of [re] on [str] patterns: decimal digits only. *)
Definition isdecimal (c : ascii) : bool := between 48 57 (ord c).

(** [str.lower], character by character: A-Z and the upper-case letters
    of Latin-1 (all but the multiplication sign) move up by 32. *)
Definition lower_char (c : ascii) : ascii :=
  let n := ord c in
  if between 65 90 n || between 192 214 n || between 216 222 n
  then chr (n + 32) else c.

Fixpoint lower (s : string) : string :=
  match s with
  | EmptyString => EmptyString
  | String c s' => String (lower_char c) (lower s')
  end.

(** [str.upper].  Sharp s becomes two letters; the micro sign and y with
    diaeresis have their upper-case forms outside 0..255 and are left in
    place (no string accepted by [move_to_coord] contains them). *)
Definition upper_char (c : ascii) : string :=
  let n := ord c in
  if between 97 122 n || between 224 246 n || between 248 254 n
  then String (chr (n - 32)) EmptyString
  else if n =? 223 then "SS"
  else String c EmptyString.

Fixpoint upper (s : string) : string :=
  match s with
  | EmptyString => EmptyString
  | String c s' => upper_char c +:+ upper s'
  end.

(** [len(s)] *)
Definition len (s : string) : Z := Z.of_nat (String.length s).

(** [s[i]] with Python's negative indices; [None] stands for IndexError. *)
Definition index (s : string) (i : Z) : option ascii :=
  let j := if i <? 0 then i + len s else i in
  if (0 <=? j) && (j <? len s) then String.get (Z.to_nat j) s else None.

(** [s[1:]] *)
Definition tail (s : string) : string :=
  match s with
  | EmptyString => EmptyString
  | String _ s' => s'
  end.

(** [sep.join(l)] *)
Fixpoint join (sep : string) (l : list string) : string :=
  match l with
  | [] => EmptyString
  | [x] => x
  | x :: l' => x +:+ sep +:+ join sep l'
  end.

(** [str(n)] for an integer [n]. *)
Definition str_of_Z (n : Z) : string := NilZero.string_of_int (Z.to_int n).

(** *** [int(s)]

    The literal is: optional whitespace, an optional sign, decimal
    digits possibly separated by single underscores, optional
    whitespace.  Whitespace here is TAB..CR, SPACE, NEL and NBSP.  (The
    limit newer interpreters put on the number of digits is not
    modelled: conversion is unbounded.) *)
Definition int_space (c : ascii) : bool :=
  let n := ord c in
  between 9 13 n || (n =? 32) || (n =? 133) || (n =? 160).

Definition is_underscore (c : ascii) : bool := ord c =? 95.
Definition is_num_char (c : ascii) : bool := isdecimal c || is_underscore c.

Fixpoint drop_while (p : ascii -> bool) (l : list ascii) : list ascii :=
  match l with
  | [] => []
  | c :: l' => if p c then drop_while p l' else l
  end.

Fixpoint span (p : ascii -> bool) (l : list ascii) : list ascii * list ascii :=
  match l with
  | [] => ([], [])
  | c :: l' =>
      if p c then let '(a, b) := span p l' in (c :: a, b) else ([], l)
  end.

(** No leading, doubled or trailing underscore, and at least one digit;
    [prev] tells that the previous position may not be followed by an
    underscore or by the end. *)
Fixpoint underscores_ok (prev : bool) (l : list ascii) : bool :=
  match l with
  | [] => negb prev
  | c :: l' =>
      if is_underscore c then negb prev && underscores_ok true l'
      else underscores_ok false l'
  end.

Definition digits_value (l : list ascii) : Z :=
  fold_left (fun acc c => if isdecimal c then 10 * acc + (ord c - 48) else acc) l 0.

Definition py_int (s : string) : option Z :=
  let l := drop_while int_space (list_ascii_of_string s) in
  let '(neg, l) :=
    match l with
    | c :: l' =>
        if ord c =? 45 then (true, l')
        else if ord c =? 43 then (false, l')
        else (false, l)
    | [] => (false, [])
    end in
  let '(num, rest) := span is_num_char l in
  if underscores_ok true num && forallb int_space rest
  then Some (if neg then - digits_value num else digits_value num)
  else None.

(** *** [repr(s)] for a string

    Single quotes unless the text has a single and no double quote;
    backslash and the chosen quote are escaped, TAB, LF, CR are written
    with their letters and every other unprintable code point as
    [\xhh]. *)
Definition hexdigit (n : Z) : ascii :=
  if n <? 10 then chr (48 + n) else chr (87 + n).

Definition printable (c : ascii) : bool :=
  let n := ord c in
  between 32 126 n || (between 161 255 n && negb (n =? 173)).

Definition has_char (k : Z) (s : string) : bool :=
  existsb (fun c => ord c =? k) (list_ascii_of_string s).

Definition repr_char (quote : ascii) (c : ascii) : string :=
  let n := ord c in
  if (n =? ord quote) || (n =? 92) then String "\"%char (String c EmptyString)
  else if n =? 9 then "\t"
  else if n =? 10 then "\n"
  else if n =? 13 then "\r"
  else if printable c then String c EmptyString
  else String "\"%char (String "x"%char
         (String (hexdigit (n / 16)) (String (hexdigit (n mod 16)) EmptyString))).

Fixpoint repr_body (quote : ascii) (s : string) : string :=
  match s with
  | EmptyString => EmptyString
  | String c s' => repr_char quote c +:+ repr_body quote s'
  end.

Definition repr (s : string) : string :=
  let quote : ascii :=
    if has_char 39 s && negb (has_char 34 s) then "034"%char else "039"%char in
  String quote (repr_body quote s) +:+ String quote EmptyString.

(** *** [str.split()], [str.lstrip()], [str.strip(chars)] *)

Definition of_rev (cur : list ascii) : string := string_of_list_ascii (rev cur).

(** [cur] is the token being read, most recent character first. *)
Fixpoint split_from (cur : list ascii) (s : string) : list string :=
  match s with
  | EmptyString =>
      match cur with [] => [] | _ => [of_rev cur] end
  | String c s' =>
      if isspace c
      then match cur with
           | [] => split_from [] s'
           | _ => of_rev cur :: split_from [] s'
           end
      else split_from (c :: cur) s'
  end.

Definition split (s : string) : list string := split_from [] s.

Definition lstrip_by (p : ascii -> bool) (s : string) : string :=
  string_of_list_ascii (drop_while p (list_ascii_of_string s)).

Definition lstrip : string -> string := lstrip_by isspace.

Definition strip_by (p : ascii -> bool) (s : string) : string :=
  of_rev (drop_while p (rev (drop_while p (list_ascii_of_string s)))).

End PyStr.

(* ================================================================== *)
(** ** Exceptions and the method monad *)
(* ================================================================== *)

Module Py.

(** The exception classes that occur in the module.  [SystemExit] is
    what [exit()] raises; it is the only one that is not a subclass of
    [Exception]. *)
Inductive exn : Type :=
| KeyError (key : string)
| IndexError (msg : string)
| ValueError (msg : string)
| TypeError (msg : string)
| ZeroDivisionError (msg : string)
| AssertionError
| SystemExit.

Definition is_Exception (e : exn) : bool :=
  match e with
  | SystemExit => false
  | _ => true
  end.

(** [str(e)] *)
Definition str_exn (e : exn) : string :=
  match e with
  | KeyError key => PyStr.repr key
  | IndexError msg | ValueError msg | TypeError msg | ZeroDivisionError msg => msg
  | AssertionError => EmptyString
  | SystemExit => "None"
  end.

Inductive result (A : Type) : Type :=
| Ok (a : A)
| Raise (e : exn).
Arguments Ok {A} a.
Arguments Raise {A} e.

Definition is_Ok {A} (r : result A) : bool :=
  match r with Ok _ => true | Raise _ => false end.

(** A method body: it reads and updates the session state [S] and
    either returns or raises. *)
Definition M (S A : Type) : Type := S -> result A * S.

Section Monad.
Context {S : Type}.

Definition ret {A} (a : A) : M S A := fun st => (Ok a, st).
Definition raise {A} (e : exn) : M S A := fun st => (Raise e, st).

Definition bind {A B} (m : M S A) (k : A -> M S B) : M S B :=
  fun st =>
    match m st with
    | (Ok a, st') => k a st'
    | (Raise e, st') => (Raise e, st')
    end.

(** A pure computation that may raise, run inside a method. *)
Definition lift {A} (r : result A) : M S A := fun st => (r, st).

Definition gets {A} (f : S -> A) : M S A := fun st => (Ok (f st), st).
Definition modify (f : S -> S) : M S unit := fun st => (Ok tt, f st).

(** [try: body except Exception as e: handler(e)] *)
Definition try_except {A} (body : M S A) (handler : exn -> M S A) : M S A :=
  fun st =>
    match body st with
    | (Raise e, st') =>
        if is_Exception e then handler e st' else (Raise e, st')
    | r => r
    end.
End Monad.

Definition pure_bind {A B} (r : result A) (k : A -> result B) : result B :=
  match r with
  | Ok a => k a
  | Raise e => Raise e
  end.

End Py.

Import Py.

Declare Scope py_scope.
Delimit Scope py_scope with py.
Notation "'let*' x ':=' m 'in' k" := (bind m (fun x => k))
  (at level 10, x name, m at level 200, k at level 200) : py_scope.
Notation "m '>>' k" := (bind m (fun _ => k))
  (at level 90, right associativity) : py_scope.
Notation "'let+' x ':=' r 'in' k" := (pure_bind r (fun x => k))
  (at level 10, x name, r at level 200, k at level 200) : py_scope.
Local Open Scope py_scope.

(* ================================================================== *)
(** ** Coordinate codec *)
(* ================================================================== *)

Module Codec.
Import PyStr.

(** Modelled from the spec: [MAXSIZE] is imported from [board_util],
    which is not part of the module; the specification fixes this upper
    bound on the board size at 25. *)
Definition MAXSIZE : Z := 25.

(** A point is the pass value or an index into the board array. *)
Definition point : Type := option Z.

(** Modelled from the spec: [PASS] is imported from [board_util], which
    is not part of the module; it is the reserved value that denotes no
    board position, distinct from every index, and it counts as false
    where [play_cmd] tests a decoded coordinate. *)
Definition PASS : point := None.

(** What the codec passes around: [PASS], the [False] that
    [move_to_coord] returns for a text it rejects, or a pair
    [(row, col)]. *)
Inductive coord : Type :=
| CPass
| CFalse
| CPair (row col : Z).

(** [point_to_coord(point, boardsize)] *)
Definition point_to_coord (p : point) (boardsize : Z) : result coord :=
  match p with
  | None => Ok CPass
  | Some i =>
      let NS := boardsize + 1 in
      if NS =? 0 then Raise (ZeroDivisionError "integer division or modulo by zero")
      else Ok (CPair (i / NS) (i mod NS))
  end.

Definition column_letters : string := "ABCDEFGHJKLMNOPQRSTUVWXYZ".

(** [format_point(move)] *)
Definition format_point (move : coord) : result string :=
  if negb (MAXSIZE <=? 25) then Raise AssertionError
  else
    match move with
    | CPass => Ok "PASS"
    | CFalse => Raise (TypeError "cannot unpack non-iterable bool object")
    | CPair row col =>
        if negb ((0 <=? row) && (row <? MAXSIZE)) || negb ((0 <=? col) && (col <? MAXSIZE))
        then Raise (ValueError EmptyString)
        else
          match index column_letters (col - 1) with
          | None => Raise (IndexError "string index out of range")
          | Some letter => Ok (String letter (str_of_Z row))
          end
    end.

(** The body of the [try] block of [move_to_coord]: [None] stands for
    an IndexError or ValueError, which the [except] clause turns into
    [False]; [Some None] is the [return False] inside the block. *)
Definition parse_col_row (s : string) : option (option (Z * Z)) :=
  match index s 0 with
  | None => None
  | Some col_c =>
      if negb ((ord "a" <=? ord col_c) && (ord col_c <=? ord "z")) || (ord col_c =? ord "i")
      then Some None
      else
        let col := ord col_c - ord "a" in
        let col := if ord col_c <? ord "i" then col + 1 else col in
        match py_int (tail s) with
        | None => None
        | Some row => if row <? 1 then Some None else Some (Some (row, col))
        end
  end.

(** [move_to_coord(point_str, board_size)] *)
Definition move_to_coord (point_str : string) (board_size : Z) : result coord :=
  if negb ((2 <=? board_size) && (board_size <=? MAXSIZE))
  then Raise (ValueError "board_size out of range")
  else
    let s := lower point_str in
    if String.eqb s "pass" then Ok CPass
    else
      match parse_col_row s with
      | None | Some None => Ok CFalse
      | Some (Some (row, col)) =>
          if negb ((col <=? board_size) && (row <=? board_size)) then Ok CFalse
          else Ok (CPair row col)
      end.

End Codec.

(* ================================================================== *)
(** ** The protocol session *)
(* ================================================================== *)

Module Gtp.
Import PyStr Codec.

(** The board and the engine are collaborators of the module: it
    consumes them through the operations below and nothing else.  So are
    the colour codes and [coord_to_point] of [board_util], the parser
    of floating-point literals, the rendering of the two-dimensional
    board and the text of a stack trace.  An operation is a function of
    the board it is called on; [play_move] and [board_reset] are the two
    that change it, and [board_reset] is the one that may refuse its
    argument.  [board_copy] yields a board of its own: what is played on
    it does not reach the board it was copied from. *)
Class Collaborators : Type := {
  board : Type;
  BLACK : Z;
  WHITE : Z;
  EMPTY : Z;
  BORDER : Z;
  coord_to_point : Z -> Z -> Z -> Z;
  board_size : board -> Z;
  current_player : board -> Z;
  board_reset : board -> Z -> result board;
  board_copy : board -> board;
  get_empty_points : board -> list Z;
  get_color : board -> Z -> Z;
  is_legal : board -> point -> Z -> bool;
  check_suicide : board -> Z -> Z -> bool;
  play_move : board -> point -> Z -> board * bool;
  row_start : board -> Z -> Z;
  board_array : board -> list Z;
  get_twoD_board_str : board -> string;
  engine_name : string;
  engine_version : string;
  get_move : board -> Z -> point;
  pyfloat : Type;
  float_of_str : string -> option pyfloat;
  format_exc : exn -> string
}.

(** The object a [play_move] call is sent to: the board of the session
    or the private copy made by [capture_detection]. *)
Inductive target : Type := self_board | monitor_board.

Section Session.
Context {collab : Collaborators}.

(** The session: its board (mutated in place by the collaborator), the
    komi of the engine, the debug flag, what has been written to the
    two output streams, chunk by chunk, and the record of every
    [play_move] call made so far. *)
Record state : Type := mkState {
  the_board : board;
  komi : pyfloat;
  debug_mode : bool;
  stdout : list string;
  stderr : list string;
  played : list (target * point * Z)
}.

Definition set_board (b : board) (st : state) : state :=
  mkState b (komi st) (debug_mode st) (stdout st) (stderr st) (played st).
Definition set_komi (k : pyfloat) (st : state) : state :=
  mkState (the_board st) k (debug_mode st) (stdout st) (stderr st) (played st).
Definition write_stdout (data : string) (st : state) : state :=
  mkState (the_board st) (komi st) (debug_mode st) (stdout st ++ [data]) (stderr st) (played st).
Definition write_stderr (data : string) (st : state) : state :=
  mkState (the_board st) (komi st) (debug_mode st) (stdout st) (stderr st ++ [data]) (played st).
Definition log_play (t : target) (p : point) (color : Z) (st : state) : state :=
  mkState (the_board st) (komi st) (debug_mode st) (stdout st) (stderr st)
          (played st ++ [(t, p, color)]).

Abbreviation Meth := (M state).

(** [args[i]] on a list of tokens *)
Definition arg (args : list string) (i : nat) : result string :=
  match nth_error args i with
  | Some a => Ok a
  | None => Raise (IndexError "list index out of range")
  end.

(** *** Output *)

Definition debug_msg (msg : string) : Meth unit :=
  fun st => if debug_mode st then (Ok tt, write_stderr msg st) else (Ok tt, st).

Definition error (error_msg : string) : Meth unit :=
  modify (write_stdout ("? " +:+ error_msg +:+ nl +:+ nl)).

Definition respond (response : string) : Meth unit :=
  modify (write_stdout ("= " +:+ response +:+ nl +:+ nl)).

(** *** Calls into the board *)

Definition reset (size : Z) : Meth unit :=
  let* b := gets the_board in
  let* b' := lift (board_reset b size) in
  modify (set_board b').

Definition board2d : Meth string :=
  let* b := gets the_board in ret (get_twoD_board_str b).

(** [self.board.play_move(point, color)] *)
Definition board_play_move (p : point) (color : Z) : Meth bool :=
  let* b := gets the_board in
  let '(b', applied) := play_move b p color in
  modify (fun st => log_play self_board p color (set_board b' st)) >>
  ret applied.

(** *** Administrative commands *)

Definition protocol_version_cmd (args : list string) : Meth unit :=
  respond "2".

Definition quit_cmd (args : list string) : Meth unit :=
  respond EmptyString >> raise SystemExit.

Definition name_cmd (args : list string) : Meth unit :=
  respond engine_name.

Definition version_cmd (args : list string) : Meth unit :=
  respond engine_version.

Definition clear_board_cmd (args : list string) : Meth unit :=
  let* b := gets the_board in
  reset (board_size b) >> respond EmptyString.

Definition boardsize_cmd (args : list string) : Meth unit :=
  let* a0 := lift (arg args 0) in
  match py_int a0 with
  | None => raise (ValueError ("invalid literal for int() with base 10: " +:+ repr a0))
  | Some n => reset n >> respond EmptyString
  end.

Definition showboard_cmd (args : list string) : Meth unit :=
  let* s := board2d in respond (nl +:+ s).

Definition komi_cmd (args : list string) : Meth unit :=
  let* a0 := lift (arg args 0) in
  match float_of_str a0 with
  | None => raise (ValueError ("could not convert string to float: " +:+ repr a0))
  | Some k => modify (set_komi k) >> respond EmptyString
  end.

(** The keys of [self.commands], in insertion order. *)
Definition command_names : list string :=
  [ "protocol_version"; "quit"; "name"; "boardsize"; "showboard";
    "clear_board"; "komi"; "version"; "known_command"; "genmove";
    "list_commands"; "play"; "gogui-rules_legal_moves";
    "gogui-rules_final_result"; "gogui-rules_side_to_move";
    "gogui-rules_game_id"; "gogui-rules_board"; "gogui-analyze_commands";
    "gogui-rules_board_size" ]%string.

Definition known_command_cmd (args : list string) : Meth unit :=
  let* a0 := lift (arg args 0) in
  if existsb (String.eqb a0) command_names then respond "true" else respond "false".

Definition list_commands_cmd (args : list string) : Meth unit :=
  respond (join " " command_names).

(** *** Game-specific commands that came with the assignment *)

Definition gogui_analyze_cmd (args : list string) : Meth unit :=
  respond ("pstring/Legal Moves For ToPlay/gogui-rules_legal_moves" +:+ nl +:+
           "pstring/Side to Play/gogui-rules_side_to_move" +:+ nl +:+
           "pstring/Final Result/gogui-rules_final_result" +:+ nl +:+
           "pstring/Board Size/gogui-rules_board_size" +:+ nl +:+
           "pstring/Rules GameID/gogui-rules_game_id" +:+ nl +:+
           "pstring/Show Board/gogui-rules_board" +:+ nl).

Definition gogui_rules_game_id_cmd (args : list string) : Meth unit :=
  respond "NoGo".

Definition gogui_rules_board_size_cmd (args : list string) : Meth unit :=
  let* b := gets the_board in respond (str_of_Z (board_size b)).

Definition gogui_rules_side_to_move_cmd (args : list string) : Meth unit :=
  let* b := gets the_board in
  let color : string := if current_player b =? BLACK then "black" else "white" in
  respond color.

(** [range(n)] *)
Definition range (n : Z) : list Z := map Z.of_nat (seq 0 (Z.to_nat n)).

(** [a[i]] on the board array, an index out of bounds raising. *)
Definition array_index (a : list Z) (i : Z) : result Z :=
  let n := Z.of_nat (length a) in
  let j := if i <? 0 then i + n else i in
  match (if (0 <=? j) && (j <? n) then nth_error a (Z.to_nat j) else None) with
  | Some v => Ok v
  | None =>
      Raise (IndexError ("index " +:+ str_of_Z i +:+
                         " is out of bounds for axis 0 with size " +:+ str_of_Z n))
  end.

Fixpoint board_row (b : board) (start : Z) (cols : list Z) (str : string)
  : result string :=
  match cols with
  | [] => Ok str
  | i :: cols' =>
      let+ point := array_index (board_array b) (start + i) in
      if point =? BLACK then board_row b start cols' (str +:+ "X")
      else if point =? WHITE then board_row b start cols' (str +:+ "O")
      else if point =? EMPTY then board_row b start cols' (str +:+ ".")
      else Raise AssertionError
  end.

Fixpoint board_rows (b : board) (rows : list Z) (str : string) : result string :=
  match rows with
  | [] => Ok str
  | row :: rows' =>
      let start := row_start b (row + 1) in
      let+ str := board_row b start (range (board_size b)) str in
      board_rows b rows' (str +:+ nl)
  end.

Definition gogui_rules_board_cmd (args : list string) : Meth unit :=
  let* b := gets the_board in
  let* str := lift (board_rows b (rev (range (board_size b))) EmptyString) in
  respond str.

(** *** Capture detection and the legal moves *)

(** [l.remove(x)]: the first occurrence goes, an absent [x] raises
    (and [PASS] is never an element of a list of board indices). *)
Fixpoint remove_first (x : Z) (l : list Z) : option (list Z) :=
  match l with
  | [] => None
  | y :: l' =>
      if y =? x then Some l'
      else match remove_first x l' with
           | Some r => Some (y :: r)
           | None => None
           end
  end.

Definition list_remove (p : point) (l : list Z) : result (list Z) :=
  match p with
  | Some x =>
      match remove_first x l with
      | Some r => Ok r
      | None => Raise (ValueError "list.remove(x): x not in list")
      end
  | None => Raise (ValueError "list.remove(x): x not in list")
  end.

(** [l1 == l2] on lists of integers *)
Fixpoint list_eqb (l1 l2 : list Z) : bool :=
  match l1, l2 with
  | [], [] => true
  | x :: l1', y :: l2' => (x =? y) && list_eqb l1' l2'
  | _, _ => false
  end.

Definition capture_detection (p : point) (color : Z) : Meth bool :=
  let* b := gets the_board in
  let monitor := board_copy b in
  let empty_points_original := get_empty_points b in
  let* monitor :=
    (modify (log_play monitor_board p color) >>
     ret (fst (play_move monitor p color))) in
  let monitor_points_after := get_empty_points monitor in
  let tmp_list_monitor := monitor_points_after in
  let* tmp_list_original := lift (list_remove p empty_points_original) in
  if list_eqb tmp_list_original tmp_list_monitor then ret false else ret true.

(** The loop shared by [gogui_rules_legal_moves_cmd] and
    [legal_move_helper]. *)
Fixpoint legal_loop (color : Z) (points : list Z) (return_list : list Z)
  : Meth (list Z) :=
  match points with
  | [] => ret return_list
  | p :: rest =>
      let* b := gets the_board in
      let legal_status := is_legal b (Some p) color in
      if legal_status then
        let* captures := capture_detection (Some p) color in
        if negb captures then legal_loop color rest (return_list ++ [p])
        else legal_loop color rest return_list
      else legal_loop color rest return_list
  end.

Definition legal_move_helper : Meth (list Z) :=
  let* b := gets the_board in
  let all_emptys := get_empty_points b in
  let color := current_player b in
  legal_loop color all_emptys [].

(** [return_list[i] = format_point(point_to_coord(return_list[i], size))]
    for each index in turn. *)
Fixpoint format_all (size : Z) (l : list Z) : result (list string) :=
  match l with
  | [] => Ok []
  | p :: l' =>
      let+ c := point_to_coord (Some p) size in
      let+ s := format_point c in
      let+ r := format_all size l' in
      Ok (s :: r)
  end.

(** [list.sort(key=...)]: a stable sort by ascending key.  Keys are
    computed first, for every element. *)
Fixpoint insert_by {A} (k : Z) (x : A) (l : list (Z * A)) : list (Z * A) :=
  match l with
  | [] => [(k, x)]
  | (k', y) :: l' =>
      if k <=? k' then (k, x) :: l else (k', y) :: insert_by k x l'
  end.

Definition sort_keyed {A} (l : list (Z * A)) : list (Z * A) :=
  fold_right (fun kx acc => insert_by (fst kx) (snd kx) acc) [] l.

(** The key [lambda x: x[0]] *)
Fixpoint first_chars (l : list string) : result (list (Z * string)) :=
  match l with
  | [] => Ok []
  | x :: l' =>
      match index x 0 with
      | None => Raise (IndexError "string index out of range")
      | Some c => let+ r := first_chars l' in Ok ((ord c, x) :: r)
      end
  end.

Definition sort_by_first_char (l : list string) : result (list string) :=
  let+ keyed := first_chars l in Ok (map snd (sort_keyed keyed)).

Definition gogui_rules_legal_moves_cmd (args : list string) : Meth (list string) :=
  let* b := gets the_board in
  let all_emptys := get_empty_points b in
  let color := current_player b in
  let* return_list := legal_loop color all_emptys [] in
  let* b := gets the_board in
  let* return_list := lift (format_all (board_size b) return_list) in
  let* return_list := lift (sort_by_first_char return_list) in
  respond (join " " return_list) >>
  ret return_list.

Definition gogui_rules_final_result_cmd (args : list string) : Meth unit :=
  let* moves := legal_move_helper in
  if Z.of_nat (length moves) =? 0 then
    let* b := gets the_board in
    if current_player b =? 1 then respond "white" else respond "black"
  else respond "unknown".

(** *** [play] *)

(** [color_to_int(c)]: a lookup in a four-entry dictionary. *)
Definition color_to_int (c : string) : result Z :=
  if String.eqb c "b" then Ok BLACK
  else if String.eqb c "w" then Ok WHITE
  else if String.eqb c "e" then Ok EMPTY
  else if String.eqb c "BORDER" then Ok BORDER
  else Raise (KeyError c).

Definition color_checker (input_color : Z) : Meth bool :=
  let* b := gets the_board in
  if negb (input_color =? current_player b) then ret false else ret true.

Definition coordinate_checker (color : string) (point : string) : result bool :=
  match index point 0 with
  | None => Raise (IndexError "string index out of range")
  | Some row =>
      match index point 1 with
      | None => Raise (IndexError "string index out of range")
      | Some column => if negb (isdigit column) then Ok false else Ok true
      end
  end.

Definition occupied_checker (p : Z) : Meth bool :=
  let* b := gets the_board in
  if negb (get_color b p =? 0) then ret false else ret true.

(** ['illegal move: "{} {}" reason'.format(args[0], args[1])] *)
Definition illegal_move (a0 a1 reason : string) : string :=
  "illegal move: " +:+ dquote +:+ a0 +:+ " " +:+ a1 +:+ dquote +:+ " " +:+ reason.

Definition play_body (args : list string) : Meth unit :=
  let* a0 := lift (arg args 0) in
  let board_color := lower a0 in
  let* a1 := lift (arg args 1) in
  let board_move := a1 in
  let* color := lift (color_to_int board_color) in
  let* color_validity := color_checker color in
  if negb color_validity then respond (illegal_move a0 a1 "wrong color")
  else
    let* coordinate_validity := lift (coordinate_checker a0 a1) in
    if negb coordinate_validity then respond (illegal_move a0 a1 "wrong coordinate")
    else
      let* b := gets the_board in
      let* coord := lift (move_to_coord a1 (board_size b)) in
      match coord with
      | CPair row col =>
          let move := coord_to_point row col (board_size b) in
          let* occupied_validity := occupied_checker move in
          if negb occupied_validity then respond (illegal_move a0 a1 "occupied")
          else
            let* b := gets the_board in
            if check_suicide b move color then respond (illegal_move a0 a1 "suicide")
            else
              let* captures := capture_detection (Some move) (current_player b) in
              if captures then respond (illegal_move a0 a1 "capture")
              else
                let* applied := board_play_move (Some move) color in
                (if negb applied then
                   let* txt := board2d in
                   debug_msg ("Move: " +:+ board_move +:+ nl +:+ "Board:" +:+ nl +:+ txt +:+ nl)
                 else ret tt) >>
                respond EmptyString
      | CPass | CFalse =>
          (* [if coord:] fails on [False] and on [PASS] *)
          respond (illegal_move a0 a1 "wrong coordinate")
      end.

Definition play_cmd (args : list string) : Meth unit :=
  try_except (play_body args)
             (fun e => respond ("Error: " +:+ str_exn e)).

(** *** [genmove] *)

Definition genmove_cmd (args : list string) : Meth unit :=
  let* a0 := lift (arg args 0) in
  let board_color := lower a0 in
  let* color := lift (color_to_int board_color) in
  let* b := gets the_board in
  let move := get_move b color in
  let* move_coord := lift (point_to_coord move (board_size b)) in
  let* move_as_string := lift (format_point move_coord) in
  let* given := lift (color_to_int a0) in
  if negb (given =? current_player b) then
    respond ("illegal move: " +:+ dquote +:+ a0 +:+ dquote +:+ " wrong color")
  else if is_legal b move color then
    let* captures := capture_detection move color in
    if negb captures then
      board_play_move move color >> respond move_as_string
    else respond "resign"
  else respond ("Illegal move: " +:+ move_as_string).

(** *** The tables and the command loop *)

Definition commands : list (string * (list string -> Meth unit)) :=
  [ ("protocol_version", protocol_version_cmd);
    ("quit", quit_cmd);
    ("name", name_cmd);
    ("boardsize", boardsize_cmd);
    ("showboard", showboard_cmd);
    ("clear_board", clear_board_cmd);
    ("komi", komi_cmd);
    ("version", version_cmd);
    ("known_command", known_command_cmd);
    ("genmove", genmove_cmd);
    ("list_commands", list_commands_cmd);
    ("play", play_cmd);
    ("gogui-rules_legal_moves",
      fun args => gogui_rules_legal_moves_cmd args >> ret tt);
    ("gogui-rules_final_result", gogui_rules_final_result_cmd);
    ("gogui-rules_side_to_move", gogui_rules_side_to_move_cmd);
    ("gogui-rules_game_id", gogui_rules_game_id_cmd);
    ("gogui-rules_board", gogui_rules_board_cmd);
    ("gogui-analyze_commands", gogui_analyze_cmd);
    ("gogui-rules_board_size", gogui_rules_board_size_cmd) ]%string.

(** [self.commands[name]] *)
Fixpoint lookup_command (name : string)
         (table : list (string * (list string -> Meth unit)))
  : option (list string -> Meth unit) :=
  match table with
  | [] => None
  | (k, h) :: table' => if String.eqb k name then Some h else lookup_command name table'
  end.

(** Required number of arguments and message on failure. *)
Definition argmap : gmap string (Z * string) :=
  list_to_map
    [ ("boardsize", (1, "Usage: boardsize INT"));
      ("komi", (1, "Usage: komi FLOAT"));
      ("known_command", (1, "Usage: known_command CMD_NAME"));
      ("genmove", (1, "Usage: genmove {w,b}"));
      ("play", (2, "Usage: play {b,w} MOVE"));
      ("legal_moves", (1, "Usage: legal_moves {w,b}")) ]%string.

Definition has_arg_error (cmd : string) (argnum : Z) : Meth bool :=
  match argmap !! cmd with
  | Some (required, usage) =>
      if negb (required =? argnum) then error usage >> ret true else ret false
  | None => ret false
  end.

(** The characters of [strip(" \r\t")] *)
Definition is_blank (c : ascii) : bool :=
  (ord c =? 32) || (ord c =? 13) || (ord c =? 9).

Definition get_cmd (command : string) : Meth unit :=
  if len (strip_by is_blank command) =? 0 then ret tt
  else
    match index command 0 with
    | None => raise (IndexError "string index out of range")
    | Some c0 =>
        if ord c0 =? ord "#" then ret tt
        else
          let command :=
            if isdigit c0 then lstrip (lstrip_by isdecimal command) else command in
          let elements := split command in
          match elements with
          | [] => ret tt
          | command_name :: args =>
              let* bad := has_arg_error command_name (Z.of_nat (length args)) in
              if bad then ret tt
              else
                match lookup_command command_name commands with
                | Some handler =>
                    try_except (handler args)
                      (fun e =>
                         debug_msg ("Error executing command " +:+ str_exn e +:+ nl) >>
                         debug_msg ("Stack Trace:" +:+ nl +:+ format_exc e +:+ nl) >>
                         raise e)
                | None =>
                    debug_msg ("Unknown command: " +:+ command_name +:+ nl) >>
                    error "Unknown command"
                end
          end
    end.

(** [start_connection]: the lines of the input stream are handed to
    [get_cmd] one after the other until the stream ends (an empty
    line is what [readline] returns there) or a command raises. *)
Fixpoint start_connection (lines : list string) : Meth unit :=
  match lines with
  | [] => ret tt
  | line :: rest =>
      if len line =? 0 then ret tt
      else get_cmd line >> start_connection rest
  end.

End Session.
End Gtp.

(* ================================================================== *)
(** ** A small board and engine to run the session on *)
(* ================================================================== *)

(** The session is stated over any collaborators.  To run it on actual
    positions this module supplies simple ones: a board stored as a
    linear array with a border column per row, on which a move places a
    stone and removes each single opposing stone it leaves enclosed, and
    an engine that proposes the first empty point. *)
Module TestBoard.
Import PyStr Codec.

Record t : Type := mk {
  size : Z;
  cells : list Z;
  to_play : Z
}.

Definition EMPTY : Z := 0.
Definition BLACK : Z := 1.
Definition WHITE : Z := 2.
Definition BORDER : Z := 3.

Definition opponent (color : Z) : Z := BLACK + WHITE - color.

Definition NS (n : Z) : Z := n + 1.

Definition coord_to_point (row col n : Z) : Z := NS n * row + col.

Definition on_board (n i : Z) : bool :=
  let row := i / NS n in
  let col := i mod NS n in
  (1 <=? row) && (row <=? n) && (1 <=? col) && (col <=? n).

Definition empty_board (n : Z) : t :=
  mk n
     (map (fun i => if on_board n i then EMPTY else BORDER)
          (Gtp.range (n * n + 3 * (n + 1))))
     BLACK.

Definition cell (b : t) (i : Z) : Z :=
  if i <? 0 then BORDER else nth (Z.to_nat i) (cells b) BORDER.

Definition set_cell (b : t) (i v : Z) : t :=
  mk (size b) (<[Z.to_nat i := v]> (cells b)) (to_play b).

Definition neighbours (b : t) (i : Z) : list Z :=
  [i - 1; i + 1; i - NS (size b); i + NS (size b)].

(** Every neighbour of [i] is a stone of [color] or the border. *)
Definition enclosed (b : t) (i color : Z) : bool :=
  forallb (fun n => (cell b n =? color) || (cell b n =? BORDER)) (neighbours b i).

Definition take_if_enclosed (color : Z) (b : t) (n : Z) : t :=
  if (cell b n =? opponent color) && enclosed b n color
  then set_cell b n EMPTY else b.

Definition play_move (b : t) (p : point) (color : Z) : t * bool :=
  match p with
  | None => (mk (size b) (cells b) (opponent color), true)
  | Some i =>
      if cell b i =? EMPTY then
        let b1 := set_cell b i color in
        let b2 := fold_left (take_if_enclosed color) (neighbours b i) b1 in
        (mk (size b) (cells b2) (opponent color), true)
      else (b, false)
  end.

Definition get_empty_points (b : t) : list Z :=
  List.filter (fun i => cell b i =? EMPTY) (Gtp.range (Z.of_nat (length (cells b)))).

Definition check_suicide (b : t) (i color : Z) : bool :=
  enclosed b i (opponent color).

Definition is_legal (b : t) (p : point) (color : Z) : bool :=
  match p with
  | None => true
  | Some i => (cell b i =? EMPTY) && negb (check_suicide b i color)
  end.

Definition reset (b : t) (n : Z) : result t :=
  if (2 <=? n) && (n <=? MAXSIZE) then Ok (empty_board n) else Raise AssertionError.

Definition row_start (b : t) (row : Z) : Z := row * NS (size b) + 1.

Definition render (b : t) : string :=
  join " " (map str_of_Z (cells b)).

Definition get_move (b : t) (color : Z) : point :=
  match get_empty_points b with
  | [] => PASS
  | i :: _ => Some i
  end.

Definition trace (e : exn) : string :=
  "Traceback (most recent call last): " +:+ str_exn e.

#[export] Instance collab : Gtp.Collaborators := {|
  Gtp.board := t;
  Gtp.BLACK := BLACK;
  Gtp.WHITE := WHITE;
  Gtp.EMPTY := EMPTY;
  Gtp.BORDER := BORDER;
  Gtp.coord_to_point := coord_to_point;
  Gtp.board_size := size;
  Gtp.current_player := to_play;
  Gtp.board_reset := reset;
  Gtp.board_copy := fun b => b;
  Gtp.get_empty_points := get_empty_points;
  Gtp.get_color := cell;
  Gtp.is_legal := is_legal;
  Gtp.check_suicide := check_suicide;
  Gtp.play_move := play_move;
  Gtp.row_start := row_start;
  Gtp.board_array := cells;
  Gtp.get_twoD_board_str := render;
  Gtp.engine_name := "TestEngine";
  Gtp.engine_version := "1.0";
  Gtp.get_move := get_move;
  Gtp.pyfloat := Z;
  Gtp.float_of_str := py_int;
  Gtp.format_exc := trace
|}.

(** A fresh session on an empty board of side [n], Black to move. *)
Definition session (n : Z) (debug : bool) : Gtp.state :=
  Gtp.mkState (empty_board n) 0 debug [] [] [].

(** The session after the given input lines. *)
Definition after (lines : list string) (st : Gtp.state) : Gtp.state :=
  snd (Gtp.start_connection lines st).

(** Side 3, a black stone on A2 and a white one on A1, Black to move:
    a black stone on B1 takes the white one. *)
Definition corner : Gtp.state :=
  after ["play b a2"; "play w a1"]%string (session 3 false).

End TestBoard.

(* ================================================================== *)
(** ** Notions the statements below use *)
(* ================================================================== *)

Module Notions.
Import PyStr Codec.

(** An ASCII letter, of either case. *)
Definition is_letter (c : ascii) : bool :=
  between 65 90 (ord c) || between 97 122 (ord c).

(** A text of the shape letter, then one or more decimal digits. *)
Definition letter_then_digits (s : string) : bool :=
  match s with
  | EmptyString => false
  | String c ds =>
      is_letter c && negb (String.eqb ds EmptyString)
      && forallb isdecimal (list_ascii_of_string ds)
  end.

(** The column a letter stands for: A..H are columns 1..8 and J..Z are
    columns 9..25, in either case. *)
Definition column_of (c : ascii) : Z :=
  let n := ord (lower_char c) - ord "a" in
  if ord (lower_char c) <? ord "i" then n + 1 else n.

(** The letter of a column: A to H for the columns 1 to 8 and J to Z
    for the columns 9 to 25, the letter I being skipped. *)
Definition letter_of_column (col : Z) : ascii :=
  chr (if col <? 9 then 64 + col else 65 + col).

(** The transport text of the point with index [p] in the array of a
    board of side [size], where a row takes [size + 1] cells: the
    letter of its column, then the decimal numeral of its row. *)
Definition point_text (size p : Z) : string :=
  String (letter_of_column (p mod (size + 1))) (str_of_Z (p / (size + 1))).

(** The illegal-move messages as the specification words them: the
    words [illegal move:], the colour token and the move token between
    double quotes (code 34), then the reason. *)
Definition illegal_move_message (color_token move_token reason : string) : string :=
  String.concat EmptyString
    [ "illegal move: "; String "034"%char EmptyString; color_token; " "; move_token;
      String "034"%char EmptyString; " "; reason ]%string.

(** The text [c] is the plain writing of the coordinate it decodes to:
    the pass text, or a letter followed by the decimal numeral of the
    row, with row and column in the range [format_point] covers. *)
Definition plainly_written (c : string) (decoded : coord) : Prop :=
  match decoded with
  | CPass => True
  | CFalse => False
  | CPair row col =>
      row < MAXSIZE /\ col < MAXSIZE /\
      exists letter, c = String letter (str_of_Z row)
  end.

(** [format_point(move_to_coord(c, size))] *)
Definition format_move (c : string) (size : Z) : result string :=
  let+ coord := move_to_coord c size in format_point coord.

End Notions.

Module SessionNotions.
Import PyStr Codec Gtp Notions.

Section Defs.
Context {collab : Collaborators}.

(** The success and the error frame of the transport. *)
Definition success_frame (payload : string) : string :=
  "= " +:+ payload +:+ nl +:+ nl.
Definition error_frame (message : string) : string :=
  "? " +:+ message +:+ nl +:+ nl.

(** The session after one more success response. *)
Definition answered (payload : string) (st : state) : state :=
  write_stdout (success_frame payload) st.

(** The points that are empty after [color] is played at [p] on a
    copy of the board. *)
Definition empty_after (b : board) (p : point) (color : Z) : list Z :=
  get_empty_points (fst (play_move (board_copy b) p color)).

(** What [capture_detection] returns, as a function of the board. *)
Definition capture_of (b : board) (p : point) (color : Z) : result bool :=
  let+ rest := list_remove p (get_empty_points b) in
  Ok (negb (list_eqb rest (empty_after b p color))).

(** A point that passes the two tests of the legal-move loop. *)
Definition keeps (b : board) (color : Z) (p : Z) : bool :=
  is_legal b (Some p) color &&
  match capture_of b (Some p) color with
  | Ok false => true
  | _ => false
  end.

(** Only the record of [play_move] calls grew, and only by calls on
    the private copy. *)
Definition only_probed (st st' : state) : Prop :=
  the_board st' = the_board st /\ komi st' = komi st /\
  debug_mode st' = debug_mode st /\
  stdout st' = stdout st /\ stderr st' = stderr st /\
  exists calls, played st' = played st ++ calls /\
                Forall (fun call => fst (fst call) = monitor_board) calls.

(** An empty point that [gogui_rules_legal_moves_cmd] lists: the board
    finds it legal for the side to move and [capture_detection]
    returns [False] for it. *)
Definition listed_point (st : state) (p : Z) : bool :=
  is_legal (the_board st) (Some p) (current_player (the_board st)) &&
  match fst (capture_detection (Some p) (current_player (the_board st)) st) with
  | Ok false => true
  | _ => false
  end.

(** The sort key of [gogui_rules_legal_moves_cmd]: the code of the
    first character. *)
Definition first_key (x : string) : Z :=
  match index x 0 with
  | Some c => ord c
  | None => -1
  end.

Definition keyed (x : string) : Z * string := (first_key x, x).

Definition key_le {A} (a b : Z * A) : Prop := fst a <= fst b.

(** The tokens [get_cmd] reads from a line; none when the line is
    blank or a comment. *)
Definition elements_of (command : string) : list string :=
  if len (strip_by is_blank command) =? 0 then []
  else
    match index command 0 with
    | None => []
    | Some c0 =>
        if ord c0 =? ord "#" then []
        else split (if isdigit c0 then lstrip (lstrip_by isdecimal command)
                    else command)
    end.

(** What [get_cmd] writes to the debug stream before it re-raises. *)
Definition logged (e : exn) (st : state) : state :=
  if debug_mode st then
    write_stderr ("Stack Trace:" +:+ nl +:+ format_exc e +:+ nl)
      (write_stderr ("Error executing command " +:+ str_exn e +:+ nl) st)
  else st.

(** What [get_cmd] does with a command that passed the count of its
    arguments ([invoke]), and with the tokens of a line ([dispatch]);
    [get_cmd_elements] below relates them to [get_cmd]. *)
Definition invoke (command_name : string) (args : list string) : M state unit :=
  match lookup_command command_name commands with
  | Some handler =>
      try_except (handler args)
        (fun e =>
           debug_msg ("Error executing command " +:+ str_exn e +:+ nl) >>
           debug_msg ("Stack Trace:" +:+ nl +:+ format_exc e +:+ nl) >>
           raise e)
  | None =>
      debug_msg ("Unknown command: " +:+ command_name +:+ nl) >>
      error "Unknown command"
  end.

Definition dispatch (command_name : string) (args : list string) : M state unit :=
  let* bad := has_arg_error command_name (Z.of_nat (length args)) in
  if bad then ret tt else invoke command_name args.

(** The commands with a required number of arguments as the
    specification lists them, and the entries of [argmap]. *)
Definition listed_arities : list (string * Z) :=
  [ ("boardsize", 1); ("komi", 1); ("known_command", 1);
    ("genmove", 1); ("play", 2) ]%string.

Definition checked_arities : list (string * (Z * string)) :=
  [ ("boardsize", (1, "Usage: boardsize INT"));
    ("komi", (1, "Usage: komi FLOAT"));
    ("known_command", (1, "Usage: known_command CMD_NAME"));
    ("genmove", (1, "Usage: genmove {w,b}"));
    ("play", (2, "Usage: play {b,w} MOVE"));
    ("legal_moves", (1, "Usage: legal_moves {w,b}")) ]%string.

(** The five reasons of an illegal-move response. *)
Definition reasons : list string :=
  [ "wrong color"; "wrong coordinate"; "occupied"; "suicide"; "capture" ]%string.

(** The session after [play_move] on its board, the debug trace
    written when the board reports that the move did not apply. *)
Definition moved (a1 : string) (move : Z) (color : Z) (st : state) : state :=
  let '(b', applied) := play_move (the_board st) (Some move) color in
  let st1 := log_play self_board (Some move) color (set_board b' st) in
  if applied then st1
  else if debug_mode st1 then
         write_stderr ("Move: " +:+ a1 +:+ nl +:+ "Board:" +:+ nl +:+
                       get_twoD_board_str b' +:+ nl) st1
       else st1.

(** The [play_move] calls made on the board of the session. *)
Definition is_self (t : target) : bool :=
  match t with
  | self_board => true
  | monitor_board => false
  end.

Definition self_plays (st : state) : list (target * point * Z) :=
  List.filter (fun call => is_self (fst (fst call))) (played st).

(** All six checks of [play] pass. *)
Definition all_stages_pass (st : state) (a1 : string) (color : Z) : Prop :=
  exists c row col,
    color = current_player (the_board st) /\
    index a1 1 = Some c /\ isdigit c = true /\
    move_to_coord a1 (board_size (the_board st)) = Ok (CPair row col) /\
    get_color (the_board st) (coord_to_point row col (board_size (the_board st))) = 0 /\
    check_suicide (the_board st) (coord_to_point row col (board_size (the_board st))) color
    = false /\
    fst (capture_detection
           (Some (coord_to_point row col (board_size (the_board st)))) color st)
    = Ok false.

(** The six validation stages of [play], in order, for a colour token
    that names [color]: each constructor is one way for the command
    to end, with the session it leaves. *)
Inductive play_outcome (st : state) (a0 a1 : string) (color : Z) : state -> Prop :=
| stage_wrong_color :
    color <> current_player (the_board st) ->
    play_outcome st a0 a1 color (answered (illegal_move_message a0 a1 "wrong color") st)
| stage_syntax c :
    color = current_player (the_board st) ->
    index a1 1 = Some c -> isdigit c = false ->
    play_outcome st a0 a1 color (answered (illegal_move_message a0 a1 "wrong coordinate") st)
| stage_decode c :
    color = current_player (the_board st) ->
    index a1 1 = Some c -> isdigit c = true ->
    move_to_coord a1 (board_size (the_board st)) = Ok CFalse ->
    play_outcome st a0 a1 color (answered (illegal_move_message a0 a1 "wrong coordinate") st)
| stage_occupied c row col :
    color = current_player (the_board st) ->
    index a1 1 = Some c -> isdigit c = true ->
    move_to_coord a1 (board_size (the_board st)) = Ok (CPair row col) ->
    get_color (the_board st) (coord_to_point row col (board_size (the_board st))) <> 0 ->
    play_outcome st a0 a1 color (answered (illegal_move_message a0 a1 "occupied") st)
| stage_suicide c row col :
    color = current_player (the_board st) ->
    index a1 1 = Some c -> isdigit c = true ->
    move_to_coord a1 (board_size (the_board st)) = Ok (CPair row col) ->
    let move := coord_to_point row col (board_size (the_board st)) in
    get_color (the_board st) move = 0 ->
    check_suicide (the_board st) move color = true ->
    play_outcome st a0 a1 color (answered (illegal_move_message a0 a1 "suicide") st)
| stage_capture c row col :
    color = current_player (the_board st) ->
    index a1 1 = Some c -> isdigit c = true ->
    move_to_coord a1 (board_size (the_board st)) = Ok (CPair row col) ->
    let move := coord_to_point row col (board_size (the_board st)) in
    get_color (the_board st) move = 0 ->
    check_suicide (the_board st) move color = false ->
    fst (capture_detection (Some move) color st) = Ok true ->
    play_outcome st a0 a1 color
      (answered (illegal_move_message a0 a1 "capture")
                (log_play monitor_board (Some move) color st))
| stage_played c row col :
    color = current_player (the_board st) ->
    index a1 1 = Some c -> isdigit c = true ->
    move_to_coord a1 (board_size (the_board st)) = Ok (CPair row col) ->
    let move := coord_to_point row col (board_size (the_board st)) in
    get_color (the_board st) move = 0 ->
    check_suicide (the_board st) move color = false ->
    fst (capture_detection (Some move) color st) = Ok false ->
    play_outcome st a0 a1 color
      (answered EmptyString
                (moved a1 move color (log_play monitor_board (Some move) color st))).

End Defs.
End SessionNotions.


(* ================================================================== *)
(** ** Notions of the further properties *)
(* ================================================================== *)

Module ExtraNotions.
Import PyStr Codec Gtp Notions SessionNotions.

Section Defs.
Context {collab : Collaborators}.

(** A chunk of output that is a response of the protocol. *)
Definition is_frame (chunk : string) : Prop :=
  exists payload, chunk = success_frame payload \/ chunk = error_frame payload.

(** From [st] to [st'] the chunks [out] were written to the output and
    nothing else was: they are responses, the debug flag is the same,
    nothing went to the debug stream unless the flag is set, and, when
    [board_too] is set, the board is the same and no [play_move] call
    was made on it. *)
Definition tidy (board_too : bool) (st st' : state) (out : list string) : Prop :=
  stdout st' = stdout st ++ out /\
  Forall is_frame out /\
  debug_mode st' = debug_mode st /\
  (debug_mode st = false -> stderr st' = stderr st) /\
  (board_too = true ->
   the_board st' = the_board st /\ self_plays st' = self_plays st).

(** A method keeps the session tidy and [P] relates whether it returned
    to the number of responses it wrote. *)
Definition outcome {A} (board_too : bool) (P : bool -> nat -> Prop) (m : M state A)
  : Prop :=
  forall st, exists out,
      tidy board_too st (snd (m st)) out /\ P (is_Ok (fst (m st))) (length out).

(** No response; one response when it returns and none when it raises;
    at most one response, and one when it returns. *)
Definition silent (ok : bool) (n : nat) : Prop := n = 0%nat.
Definition exact (ok : bool) (n : nat) : Prop := n = if ok then 1%nat else 0%nat.
Definition once (ok : bool) (n : nat) : Prop :=
  (n <= 1)%nat /\ (ok = true -> n = 1%nat).

(** The commands that may change the board. *)
Definition board_commands : list string :=
  [ "boardsize"; "clear_board"; "play"; "genmove" ]%string.

(** A line that [get_cmd] passes over: a comment, or nothing but
    whitespace once the decimal digits it starts with are dropped. *)
Definition ignored_line (command : string) : bool :=
  match command with
  | String c _ => ord c =? ord "#"
  | EmptyString => false
  end
  || forallb isspace (drop_while isdecimal (list_ascii_of_string command)).

(** The text [genmove] has for the move of the engine. *)
Definition move_text (b : board) (color : Z) : result string :=
  let+ move_coord := point_to_coord (get_move b color) (board_size b) in
  format_point move_coord.

(** A method that leaves the session as it was, the record of probes
    on copies apart; a method that does so whenever it raises. *)
Definition quiet {A} (m : M state A) : Prop :=
  forall st, only_probed st (snd (m st)).
Definition atomic {A} (m : M state A) : Prop :=
  forall st, is_Ok (fst (m st)) = false -> only_probed st (snd (m st)).

(** The character [gogui_rules_board_cmd] writes for a cell of the board
    array, the tests being made in the order black, white, empty. *)
Definition shows (v : Z) (c : ascii) : Prop :=
  (v = BLACK /\ c = "X"%char) \/
  (v <> BLACK /\ v = WHITE /\ c = "O"%char) \/
  (v <> BLACK /\ v <> WHITE /\ v = EMPTY /\ c = "."%char).

(** The cell at index [j] of the board array is shown as [c]; it cannot
    be shown, which raises [e]. *)
Definition shown (b : board) (j : Z) (c : ascii) : Prop :=
  exists v, array_index (board_array b) j = Ok v /\ shows v c.

Definition unshowable (b : board) (j : Z) (e : exn) : Prop :=
  array_index (board_array b) j = Raise e \/
  exists v, array_index (board_array b) j = Ok v /\
            v <> BLACK /\ v <> WHITE /\ v <> EMPTY /\ e = AssertionError.

(** Rows of characters as a text, a line feed after each. *)
Fixpoint lines_text (rows : list (list ascii)) : string :=
  match rows with
  | [] => EmptyString
  | cells :: rows' => string_of_list_ascii cells +:+ nl +:+ lines_text rows'
  end.

End Defs.
End ExtraNotions.

(* ================================================================== *)
(** ** Proof tactics *)
(* ================================================================== *)

Module Tactics.

(** Case analysis over the 256 characters. *)
Ltac each_char c := destruct c as [[] [] [] [] [] [] [] []].

(** Unfolding of the monad, for the symbolic execution of a method. *)
Ltac run :=
  unfold bind, lift, gets, ret, raise, modify, try_except; cbn beta iota.

End Tactics.

(* ================================================================== *)
(** * Properties *)
(* ================================================================== *)

(** ** The coordinate codec *)

Module CodecProps.
Import PyStr Codec Tactics.

Lemma index_0_cons (c : ascii) (s : string) : index (String c s) 0 = Some c.
Proof.
  unfold index, len. cbn [String.length Z.ltb Z.compare].
  replace (0 <=? 0) with true by reflexivity.
  replace (0 <? Z.of_nat (S (String.length s))) with true
    by (symmetry; apply Z.ltb_lt; lia).
  reflexivity.
Qed.

Lemma lower_cons (c : ascii) (s : string) :
  lower (String c s) = String (lower_char c) (lower s).
Proof. reflexivity. Qed.

(** [lower] does not touch what [int] looks at. *)
Lemma lower_char_int_space c : int_space (lower_char c) = int_space c.
Proof. each_char c; reflexivity. Qed.

Lemma lower_char_num c : is_num_char (lower_char c) = is_num_char c.
Proof. each_char c; reflexivity. Qed.

Lemma lower_char_underscore c : is_underscore (lower_char c) = is_underscore c.
Proof. each_char c; reflexivity. Qed.

Lemma lower_char_decimal c : isdecimal (lower_char c) = isdecimal c.
Proof. each_char c; reflexivity. Qed.

Lemma lower_char_digit c : isdecimal c = true -> lower_char c = c.
Proof. each_char c; intros H; try reflexivity; discriminate H. Qed.

Lemma lower_char_sign c k : k = 43 \/ k = 45 -> (ord (lower_char c) =? k) = (ord c =? k).
Proof. intros [-> | ->]; each_char c; reflexivity. Qed.

Lemma list_ascii_lower s :
  list_ascii_of_string (lower s) = map lower_char (list_ascii_of_string s).
Proof. induction s as [|c s IH]; cbn; [reflexivity | now rewrite IH]. Qed.

Lemma drop_while_lower l :
  drop_while int_space (map lower_char l) = map lower_char (drop_while int_space l).
Proof.
  induction l as [|c l IH]; cbn; [reflexivity|].
  rewrite lower_char_int_space. destruct (int_space c); [exact IH | reflexivity].
Qed.

Lemma span_lower l :
  span is_num_char (map lower_char l) =
  (map lower_char (fst (span is_num_char l)), map lower_char (snd (span is_num_char l))).
Proof.
  induction l as [|c l IH]; cbn; [reflexivity|].
  rewrite lower_char_num. destruct (is_num_char c); [|reflexivity].
  rewrite IH. destruct (span is_num_char l); reflexivity.
Qed.

Lemma underscores_ok_lower l prev :
  underscores_ok prev (map lower_char l) = underscores_ok prev l.
Proof.
  revert prev; induction l as [|c l IH]; intros prev; cbn; [reflexivity|].
  rewrite lower_char_underscore, !IH. reflexivity.
Qed.

Lemma forallb_int_space_lower l :
  forallb int_space (map lower_char l) = forallb int_space l.
Proof.
  induction l as [|c l IH]; cbn; [reflexivity|].
  now rewrite lower_char_int_space, IH.
Qed.

Lemma digits_value_lower l : digits_value (map lower_char l) = digits_value l.
Proof.
  unfold digits_value. generalize 0.
  induction l as [|c l IH]; intros acc; cbn; [reflexivity|].
  rewrite lower_char_decimal. destruct (isdecimal c) eqn:E.
  - rewrite (lower_char_digit c E). apply IH.
  - apply IH.
Qed.

Lemma py_int_lower (s : string) : py_int (lower s) = py_int s.
Proof.
  unfold py_int. rewrite list_ascii_lower, drop_while_lower.
  destruct (drop_while int_space (list_ascii_of_string s)) as [|c l]; [reflexivity|].
  cbn [map]. rewrite !lower_char_sign by auto.
  destruct (ord c =? 45); [|destruct (ord c =? 43)].
  - rewrite span_lower. destruct (span is_num_char l) as [num rest]. cbn [fst snd].
    now rewrite underscores_ok_lower, forallb_int_space_lower, digits_value_lower.
  - rewrite span_lower. destruct (span is_num_char l) as [num rest]. cbn [fst snd].
    now rewrite underscores_ok_lower, forallb_int_space_lower, digits_value_lower.
  - change (lower_char c :: map lower_char l) with (map lower_char (c :: l)).
    rewrite span_lower. destruct (span is_num_char (c :: l)) as [num rest]. cbn [fst snd].
    now rewrite underscores_ok_lower, forallb_int_space_lower, digits_value_lower.
Qed.

(** Inside the range of board sizes [move_to_coord] is the parser. *)
Lemma move_to_coord_in_range (s : string) (size : Z) :
  2 <= size <= MAXSIZE ->
  move_to_coord s size =
  if String.eqb (lower s) "pass" then Ok CPass
  else match parse_col_row (lower s) with
       | None | Some None => Ok CFalse
       | Some (Some (row, col)) =>
           if negb ((col <=? size) && (row <=? size)) then Ok CFalse
           else Ok (CPair row col)
       end.
Proof.
  intros [H1 H2]. unfold move_to_coord.
  apply Z.leb_le in H1, H2. rewrite H1, H2. reflexivity.
Qed.

Lemma move_to_coord_out_of_range (s : string) (size : Z) :
  ~ (2 <= size <= MAXSIZE) ->
  move_to_coord s size = Raise (ValueError "board_size out of range").
Proof.
  intros H. unfold move_to_coord.
  destruct (2 <=? size) eqn:E1; destruct (size <=? MAXSIZE) eqn:E2; try reflexivity.
  apply Z.leb_le in E1, E2. tauto.
Qed.

(** The parser on a non-empty text. *)
Lemma parse_col_row_cons (c : ascii) (t : string) :
  parse_col_row (String c t) =
  if negb ((ord "a" <=? ord c) && (ord c <=? ord "z")) || (ord c =? ord "i")
  then Some None
  else match py_int t with
       | None => None
       | Some row =>
           if row <? 1 then Some None
           else Some (Some (row, if ord c <? ord "i" then ord c - ord "a" + 1
                                 else ord c - ord "a"))
       end.
Proof.
  unfold parse_col_row. rewrite index_0_cons. cbn [tail].
  destruct (negb _ || _); [reflexivity|].
  destruct (py_int t) as [row|]; [|reflexivity].
  destruct (row <? 1); [reflexivity|]. destruct (ord c <? ord "i"); reflexivity.
Qed.

(** Inside the range of board sizes [move_to_coord] never raises. *)
Lemma move_to_coord_returns (s : string) (size : Z) :
  2 <= size <= MAXSIZE -> exists c, move_to_coord s size = Ok c.
Proof.
  intros Hsize. rewrite move_to_coord_in_range by exact Hsize.
  destruct (String.eqb (lower s) "pass"); [eauto|].
  destruct (parse_col_row (lower s)) as [[[r col]|]|]; eauto.
  destruct (negb _); eauto.
Qed.

End CodecProps.

Module CodecClaims.
Import PyStr Codec Notions Tactics CodecProps.

Lemma eqb_pass_false (s : string) : s <> "pass"%string -> String.eqb s "pass" = false.
Proof. intros H. apply String.eqb_neq. exact H. Qed.

Lemma lower_char_letter (c : ascii) :
  negb ((ord "a" <=? ord (lower_char c)) && (ord (lower_char c) <=? ord "z"))
  = negb (is_letter c).
Proof. each_char c; reflexivity. Qed.

(** A rejected column letter or row part is a rejected text. *)
Lemma move_to_coord_bad_parse (s : string) (size : Z) :
  2 <= size <= MAXSIZE -> lower s <> "pass"%string ->
  (parse_col_row (lower s) = None \/ parse_col_row (lower s) = Some None) ->
  move_to_coord s size = Ok CFalse.
Proof.
  intros Hsize Hpass Hparse. rewrite move_to_coord_in_range by exact Hsize.
  rewrite eqb_pass_false by exact Hpass.
  destruct Hparse as [-> | ->]; reflexivity.
Qed.

Lemma parse_no_int (c : ascii) (t : string) :
  py_int t = None ->
  parse_col_row (String c t) = None \/ parse_col_row (String c t) = Some None.
Proof.
  intros H. rewrite parse_col_row_cons, H. destruct (negb _ || _); auto.
Qed.

Lemma parse_low_row (c : ascii) (t : string) (row : Z) :
  py_int t = Some row -> row < 1 -> parse_col_row (String c t) = Some None.
Proof.
  intros H Hrow. rewrite parse_col_row_cons, H.
  apply Z.ltb_lt in Hrow. rewrite Hrow. destruct (negb _ || _); reflexivity.
Qed.

Lemma parse_row (c : ascii) (t : string) (row r col : Z) :
  py_int t = Some row -> parse_col_row (String c t) = Some (Some (r, col)) -> r = row.
Proof.
  intros H. rewrite parse_col_row_cons, H.
  destruct (negb _ || _); [discriminate|].
  destruct (row <? 1); [discriminate|]. intros [= <- _]. reflexivity.
Qed.

(** C9, as stated, fails: a text that is not a letter followed by digits
    can still be accepted, because the row part is read by [int], which
    takes a sign. *)
Lemma move_to_coord_accepts_signed_row :
  ~ (forall (s : string) (size : Z),
       2 <= size <= MAXSIZE ->
       lower s <> "pass"%string ->
       letter_then_digits s = false ->
       move_to_coord s size = Ok CFalse).
Proof.
  intros H.
  assert (E : move_to_coord "a+1" 5 = Ok CFalse).
  { apply H; [unfold MAXSIZE; lia | discriminate | reflexivity]. }
  vm_compute in E. discriminate E.
Qed.

(** C9, amended.  For a board size in range [move_to_coord] never
    raises; it returns the pass value on the text pass in any case, and
    on every other text it returns [False] whenever the column letter is
    I or i, the column lies beyond the board size, the row part is not
    an integer literal, the row is zero or negative, the row lies beyond
    the board size, or the text is not a letter followed by an integer
    literal as [int] reads it (a sign, underscores between digits and
    surrounding blanks included). *)
Theorem move_to_coord_rejects (s : string) (size : Z) :
  2 <= size <= MAXSIZE ->
  (lower s = "pass"%string -> move_to_coord s size = Ok CPass) /\
  (lower s <> "pass"%string ->
     ((exists rest, s = String "I" rest \/ s = String "i" rest) ->
      move_to_coord s size = Ok CFalse) /\
     (forall c rest, s = String c rest -> is_letter c = true ->
                     size < column_of c -> move_to_coord s size = Ok CFalse) /\
     (py_int (tail s) = None -> move_to_coord s size = Ok CFalse) /\
     (forall row, py_int (tail s) = Some row -> row < 1 ->
                  move_to_coord s size = Ok CFalse) /\
     (forall row, py_int (tail s) = Some row -> size < row ->
                  move_to_coord s size = Ok CFalse) /\
     (~ (exists c rest, s = String c rest /\ is_letter c = true /\ py_int rest <> None) ->
      move_to_coord s size = Ok CFalse)) /\
  (exists c, move_to_coord s size = Ok c).
Proof.
  intros Hsize. split; [|split].
  - intros Hpass. rewrite move_to_coord_in_range by exact Hsize.
    rewrite Hpass. reflexivity.
  - intros Hpass.
    assert (Hempty : s = EmptyString -> move_to_coord s size = Ok CFalse).
    { intros ->. apply move_to_coord_bad_parse; auto. }
    assert (Hnoint : py_int (tail s) = None -> move_to_coord s size = Ok CFalse).
    { intros H. destruct s as [|c t]; [auto|]. cbn [tail] in H.
      apply move_to_coord_bad_parse; auto. rewrite lower_cons.
      apply parse_no_int. now rewrite py_int_lower. }
    repeat split.
    + intros [rest [-> | ->]]; apply move_to_coord_bad_parse; auto;
        right; rewrite lower_cons, parse_col_row_cons; reflexivity.
    + intros c rest -> _ Hcol. rewrite move_to_coord_in_range by exact Hsize.
      rewrite eqb_pass_false by exact Hpass.
      rewrite lower_cons, parse_col_row_cons. fold (column_of c).
      destruct (negb _ || _); [reflexivity|].
      destruct (py_int (lower rest)) as [row|]; [|reflexivity].
      destruct (row <? 1); [reflexivity|].
      replace (column_of c <=? size) with false by (symmetry; apply Z.leb_gt; lia).
      reflexivity.
    + exact Hnoint.
    + intros row H Hrow. destruct s as [|c t]; [auto|]. cbn [tail] in H.
      apply move_to_coord_bad_parse; auto. right. rewrite lower_cons.
      apply (parse_low_row _ _ row); [now rewrite py_int_lower | exact Hrow].
    + intros row H Hrow. destruct s as [|c t]; [auto|]. cbn [tail] in H.
      rewrite move_to_coord_in_range by exact Hsize.
      rewrite eqb_pass_false by exact Hpass. rewrite lower_cons.
      destruct (parse_col_row (String (lower_char c) (lower t))) as [[[r col]|]|] eqn:E;
        try reflexivity.
      apply (parse_row _ _ row) in E; [|now rewrite py_int_lower]. subst r.
      replace (row <=? size) with false by (symmetry; apply Z.leb_gt; lia).
      rewrite andb_false_r. reflexivity.
    + intros Hshape. destruct s as [|c t]; [auto|].
      destruct (is_letter c) eqn:Hc.
      * apply Hnoint. cbn [tail]. destruct (py_int t) eqn:E; [|reflexivity].
        exfalso. apply Hshape. exists c, t. repeat split; congruence.
      * apply move_to_coord_bad_parse; auto. right.
        rewrite lower_cons, parse_col_row_cons, lower_char_letter, Hc. reflexivity.
  - apply move_to_coord_returns. exact Hsize.
Qed.

Lemma move_to_coord_rejects_witness :
  move_to_coord "PASS" 9 = Ok CPass /\
  move_to_coord "I5" 9 = Ok CFalse /\
  move_to_coord "K5" 9 = Ok CFalse /\
  move_to_coord "Ax" 9 = Ok CFalse /\
  move_to_coord "A0" 9 = Ok CFalse /\
  move_to_coord "A10" 9 = Ok CFalse /\
  move_to_coord "55" 9 = Ok CFalse.
Proof.
  assert (Hsize : 2 <= 9 <= MAXSIZE) by (unfold MAXSIZE; lia).
  pose proof (move_to_coord_rejects "PASS" 9 Hsize) as (Hpass & _ & _).
  pose proof (move_to_coord_rejects "I5" 9 Hsize) as (_ & HI & _).
  pose proof (move_to_coord_rejects "K5" 9 Hsize) as (_ & HK & _).
  pose proof (move_to_coord_rejects "Ax" 9 Hsize) as (_ & Hx & _).
  pose proof (move_to_coord_rejects "A0" 9 Hsize) as (_ & H0 & _).
  pose proof (move_to_coord_rejects "A10" 9 Hsize) as (_ & H10 & _).
  pose proof (move_to_coord_rejects "55" 9 Hsize) as (_ & H55 & _).
  destruct (HI ltac:(discriminate)) as (HI' & _).
  destruct (HK ltac:(discriminate)) as (_ & HK' & _).
  destruct (Hx ltac:(discriminate)) as (_ & _ & Hx' & _).
  destruct (H0 ltac:(discriminate)) as (_ & _ & _ & H0' & _).
  destruct (H10 ltac:(discriminate)) as (_ & _ & _ & _ & H10' & _).
  destruct (H55 ltac:(discriminate)) as (_ & _ & _ & _ & _ & H55').
  split; [exact (Hpass eq_refl)|].
  split; [apply HI'; eauto|].
  split; [apply (HK' "K"%char "5"%string); [reflexivity | reflexivity | vm_compute; reflexivity]|].
  split; [apply Hx'; reflexivity|].
  split; [apply (H0' 0); [reflexivity | lia]|].
  split; [apply (H10' 10); [reflexivity | lia]|].
  apply H55'. intros (c & rest & E & Hc & _).
  injection E as <- <-. discriminate Hc.
Defined.

End CodecClaims.

Module RoundTrip.
Import PyStr Codec Notions Tactics CodecProps.

(** The column letter: what the parser makes of it, and what
    [format_point] makes of that. *)
Lemma column_letter_back (letter : ascii) :
  let c := lower_char letter in
  let col := if ord c <? ord "i" then ord c - ord "a" + 1 else ord c - ord "a" in
  negb ((ord "a" <=? ord c) && (ord c <=? ord "z")) || (ord c =? ord "i") = false ->
  col < MAXSIZE ->
  0 <= col /\
  exists U, index column_letters (col - 1) = Some U /\
            upper_char letter = String U EmptyString.
Proof.
  each_char letter; vm_compute; intros H1 H2;
    try discriminate H1; try discriminate H2;
    (split; [discriminate | eexists; split; reflexivity]).
Qed.

Lemma below (P : Z -> Prop) (lo : Z) (n : nat) :
  (forall k, (k < n)%nat -> P (lo + Z.of_nat k)) ->
  forall z, lo <= z < lo + Z.of_nat n -> P z.
Proof.
  intros H z Hz. replace z with (lo + Z.of_nat (Z.to_nat (z - lo))) by lia.
  apply H. lia.
Qed.

(** The decimal numeral of a row below [MAXSIZE] reads back as that row
    and has no letter in it. *)
Lemma row_numeral_back (row : Z) :
  1 <= row < MAXSIZE ->
  py_int (str_of_Z row) = Some row /\ upper (str_of_Z row) = str_of_Z row.
Proof.
  apply (below (fun row => py_int (str_of_Z row) = Some row /\
                           upper (str_of_Z row) = str_of_Z row) 1 24).
  intros k Hk.
  do 24 (destruct k as [|k]; [split; reflexivity|]). lia.
Qed.

(** C8, as stated, fails: the row part 01 is read as row 1, and the
    formatter writes that row without the zero. *)
Lemma round_trip_fails_on_leading_zero :
  ~ (forall (c : string) (size : Z) (coord : coord),
       move_to_coord c size = Ok coord -> coord <> CFalse ->
       format_point coord = Ok (upper c)).
Proof.
  intros H.
  assert (E : format_point (CPair 1 1) = Ok (upper "a01")).
  { apply (H "a01" 5); [reflexivity | discriminate]. }
  vm_compute in E. discriminate E.
Qed.

(** A column letter followed by the decimal numeral of a row, when
    [move_to_coord] accepts it with row and column below [MAXSIZE], is
    formatted back to the same text in upper case. *)
Lemma format_point_coordinate (letter : ascii) (row size r col : Z) :
  1 <= row < MAXSIZE ->
  move_to_coord (String letter (str_of_Z row)) size = Ok (CPair r col) ->
  col < MAXSIZE ->
  format_point (CPair r col) = Ok (upper (String letter (str_of_Z row))).
Proof.
  intros Hrow Hacc Hcol.
  assert (Hsize : 2 <= size <= MAXSIZE).
  { destruct (Z_le_dec 2 size) as [H1|H1]; destruct (Z_le_dec size MAXSIZE) as [H2|H2];
      try (split; assumption);
      rewrite move_to_coord_out_of_range in Hacc by lia; discriminate Hacc. }
  rewrite move_to_coord_in_range in Hacc by exact Hsize.
  destruct (String.eqb _ "pass"); [discriminate Hacc|].
  rewrite lower_cons, parse_col_row_cons, py_int_lower in Hacc.
  destruct (row_numeral_back row Hrow) as [Hint Hup]. rewrite Hint in Hacc.
  pose proof (column_letter_back letter) as Hletter. cbv zeta in Hletter.
  destruct (negb _ || _); [discriminate Hacc|]. specialize (Hletter eq_refl).
  replace (row <? 1) with false in Hacc by (symmetry; apply Z.ltb_ge; lia).
  destruct (negb _); [discriminate Hacc|]. injection Hacc as <- <-.
  destruct (Hletter Hcol) as (Hcol0 & U & Hidx & HU).
  unfold format_point.
  replace (negb (MAXSIZE <=? 25)) with false by reflexivity.
  replace ((0 <=? row) && (row <? MAXSIZE)) with true
    by (symmetry; apply andb_true_intro; split; [apply Z.leb_le | apply Z.ltb_lt]; lia).
  match goal with
  | |- context [negb ((0 <=? ?c) && (?c <? MAXSIZE))] =>
      replace ((0 <=? c) && (c <? MAXSIZE)) with true
        by (symmetry; apply andb_true_intro; split; [apply Z.leb_le | apply Z.ltb_lt]; lia)
  end.
  cbn [negb orb]. rewrite Hidx. cbn [upper]. rewrite HU, Hup. reflexivity.
Qed.

(** The pass text, in any case, comes back as PASS. *)
Lemma format_point_pass (s : string) (size : Z) :
  move_to_coord s size = Ok CPass -> format_point CPass = Ok (upper s).
Proof.
  intros H.
  assert (Hsize : 2 <= size <= MAXSIZE).
  { destruct (Z_le_dec 2 size) as [H1|H1]; destruct (Z_le_dec size MAXSIZE) as [H2|H2];
      try (split; assumption);
      rewrite move_to_coord_out_of_range in H by lia; discriminate H. }
  rewrite move_to_coord_in_range in H by exact Hsize.
  destruct (String.eqb (lower s) "pass") eqn:E.
  - apply String.eqb_eq in E. clear H.
    assert (Hc : forall c x, lower_char c = x ->
                   between 97 122 (ord x) = true ->
                   upper_char c = String (chr (ord x - 32)) EmptyString).
    { intros c x <-. each_char c; intros Hx; try discriminate Hx; reflexivity. }
    destruct s as [|c1 [|c2 [|c3 [|c4 [|c5 s]]]]]; try discriminate E.
    cbn [lower] in E. injection E as E1 E2 E3 E4.
    cbn [upper]. rewrite (Hc _ _ E1), (Hc _ _ E2), (Hc _ _ E3), (Hc _ _ E4) by reflexivity.
    reflexivity.
  - destruct (parse_col_row (lower s)) as [[[r col]|]|]; try discriminate H.
    destruct (negb _); discriminate H.
Qed.

(** C8, amended.  A text that [move_to_coord] accepts and that is the
    plain writing of its coordinate (the pass text in any case, or a
    column letter followed by the decimal numeral of the row, with row
    and column below [MAXSIZE]) is formatted back by [format_point] to
    the same text in upper case. *)
Theorem format_point_move_to_coord (c : string) (size : Z) (decoded : coord) :
  move_to_coord c size = Ok decoded ->
  plainly_written c decoded ->
  format_point decoded = Ok (upper c).
Proof.
  intros Hacc Hplain. destruct decoded as [| |row col].
  - eapply format_point_pass. exact Hacc.
  - destruct Hplain.
  - destruct Hplain as (Hrow & Hcol & letter & ->).
    apply (format_point_coordinate letter row size row col); [|exact Hacc | exact Hcol].
    split; [|exact Hrow].
    assert (Hsize : 2 <= size <= MAXSIZE).
    { destruct (Z_le_dec 2 size) as [H1|H1]; destruct (Z_le_dec size MAXSIZE) as [H2|H2];
        try (split; assumption);
        rewrite move_to_coord_out_of_range in Hacc by lia; discriminate Hacc. }
    rewrite move_to_coord_in_range in Hacc by exact Hsize.
    destruct (String.eqb _ "pass"); [discriminate Hacc|].
    rewrite lower_cons, parse_col_row_cons in Hacc.
    destruct (negb _ || _); [discriminate Hacc|].
    destruct (py_int _) as [r|]; [|discriminate Hacc].
    destruct (r <? 1) eqn:Hr; [discriminate Hacc|].
    destruct (negb _); [discriminate Hacc|].
    injection Hacc as -> _. apply Z.ltb_ge in Hr. exact Hr.
Qed.

Lemma format_point_move_to_coord_witness :
  format_point (CPair 7 9) = Ok "J7"%string /\
  format_point CPass = Ok "PASS"%string.
Proof.
  split.
  - apply (format_point_move_to_coord "j7" 9 (CPair 7 9)); [reflexivity|].
    split; [reflexivity|]. split; [reflexivity|].
    exists "j"%char. reflexivity.
  - apply (format_point_move_to_coord "Pass" 9 CPass); [reflexivity | exact I].
Defined.

(** On the largest board a valid coordinate of the last row is not
    formatted at all: the formatter stops at [MAXSIZE - 1]. *)
Example last_row_not_formatted :
  move_to_coord "a25" 25 = Ok (CPair 25 1) /\
  format_move "a25" 25 = Raise (ValueError EmptyString).
Proof. split; reflexivity. Qed.

End RoundTrip.

(** ** The session *)

Module SessionProps.
Import PyStr Codec Gtp Notions SessionNotions Tactics.

Section Props.
Context {collab : Collaborators}.

(** *** Lists *)

Lemma list_eqb_eq (l1 l2 : list Z) : list_eqb l1 l2 = true <-> l1 = l2.
Proof.
  revert l2; induction l1 as [|x l1 IH]; intros [|y l2]; cbn; split;
    try discriminate; try reflexivity.
  - intros H. apply andb_prop in H as [Hx Hl]. apply Z.eqb_eq in Hx.
    apply IH in Hl. congruence.
  - intros [= -> ->]. rewrite Z.eqb_refl. now apply IH.
Qed.

Lemma remove_first_in (x : Z) (l : list Z) :
  In x l -> exists r, remove_first x l = Some r.
Proof.
  induction l as [|y l IH]; cbn; [tauto|]. intros H.
  destruct (y =? x) eqn:E; [eauto|].
  destruct H as [H|H]; [apply Z.eqb_neq in E; congruence|].
  destruct (IH H) as [r ->]. eauto.
Qed.

(** On a strictly increasing list, removing [x] leaves the other
    elements, still strictly increasing. *)
Lemma remove_first_sorted (x : Z) (l r : list Z) :
  StronglySorted Z.lt l -> remove_first x l = Some r ->
  StronglySorted Z.lt r /\ (forall y, In y r <-> In y l /\ y <> x).
Proof.
  intros Hs. revert r. induction Hs as [|y l Hs IH Hy]; cbn; [discriminate|].
  intros r. destruct (y =? x) eqn:E.
  - apply Z.eqb_eq in E. subst y. intros [= <-]. split; [exact Hs|].
    intros z. rewrite List.Forall_forall in Hy. split.
    + intros Hz. specialize (Hy z Hz). split; [tauto | lia].
    + intros [[Hz|Hz] Hne]; [congruence | exact Hz].
  - apply Z.eqb_neq in E.
    destruct (remove_first x l) as [r'|] eqn:Er; [|discriminate].
    intros [= <-]. destruct (IH r' eq_refl) as [Hs' Hin]. split.
    + constructor; [exact Hs'|]. rewrite List.Forall_forall in *.
      intros z Hz. apply Hy. now apply Hin.
    + intros z. cbn. rewrite Hin. split.
      * intros [->|[Hz Hne]]; tauto.
      * intros [[->|Hz] Hne]; tauto.
Qed.

(** Two strictly increasing lists with the same elements are equal. *)
Lemma sorted_same_elements (l1 l2 : list Z) :
  StronglySorted Z.lt l1 -> StronglySorted Z.lt l2 ->
  (forall x, In x l1 <-> In x l2) -> l1 = l2.
Proof.
  intros H1. revert l2. induction H1 as [|x l1 H1 IH Hx]; intros l2 H2 Hin.
  - destruct l2 as [|y l2]; [reflexivity|]. exfalso. apply (Hin y). now left.
  - destruct H2 as [|y l2 H2 Hy].
    + exfalso. apply (Hin x). now left.
    + rewrite List.Forall_forall in Hx, Hy.
      assert (x = y).
      { destruct (proj1 (Hin x) (or_introl eq_refl)) as [E|E]; [congruence|].
        destruct (proj2 (Hin y) (or_introl eq_refl)) as [E'|E']; [congruence|].
        specialize (Hx y E'). specialize (Hy x E). lia. }
      subst y. f_equal. apply IH; [exact H2|].
      intros z. split; intros Hz.
      * destruct (proj1 (Hin z) (or_intror Hz)) as [E|E]; [|exact E].
        specialize (Hx z Hz). lia.
      * destruct (proj2 (Hin z) (or_intror Hz)) as [E|E]; [|exact E].
        specialize (Hy z Hz). lia.
Qed.

(** *** Capture detection *)

Lemma capture_detection_eq (p : point) (color : Z) (st : state) :
  capture_detection p color st =
  (capture_of (the_board st) p color, log_play monitor_board p color st).
Proof.
  unfold capture_detection, capture_of, empty_after. run. cbn [fst].
  destruct (list_remove p (get_empty_points (the_board st))) as [rest|e]; cbn;
    [|reflexivity].
  destruct (list_eqb rest _); reflexivity.
Qed.

(** C3.  On a point that is among the empty points of the board,
    [capture_detection] returns; it returns [False] exactly when the
    set of points that are empty once the move is played on a copy is
    the set of points that were empty but for the point itself, and
    [True] otherwise; the board of the session, its output and its
    komi are as before, and the one [play_move] call went to the copy.
    The board enumerates its empty points in increasing order, each
    once. *)
Theorem capture_detection_compares_empty_sets (p : Z) (color : Z) (st : state) :
  let b := the_board st in
  In p (get_empty_points b) ->
  StronglySorted Z.lt (get_empty_points b) ->
  StronglySorted Z.lt (empty_after b (Some p) color) ->
  exists captures : bool,
    capture_detection (Some p) color st
    = (Ok captures, log_play monitor_board (Some p) color st) /\
    (captures = false <->
     (list_to_set (empty_after b (Some p) color) : gset Z)
     = list_to_set (get_empty_points b) ∖ {[ p ]}) /\
    (captures = true <->
     (list_to_set (empty_after b (Some p) color) : gset Z)
     <> list_to_set (get_empty_points b) ∖ {[ p ]}) /\
    the_board (log_play monitor_board (Some p) color st) = the_board st.
Proof.
  intros b Hin Hbefore Hafter.
  rewrite capture_detection_eq. unfold capture_of, list_remove. fold b.
  destruct (remove_first_in p _ Hin) as [rest Hrest]. rewrite Hrest. cbn.
  destruct (remove_first_sorted _ _ _ Hbefore Hrest) as [Hsorted Helems].
  assert (Hiff : list_eqb rest (empty_after b (Some p) color) = true <->
                 (list_to_set (empty_after b (Some p) color) : gset Z)
                 = list_to_set (get_empty_points b) ∖ {[ p ]}).
  { rewrite list_eqb_eq. split.
    - intros <-. apply set_eq. intros x.
      rewrite elem_of_difference, !elem_of_list_to_set, !list_elem_of_In, Helems.
      rewrite elem_of_singleton. tauto.
    - intros Hset. apply sorted_same_elements; [exact Hsorted | exact Hafter|].
      intros x. rewrite Helems.
      rewrite <- !list_elem_of_In.
      rewrite <- (elem_of_list_to_set (C := gset Z) x (empty_after _ _ _)), Hset.
      rewrite elem_of_difference, elem_of_list_to_set, elem_of_singleton. tauto. }
  eexists. split; [reflexivity|]. split; [|split; [|reflexivity]].
  - rewrite <- Hiff. destruct (list_eqb rest _); cbn; split; congruence.
  - rewrite <- Hiff. destruct (list_eqb rest _); cbn; split; congruence.
Qed.

(** *** The legal moves *)

Lemma only_probed_refl (st : state) : only_probed st st.
Proof.
  unfold only_probed. repeat split. exists []. rewrite app_nil_r. split; constructor.
Qed.

Lemma only_probed_log (st st' : state) (p : point) (color : Z) :
  only_probed (log_play monitor_board p color st) st' -> only_probed st st'.
Proof.
  unfold only_probed. cbn. intros (Hb & Hk & Hd & Ho & He & calls & Hp & Hc).
  repeat split; try assumption.
  exists ((monitor_board, p, color) :: calls). split.
  - rewrite Hp, <- app_assoc. reflexivity.
  - constructor; [reflexivity | exact Hc].
Qed.

Lemma capture_of_empty_point (b : board) (p color : Z) :
  In p (get_empty_points b) -> exists r, capture_of b (Some p) color = Ok r.
Proof.
  intros H. unfold capture_of, list_remove.
  destruct (remove_first_in p _ H) as [rest ->]. cbn. eauto.
Qed.

Lemma legal_loop_filter (color : Z) (points acc : list Z) (st : state) :
  (forall p, In p points -> In p (get_empty_points (the_board st))) ->
  exists st',
    legal_loop color points acc st
    = (Ok (acc ++ List.filter (keeps (the_board st) color) points), st') /\
    only_probed st st'.
Proof.
  revert acc st. induction points as [|p points IH]; intros acc st Hin.
  - cbn. run. rewrite app_nil_r. eexists. split; [reflexivity | apply only_probed_refl].
  - cbn [legal_loop List.filter]. run. unfold keeps at 1.
    destruct (is_legal (the_board st) (Some p) color) eqn:Hlegal; cbn [andb].
    + rewrite capture_detection_eq.
      destruct (capture_of_empty_point (the_board st) p color) as [r Hr];
        [apply Hin; now left|].
      rewrite Hr.
      destruct (IH (if negb r then acc ++ [p] else acc)
                   (log_play monitor_board (Some p) color st)) as (st' & Hrun & Hst').
      { intros q Hq. cbn. apply Hin. now right. }
      cbn [the_board log_play] in Hrun.
      exists st'. split; [|eapply only_probed_log; exact Hst'].
      destruct r; cbn [negb] in *; rewrite Hrun; [reflexivity|].
      rewrite <- app_assoc. reflexivity.
    + destruct (IH acc st) as (st' & Hrun & Hst').
      { intros q Hq. apply Hin. now right. }
      exists st'. split; [exact Hrun | exact Hst'].
Qed.

Lemma legal_move_helper_filter (st : state) :
  let b := the_board st in
  exists st',
    legal_move_helper st
    = (Ok (List.filter (keeps b (current_player b)) (get_empty_points b)), st') /\
    only_probed st st'.
Proof.
  intros b. unfold legal_move_helper. run.
  destruct (legal_loop_filter (current_player b) (get_empty_points b) [] st)
    as (st' & Hrun & Hst'); [auto|].
  exists st'. split; [exact Hrun | exact Hst'].
Qed.

Lemma keeps_spec (b : board) (color p : Z) (st : state) :
  the_board st = b ->
  keeps b color p = true <->
  is_legal b (Some p) color = true /\
  fst (capture_detection (Some p) color st) = Ok false.
Proof.
  intros <-. rewrite capture_detection_eq. cbn [fst]. unfold keeps.
  destruct (is_legal _ _ _); cbn [andb].
  - destruct (capture_of _ _ _) as [[|]|e];
      (split; [intros H; try discriminate H; auto
              | intros [H1 H2]; try discriminate H2; auto]).
  - split; [discriminate | intros [H _]; discriminate H].
Qed.

(** *** Formatting and sorting the legal moves *)

Lemma format_point_nonempty (c : coord) (s : string) :
  format_point c = Ok s -> s <> EmptyString.
Proof.
  unfold format_point. destruct (negb (MAXSIZE <=? 25)); [discriminate|].
  destruct c as [| |row col]; try discriminate.
  - intros [= <-]. discriminate.
  - destruct (negb _ || negb _); [discriminate|].
    destruct (index column_letters (col - 1)); [|discriminate].
    intros [= <-]. discriminate.
Qed.

Lemma format_all_nonempty (size : Z) (l : list Z) (fl : list string) :
  format_all size l = Ok fl -> Forall (fun x => x <> EmptyString) fl.
Proof.
  revert fl. induction l as [|p l IH]; cbn [format_all]; intros fl.
  - intros [= <-]. constructor.
  - destruct (point_to_coord (Some p) size) as [c|e]; cbn [pure_bind]; [|discriminate].
    destruct (format_point c) as [s|e] eqn:Es; cbn [pure_bind]; [|discriminate].
    destruct (format_all size l) as [r|e]; cbn [pure_bind]; [|discriminate].
    intros [= <-]. constructor; [eapply format_point_nonempty; eassumption | now apply IH].
Qed.

Lemma first_chars_keyed (l : list string) :
  Forall (fun x => x <> EmptyString) l -> first_chars l = Ok (map keyed l).
Proof.
  induction 1 as [|x l Hx Hl IH]; cbn; [reflexivity|].
  unfold keyed at 1, first_key. destruct x as [|c x]; [congruence|].
  rewrite CodecProps.index_0_cons, IH. reflexivity.
Qed.

Lemma insert_by_perm {A} (k : Z) (x : A) (l : list (Z * A)) :
  Permutation ((k, x) :: l) (insert_by k x l).
Proof.
  induction l as [|[k' y] l IH]; cbn; [reflexivity|].
  destruct (k <=? k'); [reflexivity|].
  rewrite perm_swap. now apply perm_skip.
Qed.

Lemma sort_keyed_perm {A} (l : list (Z * A)) : Permutation l (sort_keyed l).
Proof.
  induction l as [|[k x] l IH]; cbn; [reflexivity|].
  rewrite <- insert_by_perm. now apply perm_skip.
Qed.

Lemma insert_by_sorted {A} (k : Z) (x : A) (l : list (Z * A)) :
  StronglySorted key_le l -> StronglySorted key_le (insert_by k x l).
Proof.
  induction 1 as [|[k' y] l Hs IH Hk]; cbn.
  - constructor; constructor.
  - destruct (k <=? k') eqn:E.
    + apply Z.leb_le in E. constructor; [constructor; assumption|].
      constructor; [exact E|]. rewrite List.Forall_forall in *.
      intros z Hz. specialize (Hk z Hz). unfold key_le in *. cbn in *. lia.
    + apply Z.leb_gt in E. constructor; [exact IH|].
      rewrite List.Forall_forall in *. intros z Hz.
      apply (Permutation_in _ (Permutation_sym (insert_by_perm k x l))) in Hz.
      destruct Hz as [<-|Hz]; [unfold key_le; cbn; lia | now apply Hk].
Qed.

Lemma sort_keyed_sorted {A} (l : list (Z * A)) : StronglySorted key_le (sort_keyed l).
Proof.
  induction l as [|[k x] l IH]; cbn; [constructor | now apply insert_by_sorted].
Qed.

(** Elements with the same key keep their order. *)
Lemma insert_by_stable {A} (k k0 : Z) (x : A) (l : list (Z * A)) :
  List.filter (fun a => fst a =? k0) (insert_by k x l)
  = List.filter (fun a => fst a =? k0) ((k, x) :: l).
Proof.
  induction l as [|[k' y] l IH]; [reflexivity|].
  cbn [insert_by]. destruct (k <=? k') eqn:E; [reflexivity|].
  apply Z.leb_gt in E. cbn [List.filter fst] in *. rewrite IH.
  destruct (k =? k0) eqn:E1; destruct (k' =? k0) eqn:E2; try reflexivity.
  apply Z.eqb_eq in E1, E2. lia.
Qed.

Lemma sort_keyed_stable {A} (k0 : Z) (l : list (Z * A)) :
  List.filter (fun a => fst a =? k0) (sort_keyed l)
  = List.filter (fun a => fst a =? k0) l.
Proof.
  induction l as [|[k x] l IH]; [reflexivity|].
  cbn [sort_keyed fold_right fst snd]. rewrite insert_by_stable.
  cbn [List.filter fst]. fold (sort_keyed l). rewrite IH. reflexivity.
Qed.

Lemma keyed_again (l : list (Z * string)) :
  Forall (fun a => fst a = first_key (snd a)) l -> l = map keyed (map snd l).
Proof.
  induction 1 as [|[k x] l Hx Hl IH]; cbn; [reflexivity|].
  cbn in Hx. subst k. unfold keyed at 1. now rewrite <- IH.
Qed.

Lemma sorted_map_keyed (l : list string) :
  StronglySorted key_le (map keyed l) ->
  StronglySorted (fun x y => first_key x <= first_key y) l.
Proof.
  induction l as [|x l IH]; cbn; intros H; [constructor|].
  inversion H as [|? ? Hs Hk]; subst. constructor; [now apply IH|].
  rewrite List.Forall_forall in *. intros y Hy.
  apply (Hk (keyed y)). now apply in_map.
Qed.

Lemma filter_map_keyed (k0 : Z) (l : list string) :
  List.filter (fun a => fst a =? k0) (map keyed l)
  = map keyed (List.filter (fun x => first_key x =? k0) l).
Proof.
  induction l as [|x l IH]; cbn; [reflexivity|].
  rewrite IH. destruct (first_key x =? k0); reflexivity.
Qed.

Lemma map_keyed_inj (l1 l2 : list string) : map keyed l1 = map keyed l2 -> l1 = l2.
Proof.
  intros H. apply (f_equal (map snd)) in H.
  rewrite !map_map in H. cbn in H. now rewrite !map_id in H.
Qed.

Lemma sort_by_first_char_spec (fl : list string) :
  Forall (fun x => x <> EmptyString) fl ->
  exists strs,
    sort_by_first_char fl = Ok strs /\
    Permutation fl strs /\
    StronglySorted (fun x y => first_key x <= first_key y) strs /\
    forall k, List.filter (fun x => first_key x =? k) strs
              = List.filter (fun x => first_key x =? k) fl.
Proof.
  intros Hne. unfold sort_by_first_char. rewrite first_chars_keyed by exact Hne. cbn.
  set (sorted := sort_keyed (map keyed fl)).
  assert (Hperm : Permutation (map keyed fl) sorted) by apply sort_keyed_perm.
  assert (Hkeyed : sorted = map keyed (map snd sorted)).
  { apply keyed_again. rewrite List.Forall_forall. intros a Ha.
    apply (Permutation_in _ (Permutation_sym Hperm)) in Ha.
    apply in_map_iff in Ha as (x & <- & _). reflexivity. }
  exists (map snd sorted). split; [reflexivity|]. split; [|split].
  - apply (Permutation_map snd) in Hperm.
    rewrite map_map in Hperm. cbn in Hperm. now rewrite map_id in Hperm.
  - apply sorted_map_keyed. rewrite <- Hkeyed. apply sort_keyed_sorted.
  - intros k. apply map_keyed_inj. rewrite <- !filter_map_keyed, <- Hkeyed.
    apply sort_keyed_stable.
Qed.

(** C4.  [legal_move_helper] returns, and so does the loop of
    [gogui_rules_legal_moves_cmd]; every point of the list is one of
    the empty points of the board, is legal for the side to move
    according to the board, and is one for which [capture_detection]
    returns [False]; the list has every such point.  The command
    formats that list, so its own list has the same points. *)
Theorem legal_moves_are_empty_legal_capture_free (st : state) :
  let b := the_board st in
  let color := current_player b in
  exists (l : list Z) (st1 : state),
    legal_move_helper st = (Ok l, st1) /\
    only_probed st st1 /\
    (forall p, In p l <->
               In p (get_empty_points b) /\
               is_legal b (Some p) color = true /\
               fst (capture_detection (Some p) color st) = Ok false) /\
    (forall args strs st2,
        gogui_rules_legal_moves_cmd args st = (Ok strs, st2) ->
        exists fl, format_all (board_size b) l = Ok fl /\ Permutation fl strs).
Proof.
  intros b color.
  destruct (legal_move_helper_filter st) as (st1 & Hrun & Hst1). fold b color in Hrun.
  exists (List.filter (keeps b color) (get_empty_points b)), st1.
  split; [exact Hrun|]. split; [exact Hst1|]. split.
  - intros p. rewrite filter_In, (keeps_spec b color p st eq_refl). tauto.
  - intros args strs st2. unfold gogui_rules_legal_moves_cmd. run.
    unfold legal_move_helper in Hrun. revert Hrun. run. fold b color.
    intros ->. destruct Hst1 as (-> & _). fold b.
    destruct (format_all (board_size b) _) as [fl|e] eqn:Efl; [|discriminate].
    destruct (sort_by_first_char_spec fl (format_all_nonempty _ _ _ Efl))
      as (strs' & -> & Hperm & _).
    intros [= <- _]. eauto.
Qed.

(** [gogui_rules_legal_moves_cmd] formats the points of
    [legal_move_helper]; when a point cannot be formatted it raises
    and answers nothing; otherwise it answers the formatted
    coordinates in the order of [sort_by_first_char]. *)
Lemma legal_moves_cmd_run (args : list string) (st : state) :
  let b := the_board st in
  exists (l : list Z) (st1 : state),
    legal_move_helper st = (Ok l, st1) /\
    match format_all (board_size b) l with
    | Raise e => gogui_rules_legal_moves_cmd args st = (Raise e, st1)
    | Ok fl =>
        exists strs,
          gogui_rules_legal_moves_cmd args st
          = (Ok strs, answered (join " " strs) st1) /\
          Permutation fl strs /\
          StronglySorted (fun x y => first_key x <= first_key y) strs /\
          forall k, List.filter (fun x => first_key x =? k) strs
                    = List.filter (fun x => first_key x =? k) fl
    end.
Proof.
  intros b.
  destruct (legal_move_helper_filter st) as (st1 & Hrun & Hst1). fold b in Hrun.
  eexists _, st1. split; [exact Hrun|].
  unfold gogui_rules_legal_moves_cmd. run.
  unfold legal_move_helper in Hrun. revert Hrun. run. fold b. intros ->.
  destruct Hst1 as (-> & _). fold b.
  destruct (format_all (board_size b) _) as [fl|e] eqn:Efl; [|reflexivity].
  destruct (sort_by_first_char_spec fl (format_all_nonempty _ _ _ Efl))
    as (strs & -> & Hperm & Hsorted & Hstable).
  exists strs. repeat split; assumption.
Qed.

(** [sep.join(l)] puts [sep] between the texts. *)
Lemma join_concat (sep : string) (l : list string) : join sep l = String.concat sep l.
Proof.
  induction l as [|x l IH]; [reflexivity|].
  destruct l as [|y l]; [reflexivity|].
  change (x +:+ sep +:+ join sep (y :: l) = x +:+ sep +:+ String.concat sep (y :: l)).
  rewrite IH. reflexivity.
Qed.

(** The letter [format_point] takes from its table for a column of the
    board. *)
Lemma column_letter_of_table (col : Z) :
  1 <= col < MAXSIZE ->
  index column_letters (col - 1) = Some (letter_of_column col).
Proof.
  apply (RoundTrip.below
           (fun col => index column_letters (col - 1) = Some (letter_of_column col)) 1 24).
  intros k Hk. do 24 (destruct k as [|k]; [vm_compute; reflexivity|]). lia.
Qed.

Lemma format_point_text (size p : Z) :
  size <> -1 ->
  0 <= p / (size + 1) < MAXSIZE -> 1 <= p mod (size + 1) < MAXSIZE ->
  (let+ c := point_to_coord (Some p) size in format_point c) = Ok (point_text size p).
Proof.
  intros Hsize Hrow Hcol. unfold point_to_coord.
  replace (size + 1 =? 0) with false by (symmetry; apply Z.eqb_neq; lia).
  cbn [pure_bind]. unfold format_point, point_text.
  replace (negb (MAXSIZE <=? 25)) with false by reflexivity.
  replace ((0 <=? p / (size + 1)) && (p / (size + 1) <? MAXSIZE)) with true
    by (symmetry; apply andb_true_intro; split; [apply Z.leb_le | apply Z.ltb_lt]; lia).
  replace ((0 <=? p mod (size + 1)) && (p mod (size + 1) <? MAXSIZE)) with true
    by (symmetry; apply andb_true_intro; split; [apply Z.leb_le | apply Z.ltb_lt]; lia).
  cbn [negb orb]. rewrite (column_letter_of_table _ Hcol). reflexivity.
Qed.

Lemma format_all_texts (size : Z) (l : list Z) :
  size <> -1 ->
  (forall p, In p l ->
             0 <= p / (size + 1) < MAXSIZE /\ 1 <= p mod (size + 1) < MAXSIZE) ->
  format_all size l = Ok (map (point_text size) l).
Proof.
  intros Hsize. induction l as [|p l IH]; intros Hon; [reflexivity|].
  cbn [format_all map].
  destruct (Hon p (or_introl eq_refl)) as [Hrow Hcol].
  pose proof (format_point_text size p Hsize Hrow Hcol) as Htext.
  destruct (point_to_coord (Some p) size) as [c|e]; [|discriminate Htext].
  cbn [pure_bind] in Htext |- *. rewrite Htext. cbn [pure_bind].
  rewrite IH by (intros q Hq; apply Hon; right; exact Hq). reflexivity.
Qed.

Lemma listed_point_keeps (st : state) (p : Z) :
  listed_point st p = keeps (the_board st) (current_player (the_board st)) p.
Proof. unfold listed_point, keeps. rewrite capture_detection_eq. reflexivity. Qed.

(** C5.  The points that [gogui_rules_legal_moves_cmd] lists are the
    empty points of the board, in the order in which the board
    enumerates them, that are legal for the side to move and for which
    [capture_detection] returns [False].  Where each of them has a
    text (its row and its column in the array are below [MAXSIZE], the
    column not being the border column), the command answers, in one
    success frame, these texts separated by single spaces, in the
    order that sorts them by the code of their first character only:
    texts with the same first character stay in the order of the
    enumeration. *)
Theorem legal_moves_sorted_by_first_char (args : list string) (st : state) :
  let b := the_board st in
  let size := board_size b in
  let listed := List.filter (listed_point st) (get_empty_points b) in
  let texts := map (point_text size) listed in
  size <> -1 ->
  (forall p, In p listed ->
             0 <= p / (size + 1) < MAXSIZE /\ 1 <= p mod (size + 1) < MAXSIZE) ->
  exists strs st',
    gogui_rules_legal_moves_cmd args st = (Ok strs, st') /\
    stdout st' = stdout st ++ [ success_frame (String.concat " " strs) ] /\
    the_board st' = the_board st /\
    Permutation texts strs /\
    StronglySorted (fun x y => first_key x <= first_key y) strs /\
    (forall k, List.filter (fun x => first_key x =? k) strs
               = List.filter (fun x => first_key x =? k) texts).
Proof.
  intros b size listed texts Hsize Hon.
  assert (Hlisted : listed = List.filter (keeps b (current_player b)) (get_empty_points b)).
  { unfold listed. apply List.filter_ext. intros p. apply listed_point_keeps. }
  destruct (legal_moves_cmd_run args st) as (l & st1 & Hhelper & Hrun).
  destruct (legal_move_helper_filter st) as (st1' & Hhelper' & Hprobed).
  rewrite Hhelper in Hhelper'. injection Hhelper' as Hl Hst1. subst st1'.
  fold b in Hl. rewrite <- Hlisted in Hl. subst l. fold b size in Hrun.
  rewrite (format_all_texts size listed Hsize Hon) in Hrun. fold texts in Hrun.
  destruct Hrun as (strs & Hrun & Hperm & Hsorted & Hstable).
  exists strs, (answered (join " " strs) st1). split; [exact Hrun|].
  destruct Hprobed as (Hboard & _ & _ & Hout & _).
  split; [|split; [exact Hboard|]].
  - cbn [answered write_stdout stdout]. rewrite Hout, join_concat. reflexivity.
  - repeat split; assumption.
Qed.

(** *** [play] *)

Lemma arg_exn (args : list string) (i : nat) (e : exn) :
  arg args i = Raise e -> is_Exception e = true.
Proof. unfold arg. destruct (nth_error args i); [discriminate|]. now intros [= <-]. Qed.

Lemma color_to_int_exn (c : string) (e : exn) :
  color_to_int c = Raise e -> is_Exception e = true.
Proof.
  unfold color_to_int.
  repeat match goal with |- context [String.eqb ?a ?b] => destruct (String.eqb a b) end;
    try discriminate.
  now intros [= <-].
Qed.

Lemma coordinate_checker_exn (a0 a1 : string) (e : exn) :
  coordinate_checker a0 a1 = Raise e -> is_Exception e = true.
Proof.
  unfold coordinate_checker.
  destruct (index a1 0); [|now intros [= <-]].
  destruct (index a1 1); [|now intros [= <-]].
  destruct (negb _); discriminate.
Qed.

Lemma move_to_coord_exn (s : string) (size : Z) (e : exn) :
  move_to_coord s size = Raise e -> is_Exception e = true.
Proof.
  unfold move_to_coord. destruct (negb _); [now intros [= <-]|].
  destruct (String.eqb _ _); [discriminate|].
  destruct (parse_col_row _) as [[[r c]|]|]; try discriminate.
  destruct (negb _); discriminate.
Qed.

Lemma capture_of_exn (b : board) (p : point) (color : Z) (e : exn) :
  capture_of b p color = Raise e -> is_Exception e = true.
Proof.
  unfold capture_of, list_remove. destruct p as [x|]; [|now intros [= <-]].
  destruct (remove_first x _); [discriminate | now intros [= <-]].
Qed.

Lemma stdout_moved (a1 : string) (move color : Z) (st : state) :
  stdout (moved a1 move color st) = stdout st.
Proof.
  unfold moved. destruct (play_move _ _ _) as [b' applied].
  destruct applied; [reflexivity|]. destruct (debug_mode _); reflexivity.
Qed.

Lemma board_play_move_moved (a1 : string) (move color : Z) (st : state) :
  (let* applied := board_play_move (Some move) color in
   (if negb applied then
      let* txt := board2d in
      debug_msg ("Move: " +:+ a1 +:+ nl +:+ "Board:" +:+ nl +:+ txt +:+ nl)
    else ret tt) >>
   respond EmptyString) st
  = (Ok tt, answered EmptyString (moved a1 move color st)).
Proof.
  unfold board_play_move, moved, board2d, debug_msg, respond, answered. run.
  destruct (play_move (the_board st) (Some move) color) as [b' applied]. run.
  destruct applied; cbn; [reflexivity|].
  destruct (debug_mode st); reflexivity.
Qed.

(** The body of [play], stage by stage, on two tokens of which the
    first names a colour. *)
Lemma play_body_stages (args : list string) (a0 a1 : string) (color : Z) (st : state) :
  arg args 0 = Ok a0 -> arg args 1 = Ok a1 ->
  color_to_int (lower a0) = Ok color ->
  let b := the_board st in
  let size := board_size b in
  play_body args st =
  if negb (color =? current_player b)
  then (Ok tt, answered (illegal_move a0 a1 "wrong color") st)
  else
    match coordinate_checker a0 a1 with
    | Raise e => (Raise e, st)
    | Ok false => (Ok tt, answered (illegal_move a0 a1 "wrong coordinate") st)
    | Ok true =>
        match move_to_coord a1 size with
        | Raise e => (Raise e, st)
        | Ok (CPair row col) =>
            let move := coord_to_point row col size in
            if negb (get_color b move =? 0)
            then (Ok tt, answered (illegal_move a0 a1 "occupied") st)
            else if check_suicide b move color
            then (Ok tt, answered (illegal_move a0 a1 "suicide") st)
            else
              let st1 := log_play monitor_board (Some move) (current_player b) st in
              match capture_of b (Some move) (current_player b) with
              | Raise e => (Raise e, st1)
              | Ok true => (Ok tt, answered (illegal_move a0 a1 "capture") st1)
              | Ok false => (Ok tt, answered EmptyString (moved a1 move color st1))
              end
        | Ok _ => (Ok tt, answered (illegal_move a0 a1 "wrong coordinate") st)
        end
    end.
Proof.
  intros Ha0 Ha1 Hcolor b size. subst b size. unfold play_body. run.
  rewrite Ha0, Ha1, Hcolor. unfold color_checker. run.
  destruct (negb (color =? current_player (the_board st))); cbn [negb]; [reflexivity|].
  destruct (coordinate_checker a0 a1) as [[|]|e]; cbn [negb]; try reflexivity.
  destruct (move_to_coord a1 (board_size (the_board st))) as [[| |row col]|e];
    try reflexivity.
  unfold occupied_checker. run. cbv zeta.
  set (move := coord_to_point row col (board_size (the_board st))).
  destruct (negb (get_color (the_board st) move =? 0)); cbn [negb]; [reflexivity|].
  destruct (check_suicide (the_board st) move color); [reflexivity|].
  rewrite capture_detection_eq.
  destruct (capture_of (the_board st) (Some move) (current_player (the_board st)))
    as [[|]|e]; try reflexivity.
  apply board_play_move_moved.
Qed.

Lemma index_1_cons (c1 c2 : ascii) (s : string) :
  index (String c1 (String c2 s)) 1 = Some c2.
Proof.
  unfold index, len. cbn [String.length].
  replace (1 <? 0) with false by reflexivity.
  replace (0 <=? 1) with true by reflexivity.
  replace (1 <? Z.of_nat (S (S (String.length s)))) with true
    by (symmetry; apply Z.ltb_lt; lia).
  reflexivity.
Qed.

Lemma coordinate_checker_eq (a0 a1 : string) (c : ascii) :
  index a1 1 = Some c -> coordinate_checker a0 a1 = Ok (isdigit c).
Proof.
  intros H. unfold coordinate_checker.
  destruct a1 as [|c1 [|c2 s]]; try discriminate H.
  rewrite CodecProps.index_0_cons, H. destruct (isdigit c); reflexivity.
Qed.

(** [play] never reads the pass text as a move: its second character
    is not a digit. *)
Lemma no_pass_after_syntax (a1 : string) (size : Z) (c : ascii) :
  index a1 1 = Some c -> isdigit c = true -> move_to_coord a1 size <> Ok CPass.
Proof.
  intros Hc Hdigit Hpass. unfold move_to_coord in Hpass.
  destruct (negb _); [discriminate Hpass|].
  destruct (String.eqb (lower a1) "pass") eqn:E.
  - apply String.eqb_eq in E.
    destruct a1 as [|c1 [|c2 s]]; try discriminate E.
    rewrite index_1_cons in Hc. injection Hc as ->.
    cbn [lower] in E. injection E as _ E _. revert E Hdigit. clear.
    each_char c; intros E Hd; try discriminate E; discriminate Hd.
  - destruct (parse_col_row _) as [[[r col]|]|]; try discriminate Hpass.
    destruct (negb _); discriminate Hpass.
Qed.

Lemma try_play_ok (args : list string) (st st' : state) :
  play_body args st = (Ok tt, st') -> play_cmd args st = (Ok tt, st').
Proof. intros H. unfold play_cmd, try_except. rewrite H. reflexivity. Qed.

Lemma try_play_raise (args : list string) (st st' : state) (e : exn) :
  play_body args st = (Raise e, st') -> is_Exception e = true ->
  play_cmd args st = (Ok tt, answered ("Error: " +:+ str_exn e) st').
Proof. intros H He. unfold play_cmd, try_except. rewrite H, He. reflexivity. Qed.

Lemma play_body_no_arg (args : list string) (st : state) (e : exn) :
  arg args 0 = Raise e \/ (exists a0, arg args 0 = Ok a0 /\ arg args 1 = Raise e) ->
  play_body args st = (Raise e, st).
Proof.
  unfold play_body. run. intros [-> | (a0 & -> & ->)]; reflexivity.
Qed.

Lemma play_body_no_color (args : list string) (a0 a1 : string) (st : state) (e : exn) :
  arg args 0 = Ok a0 -> arg args 1 = Ok a1 -> color_to_int (lower a0) = Raise e ->
  play_body args st = (Raise e, st).
Proof. unfold play_body. run. intros -> -> ->. reflexivity. Qed.

Lemma result_cases {A} (r : result A) :
  (exists a, r = Ok a) \/ (exists e, r = Raise e).
Proof. destruct r; eauto. Qed.

(** Every run of [play_cmd] ends with one success response. *)
Lemma play_cmd_answers (args : list string) (st : state) :
  exists payload st1,
    play_cmd args st = (Ok tt, answered payload st1) /\
    stdout st1 = stdout st /\
    (payload = EmptyString \/
     (exists e, payload = "Error: " +:+ str_exn e) \/
     (exists a0 a1 reason,
         arg args 0 = Ok a0 /\ arg args 1 = Ok a1 /\ In reason reasons /\
         payload = illegal_move a0 a1 reason)).
Proof.
  destruct (result_cases (arg args 0)) as [[a0 Ha0]|[e Ha0]].
  2:{ exists ("Error: " +:+ str_exn e), st. split; [|split; [reflexivity | eauto]].
      apply try_play_raise; [apply play_body_no_arg; auto | eapply arg_exn; eauto]. }
  destruct (result_cases (arg args 1)) as [[a1 Ha1]|[e Ha1]].
  2:{ exists ("Error: " +:+ str_exn e), st. split; [|split; [reflexivity | eauto]].
      apply try_play_raise; [apply play_body_no_arg; eauto | eapply arg_exn; eauto]. }
  destruct (result_cases (color_to_int (lower a0))) as [[color Hcolor]|[e Hcolor]].
  2:{ exists ("Error: " +:+ str_exn e), st. split; [|split; [reflexivity | eauto]].
      apply try_play_raise; [eapply play_body_no_color; eauto
                            | eapply color_to_int_exn; eauto]. }
  pose proof (play_body_stages args a0 a1 color st Ha0 Ha1 Hcolor) as Hrun.
  cbv zeta in Hrun.
  assert (Hill : forall reason st1,
             In reason reasons -> stdout st1 = stdout st ->
             play_body args st = (Ok tt, answered (illegal_move a0 a1 reason) st1) ->
             exists payload st1,
               play_cmd args st = (Ok tt, answered payload st1) /\
               stdout st1 = stdout st /\
               (payload = EmptyString \/
                (exists e, payload = "Error: " +:+ str_exn e) \/
                (exists a0 a1 reason,
                    arg args 0 = Ok a0 /\ arg args 1 = Ok a1 /\ In reason reasons /\
                    payload = illegal_move a0 a1 reason))).
  { intros reason st1 Hin Hout Hbody. exists (illegal_move a0 a1 reason), st1.
    split; [now apply try_play_ok|]. split; [exact Hout|].
    right; right. exists a0, a1, reason. auto. }
  assert (Herr : forall e st1,
             is_Exception e = true -> stdout st1 = stdout st ->
             play_body args st = (Raise e, st1) ->
             exists payload st1,
               play_cmd args st = (Ok tt, answered payload st1) /\
               stdout st1 = stdout st /\
               (payload = EmptyString \/
                (exists e, payload = "Error: " +:+ str_exn e) \/
                (exists a0 a1 reason,
                    arg args 0 = Ok a0 /\ arg args 1 = Ok a1 /\ In reason reasons /\
                    payload = illegal_move a0 a1 reason))).
  { intros e st1 He Hout Hbody. exists ("Error: " +:+ str_exn e), st1.
    split; [now apply try_play_raise|]. split; [exact Hout | eauto]. }
  destruct (negb (color =? _)).
  { apply (Hill "wrong color"%string st); [cbn; tauto | reflexivity | exact Hrun]. }
  destruct (coordinate_checker a0 a1) as [[|]|e] eqn:Hsyntax.
  3:{ apply (Herr e st); [eapply coordinate_checker_exn; eauto | reflexivity | exact Hrun]. }
  2:{ apply (Hill "wrong coordinate"%string st); [cbn; tauto | reflexivity | exact Hrun]. }
  destruct (move_to_coord a1 _) as [[| |row col]|e] eqn:Hdecode.
  4:{ apply (Herr e st); [eapply move_to_coord_exn; eauto | reflexivity | exact Hrun]. }
  1,2: apply (Hill "wrong coordinate"%string st); [cbn; tauto | reflexivity | exact Hrun].
  destruct (negb (get_color _ _ =? 0)).
  { apply (Hill "occupied"%string st); [cbn; tauto | reflexivity | exact Hrun]. }
  destruct (check_suicide _ _ _).
  { apply (Hill "suicide"%string st); [cbn; tauto | reflexivity | exact Hrun]. }
  destruct (capture_of _ _ _) as [[|]|e] eqn:Hcap.
  - eapply (Hill "capture"%string); [cbn; tauto | | exact Hrun]. reflexivity.
  - eexists EmptyString, _. split; [apply try_play_ok; exact Hrun|].
    split; [|now left]. rewrite stdout_moved. reflexivity.
  - eapply Herr; [eapply capture_of_exn; eauto | | exact Hrun]. reflexivity.
Qed.

(** C10.  Whatever its arguments, [play_cmd] returns and writes one
    chunk to the output: the success frame around either one of the
    five illegal-move messages for its two tokens, or the text Error
    followed by the message of the exception raised in its body, or
    nothing; that chunk is no error frame. *)
Theorem play_cmd_always_success_frame (args : list string) (st : state) :
  exists payload st',
    play_cmd args st = (Ok tt, st') /\
    stdout st' = stdout st ++ [success_frame payload] /\
    (payload = EmptyString \/
     (exists e, payload = "Error: " +:+ str_exn e) \/
     (exists a0 a1 reason,
         arg args 0 = Ok a0 /\ arg args 1 = Ok a1 /\ In reason reasons /\
         payload = illegal_move a0 a1 reason)) /\
    (forall message, success_frame payload <> error_frame message).
Proof.
  destruct (play_cmd_answers args st) as (payload & st1 & Hrun & Hout & Hkind).
  exists payload, (answered payload st1). split; [exact Hrun|].
  split; [cbn; now rewrite Hout|]. split; [exact Hkind|].
  intros message. unfold success_frame, error_frame. discriminate.
Qed.

(** The message [play_cmd] composes is the one the specification
    words. *)
Lemma illegal_move_message_eq (a0 a1 reason : string) :
  illegal_move a0 a1 reason = illegal_move_message a0 a1 reason.
Proof. reflexivity. Qed.

(** C7.  When the colour token names a colour that is not the side to
    move, [play_cmd] answers the wrong-color message, the words
    [illegal move:], the two tokens in double quotes and [wrong color]
    in a success frame, and nothing in the session changes but the
    output: the board is the same, and no [play_move] call was
    made. *)
Theorem play_wrong_color_leaves_board (a0 a1 : string) (color : Z) (st : state) :
  color_to_int (lower a0) = Ok color ->
  color <> current_player (the_board st) ->
  play_cmd [a0; a1] st
  = (Ok tt, answered (illegal_move_message a0 a1 "wrong color") st) /\
  stdout (answered (illegal_move_message a0 a1 "wrong color") st)
  = stdout st ++ [ success_frame (illegal_move_message a0 a1 "wrong color") ] /\
  the_board (answered (illegal_move_message a0 a1 "wrong color") st) = the_board st /\
  played (answered (illegal_move_message a0 a1 "wrong color") st) = played st.
Proof.
  intros Hcolor Hne. split; [|split; [reflexivity | split; reflexivity]].
  apply try_play_ok.
  rewrite (play_body_stages [a0; a1] a0 a1 color st eq_refl eq_refl Hcolor).
  cbv zeta. apply Z.eqb_neq in Hne. rewrite Hne.
  cbn [negb]. rewrite illegal_move_message_eq. reflexivity.
Qed.

Lemma self_plays_probe (p : point) (color : Z) (st : state) :
  self_plays (log_play monitor_board p color st) = self_plays st.
Proof.
  unfold self_plays. cbn [played log_play]. rewrite List.filter_app. cbn.
  apply app_nil_r.
Qed.

(** Only the last stage calls [play_move] on the board of the session,
    and only it changes the board. *)
Lemma play_outcome_self_plays (st : state) (a0 a1 : string) (color : Z) (st' : state) :
  play_outcome st a0 a1 color st' ->
  self_plays st' <> self_plays st -> all_stages_pass st a1 color.
Proof.
  intros Hout Hplays. destruct Hout;
    try (exfalso; apply Hplays; reflexivity);
    try (exfalso; apply Hplays; apply self_plays_probe).
  unfold all_stages_pass. eauto 12.
Qed.

Lemma play_outcome_board (st : state) (a0 a1 : string) (color : Z) (st' : state) :
  play_outcome st a0 a1 color st' ->
  ~ all_stages_pass st a1 color -> the_board st' = the_board st.
Proof.
  intros Hout Hnot. destruct Hout; try reflexivity.
  exfalso. apply Hnot. unfold all_stages_pass. eauto 12.
Qed.

(** X21.  For a colour token that is b, w or e in either case,
    a move token of two characters or more and a board whose size is
    within 2..MAXSIZE, [play_cmd] applies the six stages in order:
    wrong color, second character not a digit, text not decoded,
    point not empty, suicide, capture.  The first stage that fails
    answers its illegal-move message and the board is not touched;
    [play_move] is called on the board of the session only when all
    six pass.  (The board lists among its empty points the point it
    reports as empty.) *)
Theorem play_cmd_stages (a0 a1 : string) (color : Z) (st : state) :
  let b := the_board st in
  color_to_int (lower a0) = Ok color ->
  index a1 1 <> None ->
  2 <= board_size b <= MAXSIZE ->
  (forall row col,
      move_to_coord a1 (board_size b) = Ok (CPair row col) ->
      get_color b (coord_to_point row col (board_size b)) = 0 ->
      In (coord_to_point row col (board_size b)) (get_empty_points b)) ->
  exists st',
    play_cmd [a0; a1] st = (Ok tt, st') /\
    play_outcome st a0 a1 color st' /\
    (self_plays st' <> self_plays st -> all_stages_pass st a1 color) /\
    (~ all_stages_pass st a1 color -> the_board st' = the_board st).
Proof.
  intros b Hcolor Hlen Hsize Hempty. subst b.
  cut (exists st', play_cmd [a0; a1] st = (Ok tt, st') /\ play_outcome st a0 a1 color st').
  { intros (st' & Hrun & Hout). exists st'.
    split; [exact Hrun|]. split; [exact Hout|]. split.
    - now apply (play_outcome_self_plays st a0 a1 color st').
    - now apply (play_outcome_board st a0 a1 color st'). }
  pose proof (play_body_stages [a0; a1] a0 a1 color st eq_refl eq_refl Hcolor) as Hrun.
  cbv zeta in Hrun. rewrite !illegal_move_message_eq in Hrun.
  destruct (color =? current_player (the_board st)) eqn:Hmatch; cbn [negb] in Hrun.
  2:{ eexists. split; [apply try_play_ok; exact Hrun|].
      apply stage_wrong_color. now apply Z.eqb_neq. }
  apply Z.eqb_eq in Hmatch.
  destruct (index a1 1) as [c|] eqn:Hc; [clear Hlen | congruence].
  rewrite (coordinate_checker_eq a0 a1 c Hc) in Hrun.
  destruct (isdigit c) eqn:Hdigit.
  2:{ eexists. split; [apply try_play_ok; exact Hrun|].
      eapply stage_syntax; eassumption. }
  destruct (CodecProps.move_to_coord_returns a1 _ Hsize) as (coord & Hdecode).
  rewrite Hdecode in Hrun. destruct coord as [| |row col].
  { exfalso. eapply no_pass_after_syntax; eassumption. }
  { eexists. split; [apply try_play_ok; exact Hrun|].
    eapply stage_decode; eassumption. }
  destruct (get_color _ _ =? 0) eqn:Hocc; cbn [negb] in Hrun.
  2:{ eexists. split; [apply try_play_ok; exact Hrun|].
      eapply stage_occupied; try eassumption. now apply Z.eqb_neq. }
  apply Z.eqb_eq in Hocc.
  destruct (check_suicide _ _ _) eqn:Hsuicide.
  { eexists. split; [apply try_play_ok; exact Hrun|].
    eapply stage_suicide; eassumption. }
  destruct (capture_of_empty_point (the_board st) _ (current_player (the_board st))
              (Hempty row col Hdecode Hocc)) as [captures Hcap].
  rewrite Hcap in Hrun. rewrite <- Hmatch in Hrun, Hcap.
  destruct captures.
  - eexists. split; [apply try_play_ok; exact Hrun|].
    eapply stage_capture; try eassumption.
    rewrite capture_detection_eq. exact Hcap.
  - eexists. split; [apply try_play_ok; exact Hrun|].
    eapply stage_played; try eassumption.
    rewrite capture_detection_eq. exact Hcap.
Qed.

(** C1.  The second stage of [play] does not report a move token of
    one character.  When the colour token names the side to move,
    [coordinate_checker] reads the second character of the token
    unguarded and raises IndexError; [play_cmd] catches it and answers
    the text of the exception in a success frame, which is not the
    wrong-coordinate message of the stage.  [move_to_coord], which the
    next stage calls, turns the same token into its invalid result on
    every board size it accepts. *)
Theorem one_character_move_not_reported (a0 : string) (c : ascii) (color : Z) (st : state) :
  color_to_int (lower a0) = Ok color ->
  color = current_player (the_board st) ->
  play_cmd [a0; String c EmptyString] st
  = (Ok tt, answered "Error: string index out of range" st) /\
  "Error: string index out of range"%string
  <> illegal_move_message a0 (String c EmptyString) "wrong coordinate" /\
  (forall size, 2 <= size <= MAXSIZE ->
                move_to_coord (String c EmptyString) size = Ok CFalse).
Proof.
  intros Hcolor Hturn. split; [|split].
  - apply (try_play_raise _ st st (IndexError "string index out of range")); [|reflexivity].
    rewrite (play_body_stages [a0; String c EmptyString] a0 (String c EmptyString) color st
               eq_refl eq_refl Hcolor).
    cbv zeta. apply Z.eqb_eq in Hturn. rewrite Hturn. reflexivity.
  - unfold illegal_move_message. cbn [String.concat]. discriminate.
  - intros size Hsize. rewrite CodecProps.move_to_coord_in_range by exact Hsize.
    cbn [lower].
    destruct (String.eqb _ "pass") eqn:Hpass;
      [apply String.eqb_eq in Hpass; discriminate Hpass|].
    rewrite CodecProps.parse_col_row_cons.
    destruct (negb _ || _); reflexivity.
Qed.

(** *** The command loop *)

Lemma get_cmd_elements (command : string) (st : state) :
  get_cmd command st =
  match elements_of command with
  | [] => (Ok tt, st)
  | command_name :: args => dispatch command_name args st
  end.
Proof.
  unfold get_cmd, elements_of.
  destruct command as [|c0 command]; [reflexivity|].
  destruct (len _ =? 0); [reflexivity|].
  rewrite CodecProps.index_0_cons.
  destruct (ord c0 =? ord "#"); [reflexivity|].
  destruct (split _) as [|command_name args]; reflexivity.
Qed.

Lemma argmap_checked : argmap = list_to_map checked_arities.
Proof. reflexivity. Qed.

Lemma checked_names_nodup : NoDup (checked_arities.*1).
Proof.
  apply NoDup_ListNoDup. cbn.
  repeat (constructor; [cbn; intuition discriminate|]). constructor.
Qed.

Lemma argmap_lookup_in (cmd : string) (entry : Z * string) :
  In (cmd, entry) checked_arities <-> argmap !! cmd = Some entry.
Proof.
  rewrite argmap_checked, <- list_elem_of_In.
  apply elem_of_list_to_map. exact checked_names_nodup.
Qed.

Lemma has_arg_error_mismatch (cmd usage : string) (n argnum : Z) (st : state) :
  In (cmd, (n, usage)) checked_arities -> n <> argnum ->
  has_arg_error cmd argnum st = (Ok true, write_stdout (error_frame usage) st).
Proof.
  intros Hin Hne. unfold has_arg_error. apply argmap_lookup_in in Hin. rewrite Hin.
  apply Z.eqb_neq in Hne. rewrite Hne. reflexivity.
Qed.

Lemma has_arg_error_match (cmd : string) (argnum : Z) (st : state) :
  (forall n usage, In (cmd, (n, usage)) checked_arities -> n = argnum) ->
  has_arg_error cmd argnum st = (Ok false, st).
Proof.
  intros H. unfold has_arg_error.
  destruct (argmap !! cmd) as [[n usage]|] eqn:E; [|reflexivity].
  apply argmap_lookup_in in E. apply H in E. subst n.
  rewrite Z.eqb_refl. reflexivity.
Qed.

(** C6, amended.  The commands whose arguments are counted are
    boardsize, komi, known_command, genmove, play and legal_moves,
    which require 1, 1, 1, 1, 2 and 1 arguments.  On a line with
    another number of arguments for one of them [get_cmd] writes the
    error frame with the usage message of that command and does
    nothing else; every other line passes the check and goes on to
    the lookup of its command. *)
Theorem arity_checked_for_six_commands
        (command command_name : string) (args : list string) (st : state) :
  elements_of command = command_name :: args ->
  let argnum := Z.of_nat (length args) in
  (forall n usage,
      In (command_name, (n, usage)) checked_arities -> n <> argnum ->
      has_arg_error command_name argnum st
      = (Ok true, write_stdout (error_frame usage) st) /\
      get_cmd command st = (Ok tt, write_stdout (error_frame usage) st)) /\
  ((forall n usage, In (command_name, (n, usage)) checked_arities -> n = argnum) ->
   has_arg_error command_name argnum st = (Ok false, st) /\
   get_cmd command st = invoke command_name args st).
Proof.
  intros Helts argnum. split.
  - intros n usage Hin Hne.
    pose proof (has_arg_error_mismatch _ _ _ _ st Hin Hne) as Herr.
    split; [exact Herr|].
    rewrite get_cmd_elements, Helts. unfold dispatch. run. fold argnum.
    rewrite Herr. reflexivity.
  - intros Hall. pose proof (has_arg_error_match _ _ st Hall) as Hok.
    split; [exact Hok|].
    rewrite get_cmd_elements, Helts. unfold dispatch. run. fold argnum.
    rewrite Hok. reflexivity.
Qed.

Lemma stdout_logged (e : exn) (st : state) : stdout (logged e st) = stdout st.
Proof. unfold logged. destruct (debug_mode st); reflexivity. Qed.

Lemma elements_of_empty : elements_of EmptyString = [].
Proof. reflexivity. Qed.

(** C2, amended.  When the handler of a command in the table raises,
    [get_cmd] raises the same exception to its caller and writes no
    response, and the command loop stops there, raising it in turn; an
    exception of class Exception is first logged to the debug stream,
    message and stack trace, when debug mode is on and not at all when
    it is off; the exit raised by quit is not logged.  The handler of
    play does not raise: what is raised in its body is answered in a
    success frame. *)
Theorem handler_exception_logged_and_raised
        (command command_name : string) (args : list string)
        (handler : list string -> M state unit) (e : exn) (st st1 : state) :
  elements_of command = command_name :: args ->
  has_arg_error command_name (Z.of_nat (length args)) st = (Ok false, st) ->
  lookup_command command_name commands = Some handler ->
  handler args st = (Raise e, st1) ->
  get_cmd command st = (Raise e, if is_Exception e then logged e st1 else st1) /\
  (forall rest,
      start_connection (command :: rest) st
      = (Raise e, if is_Exception e then logged e st1 else st1)) /\
  stdout (logged e st1) = stdout st1 /\
  (debug_mode st1 = false -> logged e st1 = st1) /\
  (debug_mode st1 = true ->
   stderr (logged e st1)
   = stderr st1 ++ [ "Error executing command " +:+ str_exn e +:+ nl;
                     "Stack Trace:" +:+ nl +:+ format_exc e +:+ nl ]) /\
  (forall args' st', fst (play_cmd args' st') = Ok tt).
Proof.
  intros Helts Harity Hlookup Hraise.
  assert (Hget : get_cmd command st
                 = (Raise e, if is_Exception e then logged e st1 else st1)).
  { rewrite get_cmd_elements, Helts. unfold dispatch. run. rewrite Harity.
    unfold invoke. rewrite Hlookup. run. rewrite Hraise.
    destruct (is_Exception e); [|reflexivity].
    unfold logged, debug_msg. destruct (debug_mode st1) eqn:Hd; cbn; rewrite ?Hd;
      reflexivity. }
  split; [exact Hget|]. split; [|split; [|split; [|split]]].
  - intros rest. cbn [start_connection].
    destruct command as [|c0 command]; [rewrite elements_of_empty in Helts; discriminate|].
    replace (len (String c0 command) =? 0) with false
      by (symmetry; apply Z.eqb_neq; unfold len; cbn [String.length]; lia).
    run. rewrite Hget. reflexivity.
  - apply stdout_logged.
  - intros Hd. unfold logged. rewrite Hd. reflexivity.
  - intros Hd. unfold logged. rewrite Hd. cbn. rewrite <- app_assoc. reflexivity.
  - intros args' st'.
    destruct (play_cmd_answers args' st') as (payload & st2 & -> & _). reflexivity.
Qed.

End Props.
End SessionProps.

(** ** The session on the test board *)

Module OnTestBoard.
Import PyStr Codec Gtp Notions SessionNotions Tactics SessionProps.

#[local] Existing Instance TestBoard.collab.

(** The stages do not cover every pair of tokens: a move token of
    one character makes the second stage raise, and what [play_cmd]
    answers is none of the illegal-move messages, nor is the move
    played. *)
Lemma play_cmd_short_move_token :
  ~ (forall (st : state) (a0 a1 : string),
        exists color st',
          play_cmd [a0; a1] st = (Ok tt, st') /\ play_outcome st a0 a1 color st').
Proof.
  intros H.
  destruct (H (TestBoard.session 5 false) "b"%string "a"%string)
    as (color & st' & Hrun & Hout).
  apply (f_equal (fun r => stdout (snd r))) in Hrun. cbn [snd] in Hrun.
  inversion Hout; subst;
    try match goal with
        | Hc : index "a" 1 = Some _ |- _ => vm_compute in Hc; discriminate Hc
        end.
  vm_compute in Hrun. discriminate Hrun.
Qed.

Example short_token_session_output :
  stdout (TestBoard.after ["play b a"; "play x a1"]%string (TestBoard.session 5 false))
  = [ success_frame "Error: string index out of range";
      success_frame "Error: 'x'" ] /\
  played (TestBoard.after ["play b a"; "play x a1"]%string (TestBoard.session 5 false))
  = [].
Proof. split; vm_compute; reflexivity. Qed.

Lemma play_cmd_stages_witness :
  exists st',
    play_cmd ["b"; "a1"]%string (TestBoard.session 5 false) = (Ok tt, st') /\
    play_outcome (TestBoard.session 5 false) "b" "a1" 1 st' /\
    (self_plays st' <> self_plays (TestBoard.session 5 false) ->
     all_stages_pass (TestBoard.session 5 false) "a1" 1) /\
    (~ all_stages_pass (TestBoard.session 5 false) "a1" 1 ->
     the_board st' = the_board (TestBoard.session 5 false)).
Proof.
  apply (play_cmd_stages "b" "a1" 1 (TestBoard.session 5 false)).
  - reflexivity.
  - vm_compute. discriminate.
  - vm_compute. split; discriminate.
  - intros row col Hdecode _. vm_compute in Hdecode.
    injection Hdecode as <- <-. vm_compute. tauto.
Defined.

(** C2, as stated, fails for the handler of play: the exception raised
    in its body is answered in a success frame; [get_cmd] raises
    nothing and logs nothing, debug mode or not. *)
Lemma play_failure_answered_not_raised :
  ~ (forall (st st1 : state) (a0 a1 : string) (e : exn),
        play_body [a0; a1] st = (Raise e, st1) ->
        is_Exception e = true ->
        get_cmd ("play " +:+ a0 +:+ " " +:+ a1) st = (Raise e, logged e st1)).
Proof.
  intros H.
  specialize (H (TestBoard.session 5 true) (TestBoard.session 5 true)
                "x"%string "a1"%string (KeyError "x") eq_refl eq_refl).
  apply (f_equal (fun r => is_Ok (fst r))) in H.
  vm_compute in H. discriminate H.
Qed.

Example failed_play_session_output :
  let st := snd (get_cmd "play x a1" (TestBoard.session 5 true)) in
  is_Ok (fst (get_cmd "play x a1" (TestBoard.session 5 true))) = true /\
  stdout st = [ success_frame "Error: 'x'" ] /\
  stderr st = [].
Proof. repeat split; vm_compute; reflexivity. Qed.

Lemma handler_exception_logged_and_raised_witness :
  get_cmd "boardsize x" (TestBoard.session 5 true)
  = (Raise (ValueError "invalid literal for int() with base 10: 'x'"),
     logged (ValueError "invalid literal for int() with base 10: 'x'")
            (TestBoard.session 5 true)).
Proof.
  apply (handler_exception_logged_and_raised
           "boardsize x" "boardsize" ["x"%string] boardsize_cmd
           (ValueError "invalid literal for int() with base 10: 'x'")
           (TestBoard.session 5 true) (TestBoard.session 5 true)).
  - vm_compute. reflexivity.
  - apply has_arg_error_match. intros n usage Hin. change (n = 1). cbn in Hin.
    destruct Hin as [Hin|[Hin|[Hin|[Hin|[Hin|[Hin|[]]]]]]]; congruence.
  - reflexivity.
  - reflexivity.
Defined.

Lemma capture_detection_compares_empty_sets_witness :
  exists captures : bool,
    capture_detection (Some 6) 1 TestBoard.corner
    = (Ok captures, log_play monitor_board (Some 6) 1 TestBoard.corner) /\
    (captures = false <->
     (list_to_set (empty_after (the_board TestBoard.corner) (Some 6) 1) : gset Z)
     = list_to_set (get_empty_points (the_board TestBoard.corner)) ∖ {[ 6 ]}) /\
    (captures = true <->
     (list_to_set (empty_after (the_board TestBoard.corner) (Some 6) 1) : gset Z)
     <> list_to_set (get_empty_points (the_board TestBoard.corner)) ∖ {[ 6 ]}) /\
    the_board (log_play monitor_board (Some 6) 1 TestBoard.corner)
    = the_board TestBoard.corner.
Proof.
  apply (capture_detection_compares_empty_sets 6 1 TestBoard.corner).
  - vm_compute. tauto.
  - vm_compute. repeat constructor.
  - vm_compute. repeat constructor.
Defined.

Example capture_in_the_corner :
  fst (capture_detection (Some 6) 1 TestBoard.corner) = Ok true /\
  fst (capture_detection (Some 10) 1 TestBoard.corner) = Ok false.
Proof. split; vm_compute; reflexivity. Qed.

(** C6, as stated, fails: legal_moves is none of the five listed
    commands, and a line with that name and no argument is rejected for
    its argument count. *)
Lemma legal_moves_is_arity_checked :
  ~ (forall (st : state) (command command_name : string) (args : list string),
        elements_of command = command_name :: args ->
        (forall n, ~ In (command_name, n) listed_arities) ->
        fst (has_arg_error command_name (Z.of_nat (length args)) st) = Ok false).
Proof.
  intros H.
  specialize (H (TestBoard.session 5 false) "legal_moves"%string
                "legal_moves"%string [] eq_refl).
  assert (Hnot : forall n, ~ In ("legal_moves"%string, n) listed_arities).
  { intros n Hin. cbn in Hin. intuition discriminate. }
  specialize (H Hnot). vm_compute in H. discriminate H.
Qed.

Example legal_moves_line_session_output :
  stdout (TestBoard.after ["legal_moves"; "legal_moves b"; "foo 1 2 3"]%string
                          (TestBoard.session 5 false))
  = [ error_frame "Usage: legal_moves {w,b}";
      error_frame "Unknown command";
      error_frame "Unknown command" ].
Proof. vm_compute. reflexivity. Qed.

Lemma arity_checked_for_six_commands_witness :
  get_cmd "play b" (TestBoard.session 5 false)
  = (Ok tt, write_stdout (error_frame "Usage: play {b,w} MOVE") (TestBoard.session 5 false))
  /\ get_cmd "name" (TestBoard.session 5 false)
     = invoke "name" [] (TestBoard.session 5 false).
Proof.
  assert (E1 : elements_of "play b" = ["play"; "b"]%string) by (vm_compute; reflexivity).
  assert (E2 : elements_of "name" = ["name"%string]) by (vm_compute; reflexivity).
  split.
  - apply (arity_checked_for_six_commands
             "play b" "play" ["b"%string] (TestBoard.session 5 false) E1) with (n := 2).
    + cbn. tauto.
    + cbn. lia.
  - apply (arity_checked_for_six_commands
             "name" "name" [] (TestBoard.session 5 false) E2).
    intros n usage Hin. cbn in Hin. intuition discriminate.
Defined.

Lemma play_wrong_color_leaves_board_witness :
  play_cmd ["W"; "a1"]%string (TestBoard.session 5 false)
  = (Ok tt, answered (illegal_move_message "W" "a1" "wrong color")
                     (TestBoard.session 5 false)) /\
  stdout (answered (illegal_move_message "W" "a1" "wrong color") (TestBoard.session 5 false))
  = [ "= illegal move: " +:+ String "034"%char EmptyString +:+ "W a1" +:+
      String "034"%char EmptyString +:+ " wrong color" +:+ nl +:+ nl ] /\
  played (answered (illegal_move_message "W" "a1" "wrong color") (TestBoard.session 5 false))
  = [].
Proof.
  destruct (play_wrong_color_leaves_board "W" "a1" 2 (TestBoard.session 5 false))
    as (Hrun & Hout & _ & Hplayed).
  - reflexivity.
  - vm_compute. discriminate.
  - split; [exact Hrun|]. split; [vm_compute; reflexivity | exact Hplayed].
Defined.

Lemma one_character_move_not_reported_witness :
  play_cmd ["b"; "a"]%string (TestBoard.session 5 false)
  = (Ok tt, answered "Error: string index out of range" (TestBoard.session 5 false)) /\
  "Error: string index out of range"%string <> illegal_move_message "b" "a" "wrong coordinate" /\
  move_to_coord "a" 5 = Ok CFalse.
Proof.
  destruct (one_character_move_not_reported "b" "a"%char 1 (TestBoard.session 5 false))
    as (Hrun & Hother & Hdecode).
  - reflexivity.
  - reflexivity.
  - split; [exact Hrun|]. split; [exact Hother|].
    apply Hdecode. unfold MAXSIZE. lia.
Defined.

Lemma legal_moves_sorted_by_first_char_witness :
  exists strs st',
    gogui_rules_legal_moves_cmd [] (TestBoard.session 3 false) = (Ok strs, st') /\
    stdout st' = [ success_frame (String.concat " " strs) ] /\
    Permutation
      (map (point_text 3)
           (List.filter (listed_point (TestBoard.session 3 false))
                        (get_empty_points (the_board (TestBoard.session 3 false)))))
      strs.
Proof.
  assert (Hon : forall p,
             In p (List.filter (listed_point (TestBoard.session 3 false))
                               (get_empty_points (the_board (TestBoard.session 3 false)))) ->
             0 <= p / (board_size (the_board (TestBoard.session 3 false)) + 1) < MAXSIZE /\
             1 <= p mod (board_size (the_board (TestBoard.session 3 false)) + 1) < MAXSIZE).
  { intros p Hin. vm_compute in Hin.
    repeat (destruct Hin as [<-|Hin]; [vm_compute; intuition discriminate|]).
    destruct Hin. }
  assert (Hsize : board_size (the_board (TestBoard.session 3 false)) <> -1)
    by (vm_compute; discriminate).
  destruct (legal_moves_sorted_by_first_char [] (TestBoard.session 3 false) Hsize Hon)
    as (strs & st' & Hrun & Hout & _ & Hperm & _).
  exists strs, st'. split; [exact Hrun|]. split; [exact Hout | exact Hperm].
Defined.

(** The answer on the empty board of side 3. *)
Example legal_moves_on_side_3 :
  stdout (snd (gogui_rules_legal_moves_cmd [] (TestBoard.session 3 false)))
  = [ "= A1 A2 A3 B1 B2 B3 C1 C2 C3" +:+ nl +:+ nl ].
Proof. vm_compute. reflexivity. Qed.

(** The order of the legal moves on a board of side 10: A10 comes
    after A9, where the enumeration has it, and not after A1. *)
Example legal_moves_order_on_side_10 :
  exists rest,
    fst (gogui_rules_legal_moves_cmd [] (TestBoard.session 10 false))
    = Ok ([ "A1"; "A2"; "A3"; "A4"; "A5"; "A6"; "A7"; "A8"; "A9"; "A10"; "B1" ]%string
          ++ rest).
Proof. vm_compute. eexists. reflexivity. Qed.

End OnTestBoard.

(* ================================================================== *)
(** * Further properties *)
(* ================================================================== *)


(** ** More on the codec *)

Module CodecExtras.
Import PyStr Codec Notions Tactics CodecProps.

(** The encoding of the board array, whose stride is the board size
    plus one, is undone by [point_to_coord]. *)
Lemma point_to_coord_index (row col size : Z) :
  0 <= size -> 0 <= col <= size ->
  point_to_coord (Some ((size + 1) * row + col)) size = Ok (CPair row col).
Proof.
  intros Hsize Hcol. unfold point_to_coord.
  replace (size + 1 =? 0) with false by (symmetry; apply Z.eqb_neq; lia).
  f_equal. f_equal.
  - symmetry. apply (Z.div_unique_pos _ _ row col); lia.
  - symmetry. apply (Z.mod_unique_pos _ _ row col); lia.
Qed.

(** X1.  [point_to_coord] leaves the pass value as it is and undoes the
    encoding of the board array, whose stride is the board size plus
    one: for a board size that is not negative and a column in
    0..size, the index (size + 1) * row + col is decoded to
    (row, col).  A board size of -1 is the only one it raises on (a
    division by zero). *)
Theorem point_to_coord_decodes (row col size : Z) :
  point_to_coord PASS size = Ok CPass /\
  (0 <= size -> 0 <= col <= size ->
   point_to_coord (Some ((size + 1) * row + col)) size = Ok (CPair row col)) /\
  (forall p, (exists e, point_to_coord (Some p) size = Raise e) <-> size = -1).
Proof.
  split; [reflexivity|]. split; [apply point_to_coord_index|].
  intros p. unfold point_to_coord. destruct (size + 1 =? 0) eqn:E.
  - apply Z.eqb_eq in E. split; [lia | eauto].
  - apply Z.eqb_neq in E. split; [intros [e He]; discriminate He | lia].
Qed.

(** What [format_point] writes for a row and a column on the board is
    not the pass text and is parsed back to that row and column. *)
Lemma format_then_parse (row col : Z) :
  1 <= row < 25 -> 1 <= col < 25 ->
  exists s, format_point (CPair row col) = Ok s /\
            String.eqb (lower s) "pass" = false /\
            parse_col_row (lower s) = Some (Some (row, col)).
Proof.
  intros Hrow. revert col.
  revert row Hrow.
  apply (RoundTrip.below
           (fun row => forall col, 1 <= col < 25 ->
              exists s, format_point (CPair row col) = Ok s /\
                        String.eqb (lower s) "pass" = false /\
                        parse_col_row (lower s) = Some (Some (row, col))) 1 24).
  intros k Hk.
  apply (RoundTrip.below
           (fun col =>
              exists s, format_point (CPair (1 + Z.of_nat k) col) = Ok s /\
                        String.eqb (lower s) "pass" = false /\
                        parse_col_row (lower s) = Some (Some (1 + Z.of_nat k, col))) 1 24).
  intros j Hj.
  do 24 (destruct k as [|k];
         [do 24 (destruct j as [|j];
                 [eexists; split; [vm_compute; reflexivity|];
                  split; vm_compute; reflexivity|]); lia|]).
  lia.
Qed.

(** X2.  Decoding undoes formatting: for a board size within
    2..MAXSIZE and a row and a column within 1..size and below
    [MAXSIZE], [format_point] returns a text and [move_to_coord] reads
    that text back as the same row and column. *)
Theorem move_to_coord_format_point (row col size : Z) :
  2 <= size <= MAXSIZE ->
  1 <= row <= size -> 1 <= col <= size ->
  row < MAXSIZE -> col < MAXSIZE ->
  exists s, format_point (CPair row col) = Ok s /\
            move_to_coord s size = Ok (CPair row col).
Proof.
  intros Hsize Hrow Hcol Hr Hc. unfold MAXSIZE in *.
  destruct (format_then_parse row col) as (s & Hfmt & Hpass & Hparse); [lia | lia|].
  exists s. split; [exact Hfmt|].
  rewrite move_to_coord_in_range by (unfold MAXSIZE; lia).
  rewrite Hpass, Hparse.
  replace (col <=? size) with true by (symmetry; apply Z.leb_le; lia).
  replace (row <=? size) with true by (symmetry; apply Z.leb_le; lia).
  reflexivity.
Qed.

Lemma move_to_coord_format_point_witness :
  exists s, format_point (CPair 19 19) = Ok s /\
            move_to_coord s 19 = Ok (CPair 19 19).
Proof.
  apply (move_to_coord_format_point 19 19 19); unfold MAXSIZE; lia.
Defined.

(** The letter of a column in the range of [format_point]. *)
Lemma column_letter (col : Z) :
  0 <= col < 25 ->
  exists L, index column_letters (col - 1) = Some L /\
            between 65 90 (ord L) = true /\ L <> "I"%char /\
            (col = 0 -> L = "Z"%char).
Proof.
  apply (RoundTrip.below
           (fun col => exists L, index column_letters (col - 1) = Some L /\
                                 between 65 90 (ord L) = true /\ L <> "I"%char /\
                                 (col = 0 -> L = "Z"%char)) 0 25).
  intros k Hk.
  do 25 (destruct k as [|k];
         [eexists; split; [vm_compute; reflexivity|];
          split; [reflexivity|]; split; [discriminate|];
          intros H; first [reflexivity | discriminate H]|]).
  lia.
Qed.

Lemma format_point_inside (row col : Z) :
  0 <= row < MAXSIZE -> 0 <= col < MAXSIZE ->
  exists L, format_point (CPair row col) = Ok (String L (str_of_Z row)) /\
            between 65 90 (ord L) = true /\ L <> "I"%char /\
            (col = 0 -> L = "Z"%char).
Proof.
  intros Hrow Hcol. unfold format_point.
  replace (negb (MAXSIZE <=? 25)) with false by reflexivity.
  replace ((0 <=? row) && (row <? MAXSIZE)) with true
    by (symmetry; apply andb_true_intro; split; [apply Z.leb_le | apply Z.ltb_lt]; lia).
  replace ((0 <=? col) && (col <? MAXSIZE)) with true
    by (symmetry; apply andb_true_intro; split; [apply Z.leb_le | apply Z.ltb_lt]; lia).
  cbn [negb orb].
  destruct (column_letter col Hcol) as (L & -> & HL). exists L. split; [reflexivity | exact HL].
Qed.

Lemma format_point_outside (row col : Z) :
  ~ (0 <= row < MAXSIZE /\ 0 <= col < MAXSIZE) ->
  format_point (CPair row col) = Raise (ValueError EmptyString).
Proof.
  intros Hout. unfold format_point.
  replace (negb (MAXSIZE <=? 25)) with false by reflexivity.
  destruct ((0 <=? row) && (row <? MAXSIZE)) eqn:E1; [|reflexivity].
  destruct ((0 <=? col) && (col <? MAXSIZE)) eqn:E2; [|reflexivity].
  exfalso. apply Hout.
  apply andb_prop in E1 as [E1 E1'], E2 as [E2 E2'].
  apply Z.leb_le in E1, E2. apply Z.ltb_lt in E1', E2'. lia.
Qed.

(** X3.  [format_point] covers rows and columns 0..MAXSIZE-1 and nothing
    else: there it returns an upper-case letter other than I followed
    by the decimal numeral of the row, and column 0 is written with the
    letter Z; for any other row or column, the row or column MAXSIZE
    included, it raises ValueError. *)
Theorem format_point_range (row col : Z) :
  (0 <= row < MAXSIZE /\ 0 <= col < MAXSIZE ->
   exists L, format_point (CPair row col) = Ok (String L (str_of_Z row)) /\
             between 65 90 (ord L) = true /\ L <> "I"%char /\
             (col = 0 -> L = "Z"%char)) /\
  (~ (0 <= row < MAXSIZE /\ 0 <= col < MAXSIZE) ->
   format_point (CPair row col) = Raise (ValueError EmptyString)).
Proof.
  split.
  - intros [Hrow Hcol]. apply format_point_inside; assumption.
  - apply format_point_outside.
Qed.

(** X19.  What [move_to_coord] returns is on the board: it raises, a
    ValueError, exactly when the board size is outside 2..MAXSIZE,
    whatever the text; on a board size in range a pair it returns has
    its row and its column within 1..size. *)
Theorem move_to_coord_on_board (point_str : string) (size : Z) :
  match move_to_coord point_str size with
  | Ok (CPair row col) =>
      2 <= size <= MAXSIZE /\ 1 <= row <= size /\ 1 <= col <= size
  | Ok _ => 2 <= size <= MAXSIZE
  | Raise e => ~ (2 <= size <= MAXSIZE) /\ e = ValueError "board_size out of range"
  end.
Proof.
  destruct (Z_le_dec 2 size) as [Hlo|Hlo]; [destruct (Z_le_dec size MAXSIZE) as [Hhi|Hhi]|].
  2,3: rewrite move_to_coord_out_of_range by lia; split; [lia | reflexivity].
  rewrite move_to_coord_in_range by lia. unfold MAXSIZE in *.
  destruct (String.eqb (lower point_str) "pass"); [cbv beta iota; lia|].
  destruct (lower point_str) as [|c t].
  { change (parse_col_row EmptyString) with (@None (option (Z * Z))). cbv beta iota. lia. }
  rewrite parse_col_row_cons.
  destruct (negb ((ord "a" <=? ord c) && (ord c <=? ord "z")) || (ord c =? ord "i")) eqn:Hc;
    [cbv beta iota; lia|].
  destruct (py_int t) as [row|]; [|cbv beta iota; lia].
  destruct (row <? 1) eqn:Hrow; [cbv beta iota; lia|].
  cbv beta iota.
  match goal with
  | |- context [negb ((?col <=? size) && (row <=? size))] =>
      destruct (negb ((col <=? size) && (row <=? size))) eqn:Hfit
  end; [lia|].
  apply Z.ltb_ge in Hrow. apply negb_false_iff, andb_true_iff in Hfit as [Hcol Hrow'].
  apply Z.leb_le in Hcol, Hrow'.
  apply orb_false_iff in Hc as [Hletter Hi].
  apply negb_false_iff, andb_true_iff in Hletter as [Ha Hz].
  apply Z.leb_le in Ha, Hz. apply Z.eqb_neq in Hi.
  change (ord "a") with 97 in *. change (ord "i") with 105 in *.
  cbv beta iota. repeat split; try lia.
  destruct (ord c <? 105) eqn:Hlt; [cbv beta iota; lia|]. apply Z.ltb_ge in Hlt. lia.
Qed.

(** X20.  The text of a point of the board array, as
    [gogui_rules_legal_moves_cmd] and [genmove_cmd] compute it with
    [format_point(point_to_coord(point, size))]: the point of a row
    and a column of a board of side [size] has a text, an upper-case
    letter other than I followed by the numeral of the row, when the
    row and the column are below [MAXSIZE]; for a row or a column equal
    to [MAXSIZE], which a board of that side has, the computation
    raises ValueError. *)
Theorem format_point_of_point (row col size : Z) :
  0 <= size -> 0 <= col <= size ->
  (0 <= row < MAXSIZE /\ col < MAXSIZE ->
   exists L,
     (let+ c := point_to_coord (Some ((size + 1) * row + col)) size in format_point c)
     = Ok (String L (str_of_Z row)) /\
     between 65 90 (ord L) = true /\ L <> "I"%char) /\
  (~ (0 <= row < MAXSIZE /\ col < MAXSIZE) ->
   (let+ c := point_to_coord (Some ((size + 1) * row + col)) size in format_point c)
   = Raise (ValueError EmptyString)).
Proof.
  intros Hsize Hcol. rewrite (point_to_coord_index row col size Hsize Hcol).
  cbn [pure_bind]. split.
  - intros [Hrow Hc].
    destruct (format_point_inside row col Hrow) as (L & -> & Hupper & HI & _); [lia|].
    exists L. auto.
  - intros Hout. apply format_point_outside. lia.
Qed.

Lemma format_point_of_point_witness :
  (let+ c := point_to_coord (Some ((25 + 1) * 25 + 1)) 25 in format_point c)
  = Raise (ValueError EmptyString).
Proof.
  apply (format_point_of_point 25 1 25); unfold MAXSIZE; lia.
Defined.

End CodecExtras.
(* ================================================================== *)
(** ** The tokens of a line *)
(* ================================================================== *)

Module LineProps.
Import PyStr Codec Gtp Notions SessionNotions ExtraNotions Tactics.

Lemma drop_while_nil (p : ascii -> bool) (l : list ascii) :
  drop_while p l = [] <-> forallb p l = true.
Proof.
  induction l as [|c l IH]; cbn; [tauto|].
  destruct (p c); cbn; [exact IH|]. split; discriminate.
Qed.

Lemma drop_while_twice (p : ascii -> bool) (l : list ascii) :
  forallb p (drop_while p l) = true -> drop_while p l = [].
Proof.
  induction l as [|c l IH]; cbn; [reflexivity|].
  destruct (p c) eqn:Hc; [exact IH|]. cbn. rewrite Hc. discriminate.
Qed.

Lemma forallb_rev (p : ascii -> bool) (l : list ascii) :
  forallb p (rev l) = forallb p l.
Proof.
  induction l as [|c l IH]; [reflexivity|].
  cbn. rewrite forallb_app, IH. cbn. rewrite andb_true_r. apply andb_comm.
Qed.

Lemma of_rev_empty (l : list ascii) : of_rev l = EmptyString -> l = [].
Proof.
  unfold of_rev. intros H. apply (f_equal list_ascii_of_string) in H.
  rewrite list_ascii_of_string_of_list_ascii in H. cbn in H.
  destruct l as [|c l]; [reflexivity|]. cbn in H.
  destruct (rev l); discriminate H.
Qed.

Lemma len_0 (s : string) : (len s =? 0) = true <-> s = EmptyString.
Proof.
  unfold len. destruct s as [|c s]; [split; reflexivity|].
  split; [|discriminate]. intros H. apply Z.eqb_eq in H. cbn [String.length] in H. lia.
Qed.

(** [s.strip(chars)] is empty exactly when [s] is made of [chars]. *)
Lemma strip_by_empty (p : ascii -> bool) (s : string) :
  (len (strip_by p s) =? 0) = true <-> forallb p (list_ascii_of_string s) = true.
Proof.
  rewrite len_0. unfold strip_by. split.
  - intros H. apply of_rev_empty in H. apply drop_while_nil in H.
    rewrite forallb_rev in H. apply drop_while_twice in H.
    apply drop_while_nil. exact H.
  - intros H. apply drop_while_nil in H. rewrite H. reflexivity.
Qed.

Lemma is_blank_isspace (c : ascii) : is_blank c = true -> isspace c = true.
Proof. each_char c; intros H; try reflexivity; discriminate H. Qed.

Lemma is_blank_not_decimal (c : ascii) : is_blank c = true -> isdecimal c = false.
Proof. each_char c; intros H; try reflexivity; discriminate H. Qed.

Lemma isdecimal_isdigit (c : ascii) : isdecimal c = true -> isdigit c = true.
Proof. each_char c; intros H; try reflexivity; discriminate H. Qed.

Lemma isdecimal_not_blank (c : ascii) : isdecimal c = true -> is_blank c = false.
Proof. each_char c; intros H; try reflexivity; discriminate H. Qed.

Lemma isdecimal_not_hash (c : ascii) : isdecimal c = true -> (ord c =? ord "#") = false.
Proof. each_char c; intros H; try reflexivity; discriminate H. Qed.

Lemma forallb_blank_space (l : list ascii) :
  forallb is_blank l = true -> forallb isspace l = true.
Proof.
  induction l as [|c l IH]; [reflexivity|]. cbn.
  intros H. apply andb_true_iff in H as [Hc Hl].
  rewrite (is_blank_isspace c Hc), (IH Hl). reflexivity.
Qed.

(** [s.split()] has no token exactly when [s] is whitespace. *)
Lemma split_from_nil (cur : list ascii) (s : string) :
  split_from cur s = [] <->
  cur = [] /\ forallb isspace (list_ascii_of_string s) = true.
Proof.
  revert cur. induction s as [|c s IH]; intros cur; cbn.
  - destruct cur; split; try tauto; try discriminate. intros [H _]. discriminate H.
  - destruct (isspace c); cbn.
    + destruct cur as [|c' cur]; [apply IH|].
      split; [discriminate | intros [H _]; discriminate H].
    + rewrite IH. split; [intros [H _]; discriminate H | intros [_ H]; discriminate H].
Qed.

Lemma split_nil (s : string) :
  split s = [] <-> forallb isspace (list_ascii_of_string s) = true.
Proof. unfold split. rewrite split_from_nil. tauto. Qed.

(** Whitespace in front of the first token does not count. *)
Lemma split_lstrip (s : string) : split (lstrip s) = split s.
Proof.
  unfold split, lstrip, lstrip_by.
  induction s as [|c s IH]; [reflexivity|].
  cbn [list_ascii_of_string drop_while]. destruct (isspace c) eqn:Hc.
  - rewrite IH. cbn [split_from]. rewrite Hc. reflexivity.
  - cbn [string_of_list_ascii]. rewrite string_of_list_ascii_of_string. reflexivity.
Qed.

Lemma lstrip_by_app (p : ascii -> bool) (digits rest : string) :
  forallb p (list_ascii_of_string digits) = true ->
  lstrip_by p (digits +:+ rest) = lstrip_by p rest.
Proof.
  unfold lstrip_by. induction digits as [|c digits IH]; [reflexivity|].
  cbn [list_ascii_of_string forallb]. intros H. apply andb_true_iff in H as [Hc H].
  change (String c digits +:+ rest) with (String c (digits +:+ rest)).
  cbn [list_ascii_of_string drop_while]. rewrite Hc. apply IH, H.
Qed.

Lemma lstrip_by_start (p : ascii -> bool) (c : ascii) (s : string) :
  p c = false -> lstrip_by p (String c s) = String c s.
Proof.
  unfold lstrip_by. cbn. intros ->. cbn. rewrite string_of_list_ascii_of_string.
  reflexivity.
Qed.

(** The tokens of a line are those of [split] unless the line is a
    comment or starts with a decimal digit. *)
Lemma elements_of_plain (rest : string) :
  (forall c, index rest 0 = Some c -> isdecimal c = false /\ (ord c =? ord "#") = false) ->
  elements_of rest = split rest.
Proof.
  intros Hstart. unfold elements_of.
  destruct (len (strip_by is_blank rest) =? 0) eqn:Hblank.
  - symmetry. apply split_nil, forallb_blank_space, strip_by_empty, Hblank.
  - destruct rest as [|c0 rest].
    { exfalso. apply not_true_iff_false in Hblank. apply Hblank.
      apply strip_by_empty. reflexivity. }
    rewrite CodecProps.index_0_cons.
    destruct (Hstart c0 (CodecProps.index_0_cons c0 rest)) as [Hdec Hhash].
    rewrite Hhash. destruct (isdigit c0); [|reflexivity].
    rewrite (lstrip_by_start isdecimal c0 rest Hdec). apply split_lstrip.
Qed.

(** The tokens of a line that starts with a number. *)
Lemma elements_of_numbered (digits rest : string) :
  digits <> EmptyString ->
  forallb isdecimal (list_ascii_of_string digits) = true ->
  (forall c, index rest 0 = Some c -> isdecimal c = false) ->
  elements_of (digits +:+ rest) = split rest.
Proof.
  intros Hne Hdigits Hstart. unfold elements_of.
  destruct digits as [|d digits]; [congruence|].
  pose proof Hdigits as Hall. cbn in Hdigits. apply andb_true_iff in Hdigits as [Hd Hds].
  destruct (len (strip_by is_blank _) =? 0) eqn:Hblank.
  - apply strip_by_empty in Hblank.
    change (String d digits +:+ rest) with (String d (digits +:+ rest)) in Hblank.
    cbn [list_ascii_of_string forallb] in Hblank.
    rewrite (isdecimal_not_blank d Hd) in Hblank. discriminate Hblank.
  - change (String d digits +:+ rest) with (String d (digits +:+ rest)) at 1.
    rewrite CodecProps.index_0_cons, (isdecimal_not_hash d Hd), (isdecimal_isdigit d Hd).
    rewrite (lstrip_by_app isdecimal (String d digits) rest Hall), split_lstrip.
    destruct rest as [|c0 rest]; [reflexivity|].
    rewrite (lstrip_by_start isdecimal c0 rest); [reflexivity|].
    apply Hstart, CodecProps.index_0_cons.
Qed.

Lemma drop_while_start (p : ascii -> bool) (c : ascii) (l : list ascii) :
  p c = false -> drop_while p (c :: l) = c :: l.
Proof. cbn. intros ->. reflexivity. Qed.

Lemma elements_of_nil (command : string) :
  elements_of command = [] <-> ignored_line command = true.
Proof.
  unfold elements_of, ignored_line.
  destruct (len (strip_by is_blank command) =? 0) eqn:Hblank.
  - apply strip_by_empty in Hblank. split; [intros _|reflexivity].
    apply orb_true_iff. right.
    destruct command as [|c0 command]; [reflexivity|].
    cbn [list_ascii_of_string forallb] in Hblank.
    apply andb_true_iff in Hblank as [Hc Hl].
    cbn [list_ascii_of_string]. rewrite (drop_while_start _ _ _ (is_blank_not_decimal c0 Hc)).
    cbn. rewrite (is_blank_isspace c0 Hc). apply forallb_blank_space, Hl.
  - destruct command as [|c0 command].
    { exfalso. apply not_true_iff_false in Hblank. apply Hblank.
      apply strip_by_empty. reflexivity. }
    rewrite CodecProps.index_0_cons.
    destruct (ord c0 =? ord "#"); [split; reflexivity|].
    cbn [orb]. destruct (isdigit c0) eqn:Hdigit.
    + rewrite split_lstrip, split_nil. unfold lstrip_by.
      rewrite list_ascii_of_string_of_list_ascii. tauto.
    + assert (Hdec : isdecimal c0 = false).
      { destruct (isdecimal c0) eqn:H; [|reflexivity].
        rewrite (isdecimal_isdigit c0 H) in Hdigit. discriminate Hdigit. }
      cbn [list_ascii_of_string]. rewrite (drop_while_start _ _ _ Hdec).
      apply split_nil.
Qed.

(** The keys of the command table. *)
Lemma command_names_keys {collab : Collaborators} : map fst commands = command_names.
Proof. reflexivity. Qed.

Lemma lookup_command_none {collab : Collaborators} (name : string)
      (table : list (string * (list string -> M state unit))) :
  lookup_command name table = None <-> ~ In name (map fst table).
Proof.
  induction table as [|[k h] table IH]; cbn; [tauto|].
  destruct (String.eqb k name) eqn:Hk.
  - apply String.eqb_eq in Hk. split; [discriminate | intros H; exfalso; apply H; auto].
  - apply String.eqb_neq in Hk. rewrite IH. tauto.
Qed.

Lemma existsb_eqb_in (name : string) (l : list string) :
  existsb (String.eqb name) l = true <-> In name l.
Proof.
  rewrite existsb_exists. split.
  - intros (x & Hin & Heq). apply String.eqb_eq in Heq. subst. exact Hin.
  - intros Hin. exists name. split; [exact Hin | apply String.eqb_refl].
Qed.

End LineProps.
(** ** More on the session *)

Module SessionExtras.
Import PyStr Codec Gtp Notions SessionNotions ExtraNotions Tactics SessionProps LineProps.

Section Props.
Context {collab : Collaborators}.

(** *** Tidy methods *)

Lemma tidy_refl (kb : bool) (st : state) : tidy kb st st [].
Proof.
  unfold tidy. rewrite app_nil_r. repeat split; auto.
Qed.

Lemma tidy_trans (kb : bool) (st st1 st2 : state) (out1 out2 : list string) :
  tidy kb st st1 out1 -> tidy kb st1 st2 out2 -> tidy kb st st2 (out1 ++ out2).
Proof.
  intros (Ho1 & Hf1 & Hd1 & He1 & Hb1) (Ho2 & Hf2 & Hd2 & He2 & Hb2).
  unfold tidy. split; [|split; [|split; [|split]]].
  - rewrite Ho2, Ho1, app_assoc. reflexivity.
  - apply Forall_app. split; assumption.
  - congruence.
  - intros Hd. rewrite He2, He1; congruence.
  - intros Hkb. destruct (Hb1 Hkb), (Hb2 Hkb). split; congruence.
Qed.

Lemma tidy_weaken (kb : bool) (st st' : state) (out : list string) :
  tidy kb st st' out -> tidy false st st' out.
Proof.
  intros (Ho & Hf & Hd & He & _). unfold tidy. repeat split; auto; discriminate.
Qed.

Lemma outcome_weaken {A} (kb : bool) (P : bool -> nat -> Prop) (m : M state A) :
  outcome kb P m -> outcome false P m.
Proof.
  intros H st. destruct (H st) as (out & Ht & HP). exists out.
  split; [eapply tidy_weaken; exact Ht | exact HP].
Qed.

Lemma outcome_bind {A B} (kb : bool) (P Q R : bool -> nat -> Prop)
      (m : M state A) (k : A -> M state B) :
  outcome kb P m -> (forall a, outcome kb Q (k a)) ->
  (forall n, P false n -> R false n) ->
  (forall n1 ok n2, P true n1 -> Q ok n2 -> R ok (n1 + n2)%nat) ->
  outcome kb R (bind m k).
Proof.
  intros Hm Hk Hraise Hseq st. unfold bind.
  destruct (Hm st) as (out1 & Ht1 & HP). destruct (m st) as [[a|e] st1]; cbn in *.
  - destruct (Hk a st1) as (out2 & Ht2 & HQ). exists (out1 ++ out2).
    split; [eapply tidy_trans; eassumption|].
    rewrite length_app. now apply Hseq.
  - exists out1. split; [exact Ht1 | now apply Hraise].
Qed.

(** A silent step in front changes nothing. *)
Lemma after_silent {A B} (kb : bool) (P : bool -> nat -> Prop)
      (m : M state A) (k : A -> M state B) :
  P false 0%nat ->
  outcome kb silent m -> (forall a, outcome kb P (k a)) -> outcome kb P (bind m k).
Proof.
  intros H0 Hm Hk. apply (outcome_bind kb silent P P m k Hm Hk).
  - intros n ->. exact H0.
  - intros n1 ok n2 -> HP. exact HP.
Qed.

Lemma once_raise_ok : once false 0%nat.
Proof. split; [lia | discriminate]. Qed.

Lemma exact_once {A} (kb : bool) (m : M state A) : outcome kb exact m -> outcome kb once m.
Proof.
  intros H st. destruct (H st) as (out & Ht & HP). exists out. split; [exact Ht|].
  unfold exact in HP. unfold once. destruct (is_Ok _); rewrite HP; split; auto; discriminate.
Qed.

(** A response, then a silent step. *)
Lemma exact_then_silent {A B} (kb : bool) (m : M state A) (k : A -> M state B) :
  outcome kb exact m -> (forall a, outcome kb silent (k a)) -> outcome kb once (bind m k).
Proof.
  intros Hm Hk. apply (outcome_bind kb exact silent once m k Hm Hk).
  - intros n ->. apply once_raise_ok.
  - intros n1 ok n2 -> ->. split; [cbn; lia | reflexivity].
Qed.

(** *** The primitives *)

Lemma ret_silent {A} (a : A) : outcome true silent (ret a : M state A).
Proof. intros st. exists []. split; [apply tidy_refl | reflexivity]. Qed.

Lemma raise_silent {A} (e : exn) : outcome true silent (raise e : M state A).
Proof. intros st. exists []. split; [apply tidy_refl | reflexivity]. Qed.

Lemma lift_silent {A} (r : result A) : outcome true silent (lift r : M state A).
Proof. intros st. exists []. split; [apply tidy_refl | reflexivity]. Qed.

Lemma gets_silent {A} (f : state -> A) : outcome true silent (gets f).
Proof. intros st. exists []. split; [apply tidy_refl | reflexivity]. Qed.

Lemma is_frame_success (payload : string) : is_frame (success_frame payload).
Proof. exists payload. now left. Qed.

Lemma is_frame_error (message : string) : is_frame (error_frame message).
Proof. exists message. now right. Qed.

Lemma respond_exact (response : string) : outcome true exact (respond response).
Proof.
  intros st. exists [success_frame response]. split; [|reflexivity].
  unfold tidy. cbn. repeat split; auto.
  constructor; [apply is_frame_success | constructor].
Qed.

Lemma error_exact (message : string) : outcome true exact (error message).
Proof.
  intros st. exists [error_frame message]. split; [|reflexivity].
  unfold tidy. cbn. repeat split; auto.
  constructor; [apply is_frame_error | constructor].
Qed.

Lemma debug_msg_silent (msg : string) : outcome true silent (debug_msg msg).
Proof.
  intros st. exists []. split; [|reflexivity]. unfold debug_msg, tidy.
  destruct (debug_mode st) eqn:Hd; cbn; rewrite app_nil_r; repeat split; auto.
  intros H. discriminate H.
Qed.

Lemma set_komi_silent (k : pyfloat) : outcome true silent (modify (set_komi k)).
Proof.
  intros st. exists []. split; [|reflexivity]. unfold tidy. cbn.
  rewrite app_nil_r. repeat split; auto.
Qed.

Lemma board2d_silent : outcome true silent board2d.
Proof. intros st. exists []. split; [apply tidy_refl | reflexivity]. Qed.

Lemma capture_detection_silent (p : point) (color : Z) :
  outcome true silent (capture_detection p color).
Proof.
  intros st. exists []. rewrite capture_detection_eq. split; [|reflexivity].
  unfold tidy. cbn [snd]. rewrite app_nil_r. repeat split; auto.
  apply self_plays_probe.
Qed.

Lemma reset_silent (size : Z) : outcome false silent (reset size).
Proof.
  intros st. exists []. split.
  - unfold reset. run. destruct (board_reset (the_board st) size); cbn;
      unfold tidy; cbn; rewrite app_nil_r; repeat split; auto; discriminate.
  - reflexivity.
Qed.

Lemma board_play_move_silent (p : point) (color : Z) :
  outcome false silent (board_play_move p color).
Proof.
  intros st. exists []. split; [|reflexivity].
  unfold board_play_move. run. destruct (play_move (the_board st) p color) as [b' applied].
  cbn. unfold tidy. cbn. rewrite app_nil_r. repeat split; auto; discriminate.
Qed.

Lemma legal_loop_silent (color : Z) (points acc : list Z) :
  outcome true silent (legal_loop color points acc).
Proof.
  revert acc. induction points as [|p points IH]; intros acc; cbn [legal_loop].
  - apply ret_silent.
  - apply after_silent; [reflexivity | apply gets_silent|]. intros b.
    destruct (is_legal b (Some p) color); [|apply IH].
    apply after_silent; [reflexivity | apply capture_detection_silent|].
    intros captures. destruct (negb captures); apply IH.
Qed.

Lemma legal_move_helper_silent : outcome true silent legal_move_helper.
Proof.
  unfold legal_move_helper. apply after_silent; [reflexivity | apply gets_silent|].
  intros b. apply legal_loop_silent.
Qed.


Lemma once_then_silent {A B} (kb : bool) (m : M state A) (k : A -> M state B) :
  outcome kb once m -> (forall a, outcome kb silent (k a)) -> outcome kb once (bind m k).
Proof.
  intros Hm Hk. apply (outcome_bind kb once silent once m k Hm Hk).
  - intros n H. exact H.
  - intros n1 ok n2 [_ H1] ->. rewrite (H1 eq_refl). split; [cbn; lia | reflexivity].
Qed.

(** [try: body except Exception as e: respond(...)] *)
Lemma try_respond (kb : bool) (body : M state unit) (text : exn -> string) :
  outcome kb exact body ->
  outcome kb once (try_except body (fun e => respond (text e))).
Proof.
  intros Hbody st. unfold try_except.
  destruct (Hbody st) as (out & Ht & HP). destruct (body st) as [[u|e] st1]; cbn in *.
  - exists out. split; [exact Ht|]. rewrite HP. split; auto.
  - destruct (is_Exception e).
    + destruct (respond_exact (text e) st1) as (out2 & Ht2 & HP2). cbn in Ht2, HP2.
      exists (out ++ out2). split.
      * eapply tidy_trans; [exact Ht|].
        destruct kb; [exact Ht2 | eapply tidy_weaken; exact Ht2].
      * cbn. rewrite length_app, HP, HP2. split; [cbn; lia | reflexivity].
    + exists out. split; [exact Ht|]. cbn. rewrite HP. apply once_raise_ok.
Qed.

(** [try: body except Exception as e: log; raise e] *)
Lemma try_log (kb : bool) (body : M state unit) (msg1 msg2 : exn -> string) :
  outcome kb once body ->
  outcome kb once
    (try_except body (fun e => debug_msg (msg1 e) >> debug_msg (msg2 e) >> raise e)).
Proof.
  intros Hbody st. unfold try_except.
  destruct (Hbody st) as (out & Ht & HP). destruct (body st) as [[u|e] st1]; cbn in *.
  - exists out. split; assumption.
  - destruct (is_Exception e); [|exists out; split; assumption].
    assert (Hh : outcome true silent
                   (debug_msg (msg1 e) >> debug_msg (msg2 e) >> (raise e : M state unit))).
    { apply after_silent; [reflexivity | apply debug_msg_silent|]. intros _.
      apply after_silent; [reflexivity | apply debug_msg_silent|]. intros _.
      apply raise_silent. }
    destruct (Hh st1) as (out2 & Ht2 & HP2).
    assert (Hraise : is_Ok (fst ((debug_msg (msg1 e) >> debug_msg (msg2 e) >>
                                  (raise e : M state unit)) st1)) = false).
    { unfold debug_msg. run. destruct (debug_mode st1) eqn:Hd; cbn; rewrite ?Hd; reflexivity. }
    exists (out ++ out2). split.
    + eapply tidy_trans; [exact Ht|].
      destruct kb; [exact Ht2 | eapply tidy_weaken; exact Ht2].
    + rewrite Hraise, length_app, HP2, Nat.add_0_r. destruct HP as [Hle _].
      split; [exact Hle | discriminate].
Qed.

(** *** The handlers *)

Lemma protocol_version_once args : outcome true once (protocol_version_cmd args).
Proof. apply exact_once, respond_exact. Qed.

Lemma quit_once args : outcome true once (quit_cmd args).
Proof.
  apply exact_then_silent; [apply respond_exact | intros _; apply raise_silent].
Qed.

Lemma name_once args : outcome true once (name_cmd args).
Proof. apply exact_once, respond_exact. Qed.

Lemma version_once args : outcome true once (version_cmd args).
Proof. apply exact_once, respond_exact. Qed.

Lemma clear_board_once args : outcome false once (clear_board_cmd args).
Proof.
  unfold clear_board_cmd.
  apply after_silent; [apply once_raise_ok | eapply outcome_weaken, gets_silent|]. intros b.
  apply after_silent; [apply once_raise_ok | apply reset_silent|]. intros _.
  eapply outcome_weaken, exact_once, respond_exact.
Qed.

Lemma boardsize_once args : outcome false once (boardsize_cmd args).
Proof.
  unfold boardsize_cmd.
  apply after_silent; [apply once_raise_ok | eapply outcome_weaken, lift_silent|]. intros a0.
  destruct (py_int a0) as [n|].
  - apply after_silent; [apply once_raise_ok | apply reset_silent|]. intros _.
    eapply outcome_weaken, exact_once, respond_exact.
  - eapply outcome_weaken. intros st. destruct (raise_silent (A := unit) (ValueError
      ("invalid literal for int() with base 10: " +:+ repr a0)) st) as (out & Ht & HP).
    exists out. split; [exact Ht|]. cbn in *. rewrite HP. apply once_raise_ok.
Qed.

Lemma silent_once_when_raising {A} (kb : bool) (e : exn) :
  outcome kb once (raise e : M state A).
Proof.
  intros st. exists []. split; [apply tidy_refl | apply once_raise_ok].
Qed.

Lemma showboard_once args : outcome true once (showboard_cmd args).
Proof.
  unfold showboard_cmd.
  apply after_silent; [apply once_raise_ok | apply board2d_silent|]. intros s.
  apply exact_once, respond_exact.
Qed.

Lemma komi_once args : outcome true once (komi_cmd args).
Proof.
  unfold komi_cmd.
  apply after_silent; [apply once_raise_ok | apply lift_silent|]. intros a0.
  destruct (float_of_str a0) as [k|]; [|apply silent_once_when_raising].
  apply after_silent; [apply once_raise_ok | apply set_komi_silent|]. intros _.
  apply exact_once, respond_exact.
Qed.

Lemma known_command_once args : outcome true once (known_command_cmd args).
Proof.
  unfold known_command_cmd.
  apply after_silent; [apply once_raise_ok | apply lift_silent|]. intros a0.
  destruct (existsb _ _); apply exact_once, respond_exact.
Qed.

Lemma list_commands_once args : outcome true once (list_commands_cmd args).
Proof. apply exact_once, respond_exact. Qed.

Lemma gogui_analyze_once args : outcome true once (gogui_analyze_cmd args).
Proof. apply exact_once, respond_exact. Qed.

Lemma gogui_rules_game_id_once args : outcome true once (gogui_rules_game_id_cmd args).
Proof. apply exact_once, respond_exact. Qed.

Lemma gogui_rules_board_size_once args : outcome true once (gogui_rules_board_size_cmd args).
Proof.
  unfold gogui_rules_board_size_cmd.
  apply after_silent; [apply once_raise_ok | apply gets_silent|]. intros b.
  apply exact_once, respond_exact.
Qed.

Lemma gogui_rules_side_to_move_once args :
  outcome true once (gogui_rules_side_to_move_cmd args).
Proof.
  unfold gogui_rules_side_to_move_cmd.
  apply after_silent; [apply once_raise_ok | apply gets_silent|]. intros b.
  apply exact_once, respond_exact.
Qed.

Lemma gogui_rules_board_once args : outcome true once (gogui_rules_board_cmd args).
Proof.
  unfold gogui_rules_board_cmd.
  apply after_silent; [apply once_raise_ok | apply gets_silent|]. intros b.
  apply after_silent; [apply once_raise_ok | apply lift_silent|]. intros s.
  apply exact_once, respond_exact.
Qed.

Lemma gogui_rules_final_result_once args :
  outcome true once (gogui_rules_final_result_cmd args).
Proof.
  unfold gogui_rules_final_result_cmd.
  apply after_silent; [apply once_raise_ok | apply legal_move_helper_silent|]. intros moves.
  destruct (_ =? 0); [|apply exact_once, respond_exact].
  apply after_silent; [apply once_raise_ok | apply gets_silent|]. intros b.
  destruct (_ =? 1); apply exact_once, respond_exact.
Qed.

Lemma gogui_rules_legal_moves_once args :
  outcome true once (gogui_rules_legal_moves_cmd args).
Proof.
  unfold gogui_rules_legal_moves_cmd.
  apply after_silent; [apply once_raise_ok | apply gets_silent|]. intros b.
  apply after_silent; [apply once_raise_ok | apply legal_loop_silent|]. intros l.
  apply after_silent; [apply once_raise_ok | apply gets_silent|]. intros b'.
  apply after_silent; [apply once_raise_ok | apply lift_silent|]. intros fl.
  apply after_silent; [apply once_raise_ok | apply lift_silent|]. intros strs.
  apply exact_then_silent; [apply respond_exact | intros _; apply ret_silent].
Qed.

Lemma play_body_exact args : outcome false exact (play_body args).
Proof.
  unfold play_body.
  apply after_silent; [reflexivity | eapply outcome_weaken, lift_silent|]. intros a0.
  apply after_silent; [reflexivity | eapply outcome_weaken, lift_silent|]. intros a1.
  apply after_silent; [reflexivity | eapply outcome_weaken, lift_silent|]. intros color.
  apply after_silent; [reflexivity | eapply outcome_weaken|].
  { unfold color_checker. apply after_silent; [reflexivity | apply gets_silent|].
    intros b. destruct (negb _); apply ret_silent. }
  intros color_validity.
  destruct (negb color_validity); [eapply outcome_weaken, respond_exact|].
  apply after_silent; [reflexivity | eapply outcome_weaken, lift_silent|].
  intros coordinate_validity.
  destruct (negb coordinate_validity); [eapply outcome_weaken, respond_exact|].
  apply after_silent; [reflexivity | eapply outcome_weaken, gets_silent|]. intros b.
  apply after_silent; [reflexivity | eapply outcome_weaken, lift_silent|]. intros coord.
  destruct coord as [| |row col]; try (eapply outcome_weaken, respond_exact).
  apply after_silent; [reflexivity | eapply outcome_weaken|].
  { unfold occupied_checker. apply after_silent; [reflexivity | apply gets_silent|].
    intros b0. destruct (negb _); apply ret_silent. }
  intros occupied_validity.
  destruct (negb occupied_validity); [eapply outcome_weaken, respond_exact|].
  apply after_silent; [reflexivity | eapply outcome_weaken, gets_silent|]. intros b1.
  destruct (check_suicide _ _ _); [eapply outcome_weaken, respond_exact|].
  apply after_silent; [reflexivity | eapply outcome_weaken, capture_detection_silent|].
  intros captures. destruct captures; [eapply outcome_weaken, respond_exact|].
  apply after_silent; [reflexivity | apply board_play_move_silent|]. intros applied.
  apply after_silent; [reflexivity | | intros _; eapply outcome_weaken, respond_exact].
  destruct (negb applied); [|eapply outcome_weaken, ret_silent].
  eapply outcome_weaken.
  apply after_silent; [reflexivity | apply board2d_silent|]. intros txt.
  apply debug_msg_silent.
Qed.

Lemma play_once args : outcome false once (play_cmd args).
Proof. unfold play_cmd. apply try_respond, play_body_exact. Qed.

Lemma genmove_exact args : outcome false exact (genmove_cmd args).
Proof.
  unfold genmove_cmd.
  apply after_silent; [reflexivity | eapply outcome_weaken, lift_silent|]. intros a0.
  apply after_silent; [reflexivity | eapply outcome_weaken, lift_silent|]. intros color.
  apply after_silent; [reflexivity | eapply outcome_weaken, gets_silent|]. intros b.
  apply after_silent; [reflexivity | eapply outcome_weaken, lift_silent|]. intros move_coord.
  apply after_silent; [reflexivity | eapply outcome_weaken, lift_silent|].
  intros move_as_string.
  apply after_silent; [reflexivity | eapply outcome_weaken, lift_silent|]. intros given.
  destruct (negb _); [eapply outcome_weaken, respond_exact|].
  destruct (is_legal _ _ _); [|eapply outcome_weaken, respond_exact].
  apply after_silent; [reflexivity | eapply outcome_weaken, capture_detection_silent|].
  intros captures. destruct (negb captures); [|eapply outcome_weaken, respond_exact].
  apply after_silent; [reflexivity | apply board_play_move_silent|]. intros _.
  eapply outcome_weaken, respond_exact.
Qed.

(** Every handler of the table. *)
Lemma handlers_once (name : string) (handler : list string -> M state unit)
      (args : list string) :
  lookup_command name commands = Some handler ->
  outcome false once (handler args) /\
  (~ In name board_commands -> outcome true once (handler args)).
Proof.
  unfold commands. cbn [lookup_command].
  repeat match goal with
         | |- context [String.eqb ?k name] =>
             destruct (String.eqb k name) eqn:?
         end;
    try discriminate; intros [= <-];
    try (split; [eapply outcome_weaken|intros _];
         first [ apply protocol_version_once | apply quit_once | apply name_once
               | apply version_once | apply showboard_once | apply komi_once
               | apply known_command_once | apply list_commands_once
               | apply gogui_analyze_once | apply gogui_rules_game_id_once
               | apply gogui_rules_board_size_once | apply gogui_rules_side_to_move_once
               | apply gogui_rules_board_once | apply gogui_rules_final_result_once
               | (apply once_then_silent;
                  [apply gogui_rules_legal_moves_once | intros _; apply ret_silent]) ]);
    (split; [first [ apply clear_board_once | apply boardsize_once | apply play_once
                   | apply exact_once, genmove_exact ]|]);
    intros Hnot; exfalso; apply Hnot;
    match goal with
    | H : String.eqb _ name = true |- _ => apply String.eqb_eq in H; subst name
    end; cbn; tauto.
Qed.

(** *** The command loop *)

Lemma invoke_once (name : string) (args : list string) :
  outcome false once (invoke name args) /\
  (~ In name board_commands -> outcome true once (invoke name args)).
Proof.
  unfold invoke. destruct (lookup_command name commands) as [handler|] eqn:Hlook.
  - destruct (handlers_once name handler args Hlook) as [Hany Hquery].
    split; [|intros Hnot]; apply try_log; auto.
  - assert (H : outcome true once
                  (debug_msg ("Unknown command: " +:+ name +:+ nl) >> error "Unknown command")).
    { apply after_silent; [apply once_raise_ok | apply debug_msg_silent|]. intros _.
      apply exact_once, error_exact. }
    split; [eapply outcome_weaken; exact H | intros _; exact H].
Qed.

Lemma has_arg_error_cases (cmd : string) (argnum : Z) (st : state) :
  has_arg_error cmd argnum st = (Ok false, st) \/
  exists usage, has_arg_error cmd argnum st = (Ok true, write_stdout (error_frame usage) st).
Proof.
  unfold has_arg_error. destruct (argmap !! cmd) as [[required usage]|]; [|left; reflexivity].
  destruct (negb _); [right; exists usage|left]; reflexivity.
Qed.

Lemma dispatch_once (name : string) (args : list string) :
  outcome false once (dispatch name args) /\
  (~ In name board_commands -> outcome true once (dispatch name args)).
Proof.
  assert (H : forall kb, outcome kb once (invoke name args) ->
                         outcome kb once (dispatch name args)).
  { intros kb Hinv st. unfold dispatch, bind.
    destruct (has_arg_error_cases name (Z.of_nat (length args)) st) as [->|[usage ->]].
    - apply Hinv.
    - destruct (error_exact usage st) as (out & Ht & HP). exists out. split.
      + destruct kb; [exact Ht | eapply tidy_weaken; exact Ht].
      + cbn in *. rewrite HP. split; auto. }
  destruct (invoke_once name args) as [Hany Hquery]. split; auto.
Qed.

(** X4. Whatever the line, [get_cmd] writes at most one chunk to the
    output, and that chunk is a success or an error response; a line
    that has a token and on which [get_cmd] returns is answered by
    exactly one response, a line without tokens changes nothing.  The
    debug flag stays as it is, and with the flag off nothing is written
    to the debug stream. *)
Theorem get_cmd_one_response (command : string) (st : state) :
  exists out,
    stdout (snd (get_cmd command st)) = stdout st ++ out /\
    (length out <= 1)%nat /\
    Forall is_frame out /\
    (elements_of command = [] -> get_cmd command st = (Ok tt, st)) /\
    (elements_of command <> [] -> is_Ok (fst (get_cmd command st)) = true ->
     length out = 1%nat) /\
    debug_mode (snd (get_cmd command st)) = debug_mode st /\
    (debug_mode st = false -> stderr (snd (get_cmd command st)) = stderr st).
Proof.
  rewrite get_cmd_elements. destruct (elements_of command) as [|name args].
  - exists []. cbn. rewrite app_nil_r. repeat split; auto.
    intros Hnot. exfalso. apply Hnot. reflexivity.
  - cbv iota. destruct (dispatch_once name args) as [Hany _].
    destruct (Hany st) as (out & (Hout & Hframes & Hflag & Herr & _) & Hle & Hone).
    exists out. repeat split; auto. discriminate.
Qed.

(** X5. A command other than boardsize, clear_board, play and genmove
    leaves the board of the session as it is and makes no [play_move]
    call on it, whatever its arguments and whether it returns or
    raises. *)
Theorem query_commands_keep_board
        (command command_name : string) (args : list string) (st : state) :
  elements_of command = command_name :: args ->
  ~ In command_name board_commands ->
  the_board (snd (get_cmd command st)) = the_board st /\
  self_plays (snd (get_cmd command st)) = self_plays st.
Proof.
  intros Helements Hquery. rewrite get_cmd_elements, Helements.
  destruct (dispatch_once command_name args) as [_ Hkeep].
  destruct (Hkeep Hquery st) as (out & (_ & _ & _ & _ & Hboard) & _).
  apply Hboard. reflexivity.
Qed.

Lemma get_cmd_tidy (command : string) (st : state) :
  exists out, tidy false st (snd (get_cmd command st)) out /\ (length out <= 1)%nat.
Proof.
  rewrite get_cmd_elements. destruct (elements_of command) as [|name args].
  - exists []. split; [apply tidy_refl | cbn; lia].
  - destruct (dispatch_once name args) as [Hany _].
    destruct (Hany st) as (out & Ht & Hle & _). exists out. split; assumption.
Qed.

(** X6. Over a whole session, [start_connection] appends to the output
    only protocol responses, at most one for each line of the input; it
    never changes the debug flag, and with the flag off it writes
    nothing to the debug stream. *)
Theorem start_connection_responses (lines : list string) (st : state) :
  exists out,
    stdout (snd (start_connection lines st)) = stdout st ++ out /\
    Forall is_frame out /\
    (length out <= length lines)%nat /\
    debug_mode (snd (start_connection lines st)) = debug_mode st /\
    (debug_mode st = false -> stderr (snd (start_connection lines st)) = stderr st).
Proof.
  assert (H : exists out, tidy false st (snd (start_connection lines st)) out /\
                          (length out <= length lines)%nat).
  { revert st. induction lines as [|line rest IH]; intros st.
    - exists []. split; [apply tidy_refl | cbn; lia].
    - cbn [start_connection]. destruct (len line =? 0).
      + exists []. split; [apply tidy_refl | cbn; lia].
      + unfold bind. destruct (get_cmd_tidy line st) as (out1 & Ht1 & Hle1).
        destruct (get_cmd line st) as [[u|e] st1]; cbn [snd] in *.
        * destruct (IH st1) as (out2 & Ht2 & Hle2). exists (out1 ++ out2). split.
          -- eapply tidy_trans; eassumption.
          -- rewrite length_app. cbn. lia.
        * exists out1. split; [exact Ht1 | cbn; lia]. }
  destruct H as (out & (Hout & Hframes & Hflag & Herr & _) & Hle).
  exists out. repeat split; auto.
Qed.

Lemma not_hash (c : ascii) : c <> "#"%char -> (ord c =? ord "#") = false.
Proof.
  each_char c; intros H; try reflexivity. exfalso. apply H. reflexivity.
Qed.

(** X7. [get_cmd] passes over a line, returning with the session
    exactly as it was, if and only if the line is a comment (its first
    character is the number sign) or is nothing but whitespace once the
    decimal digits at its start are dropped. *)
Theorem get_cmd_passes_over (command : string) (st : state) :
  get_cmd command st = (Ok tt, st) <-> ignored_line command = true.
Proof.
  rewrite <- elements_of_nil, get_cmd_elements.
  destruct (elements_of command) as [|name args]; [tauto|].
  split; [|discriminate]. intros Hrun. exfalso.
  destruct (dispatch_once name args) as [Hany _].
  destruct (Hany st) as (out & (Hout & _) & _ & Hone).
  rewrite Hrun in Hout, Hone. cbn in Hout, Hone. specialize (Hone eq_refl).
  apply (f_equal (@length string)) in Hout. rewrite length_app in Hout. lia.
Qed.

(** X8. A number in front of a command is dropped: a line made of
    decimal digits followed by a text that starts neither with a
    decimal digit nor with the number sign is processed as that text
    alone. *)
Theorem get_cmd_drops_number (digits rest : string) (st : state) :
  digits <> EmptyString ->
  forallb isdecimal (list_ascii_of_string digits) = true ->
  (forall c, index rest 0 = Some c -> isdecimal c = false /\ c <> "#"%char) ->
  get_cmd (digits +:+ rest) st = get_cmd rest st.
Proof.
  intros Hne Hdigits Hstart.
  rewrite (get_cmd_elements (digits +:+ rest)), (get_cmd_elements rest).
  rewrite (elements_of_numbered digits rest Hne Hdigits).
  2:{ intros c Hc. apply (Hstart c Hc). }
  rewrite (elements_of_plain rest); [reflexivity|].
  intros c Hc. destruct (Hstart c Hc) as [Hdec Hhash].
  split; [exact Hdec | apply not_hash, Hhash].
Qed.

(** X9. A line whose first token is no key of the command table is
    answered by the error response [Unknown command], preceded on the
    debug stream, in debug mode, by a message that names the token;
    [get_cmd] returns, and nothing else of the session changes.  The
    token legal_moves, which has an entry in the table of argument
    counts, is answered so when it comes with one argument. *)
Theorem unknown_command_answered
        (command command_name : string) (args : list string) (st : state) :
  elements_of command = command_name :: args ->
  ~ In command_name command_names ->
  (command_name = "legal_moves"%string -> length args = 1%nat) ->
  get_cmd command st
  = (Ok tt,
     write_stdout (error_frame "Unknown command")
       (if debug_mode st
        then write_stderr ("Unknown command: " +:+ command_name +:+ nl) st
        else st)).
Proof.
  intros Helements Hunknown Hlegal.
  rewrite get_cmd_elements, Helements. unfold dispatch, bind.
  rewrite has_arg_error_match.
  - unfold invoke.
    assert (Hnone : lookup_command command_name commands = None).
    { apply lookup_command_none. rewrite command_names_keys. exact Hunknown. }
    rewrite Hnone. unfold debug_msg, error. run.
    destruct (debug_mode st); reflexivity.
  - intros n usage Hin. cbn in Hin.
    destruct Hin as [Hin|[Hin|[Hin|[Hin|[Hin|[Hin|[]]]]]]];
      injection Hin as <- <- <-;
      try (exfalso; apply Hunknown; cbn; tauto).
    rewrite (Hlegal eq_refl). reflexivity.
Qed.

(** X10. [known_command] answers true for exactly the names that
    [get_cmd] finds in the command table, false for every other
    name. *)
Theorem known_command_agrees_with_table (name : string) (rest : list string) (st : state) :
  exists payload,
    known_command_cmd (name :: rest) st = (Ok tt, answered payload st) /\
    (payload = "true"%string <-> exists handler, lookup_command name commands = Some handler) /\
    (payload = "false"%string <-> lookup_command name commands = None).
Proof.
  unfold known_command_cmd. run. cbn [arg nth_error].
  pose proof (existsb_eqb_in name command_names) as Hex.
  pose proof (lookup_command_none name commands) as Hnone.
  rewrite command_names_keys in Hnone.
  destruct (existsb (String.eqb name) command_names) eqn:Hknown.
  - exists "true"%string. split; [reflexivity|].
    destruct (lookup_command name commands) as [handler|].
    + split; [split; eauto | split; discriminate].
    + exfalso. apply Hnone; [reflexivity | apply Hex; reflexivity].
  - exists "false"%string. split; [reflexivity|].
    destruct (lookup_command name commands) as [handler|].
    + exfalso. assert (Hin : In name command_names).
      { destruct (in_dec string_dec name command_names) as [Hin|Hout]; [exact Hin|].
        apply Hnone in Hout. discriminate Hout. }
      apply Hex in Hin. discriminate Hin.
    + split; [split; [discriminate | intros [h Hh]; discriminate Hh] | tauto].
Qed.

(** *** [genmove] *)

(** The colour tokens: a token whose lower-case form is a key of the
    colour table is that key or differs from it by case only, and is
    then no key itself. *)
Lemma lower_one_char (a0 : string) (x : ascii) :
  lower a0 = String x EmptyString ->
  exists c, a0 = String c EmptyString /\ lower_char c = x.
Proof.
  destruct a0 as [|c [|c' a0]]; cbn; try discriminate.
  intros [= <-]. exists c. split; reflexivity.
Qed.

Lemma lower_never_BORDER (a0 : string) : lower a0 <> "BORDER"%string.
Proof.
  destruct a0 as [|c a0]; cbn; [discriminate|].
  intros [= Hc _]. revert Hc. each_char c; discriminate.
Qed.

Lemma color_token_cases (a0 : string) (color : Z) :
  color_to_int (lower a0) = Ok color ->
  (lower a0 = a0 /\ color_to_int a0 = Ok color) \/
  (lower a0 <> a0 /\ color_to_int a0 = Raise (KeyError a0)).
Proof.
  unfold color_to_int at 1.
  destruct (String.eqb (lower a0) "b") eqn:Hb;
    [|destruct (String.eqb (lower a0) "w") eqn:Hw;
      [|destruct (String.eqb (lower a0) "e") eqn:He;
        [|destruct (String.eqb (lower a0) "BORDER") eqn:HB; [|discriminate]]]].
  4:{ apply String.eqb_eq in HB. exfalso. exact (lower_never_BORDER a0 HB). }
  all: match goal with
       | H : String.eqb (lower _) _ = true |- _ =>
           apply String.eqb_eq in H; pose proof H as Hlow;
           apply lower_one_char in H as (c & -> & Hc)
       end;
    intros [= <-]; revert Hc; clear; each_char c; intros Hc; try discriminate Hc;
    first [ left; split; reflexivity
          | right; split; [discriminate | reflexivity] ].
Qed.

Lemma point_to_coord_exn (p : point) (size : Z) (e : exn) :
  point_to_coord p size = Raise e -> is_Exception e = true.
Proof.
  unfold point_to_coord. destruct p as [i|]; [|discriminate].
  destruct (_ =? 0); [|discriminate]. intros [= <-]. reflexivity.
Qed.

Lemma format_point_exn (c : coord) (e : exn) :
  format_point c = Raise e -> is_Exception e = true.
Proof.
  unfold format_point. destruct (negb _); [intros [= <-]; reflexivity|].
  destruct c as [| |row col]; try discriminate; try (intros [= <-]; reflexivity).
  destruct (_ || _); [intros [= <-]; reflexivity|].
  destruct (index _ _); [discriminate | intros [= <-]; reflexivity].
Qed.

Lemma genmove_run (a0 : string) (rest : list string) (color : Z) (st : state) :
  color_to_int (lower a0) = Ok color ->
  let b := the_board st in
  let move := get_move b color in
  genmove_cmd (a0 :: rest) st =
  match move_text b color with
  | Raise e => (Raise e, st)
  | Ok s =>
      match color_to_int a0 with
      | Raise e => (Raise e, st)
      | Ok given =>
          if negb (given =? current_player b)
          then (Ok tt, answered ("illegal move: " +:+ dquote +:+ a0 +:+ dquote +:+
                                 " wrong color") st)
          else if is_legal b move color then
                 let st1 := log_play monitor_board move color st in
                 match capture_of b move color with
                 | Raise e => (Raise e, st1)
                 | Ok true => (Ok tt, answered "resign" st1)
                 | Ok false =>
                     (Ok tt,
                      answered s (log_play self_board move color
                                    (set_board (fst (play_move b move color)) st1)))
                 end
               else (Ok tt, answered ("Illegal move: " +:+ s) st)
      end
  end.
Proof.
  intros Hcolor b move. unfold genmove_cmd, move_text. run. cbn [arg nth_error].
  rewrite Hcolor. fold b. fold move.
  destruct (point_to_coord move (board_size b)) as [move_coord|e]; [|reflexivity].
  cbn [pure_bind]. destruct (format_point move_coord) as [s|e]; [|reflexivity].
  destruct (color_to_int a0) as [given|e]; [|reflexivity].
  destruct (negb (given =? current_player b)); [reflexivity|].
  destruct (is_legal b move color); [|reflexivity].
  rewrite capture_detection_eq. fold b.
  destruct (capture_of b move color) as [[|]|e]; try reflexivity.
  cbn [negb]. unfold board_play_move. run.
  change (the_board (log_play monitor_board move color st)) with b.
  destruct (play_move b move color) as [b' applied]. reflexivity.
Qed.

(** X11. [genmove] looks its colour token up twice, the second time
    without converting it to lower case: for a token that names a
    colour in upper case ([B], [W], [E]) the command raises, an
    exception of class Exception that is the KeyError of the token
    whenever the move of the engine has a text; nothing is answered and
    the session is as before.  [get_cmd] therefore logs and re-raises
    it, and the command loop ends there. *)
Theorem genmove_upper_case_color_raises
        (a0 : string) (rest : list string) (color : Z) (st : state) :
  color_to_int (lower a0) = Ok color ->
  lower a0 <> a0 ->
  exists e,
    genmove_cmd (a0 :: rest) st = (Raise e, st) /\
    is_Exception e = true /\
    (forall s, move_text (the_board st) color = Ok s -> e = KeyError a0) /\
    (forall command more,
        elements_of command = [ "genmove"%string; a0 ] ->
        start_connection (command :: more) st = (Raise e, logged e st)).
Proof.
  intros Hcolor Hupper.
  destruct (color_token_cases a0 color Hcolor) as [[Hlow _]|[_ Hkey]]; [congruence|].
  pose proof (genmove_run a0 rest color st Hcolor) as Hrun. cbv zeta in Hrun.
  assert (Hone : forall r, genmove_cmd (a0 :: r) st = genmove_cmd (a0 :: rest) st).
  { intros r. rewrite Hrun. apply (genmove_run a0 r color st Hcolor). }
  rewrite Hkey in Hrun.
  assert (H : exists e, genmove_cmd (a0 :: rest) st = (Raise e, st) /\
                        is_Exception e = true /\
                        (forall s, move_text (the_board st) color = Ok s -> e = KeyError a0)).
  { destruct (move_text (the_board st) color) as [s|e] eqn:Htext.
    - exists (KeyError a0). repeat split; auto.
    - exists e. repeat split; auto; [|discriminate].
      unfold move_text in Htext.
      destruct (point_to_coord _ _) as [c|e'] eqn:Hc; cbn [pure_bind] in Htext.
      + eapply format_point_exn; exact Htext.
      + injection Htext as <-. eapply point_to_coord_exn; exact Hc. }
  destruct H as (e & Hraise & Hclass & Hkind). exists e. repeat split; auto.
  intros command more Helements. cbn [start_connection].
  destruct (len command =? 0) eqn:Hlen.
  { apply len_0 in Hlen. subst command. rewrite elements_of_empty in Helements.
    discriminate Helements. }
  unfold bind. rewrite get_cmd_elements, Helements. unfold dispatch, bind.
  rewrite has_arg_error_match.
  2:{ intros n usage Hin. change (n = 1). cbn in Hin.
      destruct Hin as [Hin|[Hin|[Hin|[Hin|[Hin|[Hin|[]]]]]]]; congruence. }
  unfold invoke. cbn [lookup_command commands String.eqb Ascii.eqb Bool.eqb].
  unfold try_except. rewrite (Hone []), Hraise, Hclass.
  unfold debug_msg, logged. run.
  destruct (debug_mode st) eqn:Hd; cbn; rewrite ?Hd; reflexivity.
Qed.

Lemma remove_first_some_in (x : Z) (l r : list Z) :
  remove_first x l = Some r -> In x l.
Proof.
  revert r. induction l as [|y l IH]; intros r; cbn; [discriminate|].
  destruct (y =? x) eqn:Hy.
  - apply Z.eqb_eq in Hy. auto.
  - destruct (remove_first x l) as [r'|]; [|discriminate]. intros _. right. eapply IH.
    reflexivity.
Qed.

Lemma capture_of_returns (b : board) (p : point) (color : Z) (captures : bool) :
  capture_of b p color = Ok captures ->
  exists x, p = Some x /\ In x (get_empty_points b).
Proof.
  unfold capture_of, list_remove. destruct p as [x|]; [|discriminate].
  destruct (remove_first x _) as [r|] eqn:Hr; [|discriminate].
  intros _. exists x. split; [reflexivity|]. eapply remove_first_some_in. exact Hr.
Qed.

(** X12. [genmove] with a colour token in lower case, when the move
    of the engine has a text: the move is played on the board, once,
    and answered with its text exactly when the colour is the one to
    move, the board finds the move legal and [capture_detection]
    returns False for it; that move is then a point, never the pass,
    and one of the moves [legal_move_helper] lists.  In every other
    case the board is left as it is: the answer is the wrong-colour
    message, [Illegal move:] with the text, or [resign] when the move
    would capture, and when [capture_detection] raises (as it does for
    the pass) so does the command, without an answer. *)
Theorem genmove_plays_engine_move
        (a0 : string) (rest : list string) (color : Z) (s : string) (st : state) :
  color_to_int (lower a0) = Ok color ->
  lower a0 = a0 ->
  move_text (the_board st) color = Ok s ->
  let b := the_board st in
  let move := get_move b color in
  let probe := fst (capture_detection move color st) in
  exists r st',
    genmove_cmd (a0 :: rest) st = (r, st') /\
    (color = current_player b -> is_legal b move color = true -> probe = Ok false ->
     r = Ok tt /\
     stdout st' = stdout st ++ [success_frame s] /\
     the_board st' = fst (play_move b move color) /\
     self_plays st' = self_plays st ++ [(self_board, move, color)] /\
     exists p l, move = Some p /\ fst (legal_move_helper st) = Ok l /\ In p l) /\
    (~ (color = current_player b /\ is_legal b move color = true /\ probe = Ok false) ->
     the_board st' = the_board st /\ self_plays st' = self_plays st) /\
    (color <> current_player b ->
     r = Ok tt /\
     stdout st' = stdout st ++ [success_frame ("illegal move: " +:+ dquote +:+ a0 +:+
                                               dquote +:+ " wrong color")]) /\
    (color = current_player b -> is_legal b move color = false ->
     r = Ok tt /\ stdout st' = stdout st ++ [success_frame ("Illegal move: " +:+ s)]) /\
    (color = current_player b -> is_legal b move color = true -> probe = Ok true ->
     r = Ok tt /\ stdout st' = stdout st ++ [success_frame "resign"]) /\
    (color = current_player b -> is_legal b move color = true ->
     forall e, probe = Raise e -> r = Raise e /\ stdout st' = stdout st).
Proof.
  intros Hcolor Hlow Htext b move probe.
  pose proof (genmove_run a0 rest color st Hcolor) as Hrun. cbv zeta in Hrun.
  fold b move in Hrun. fold b in Htext. rewrite Htext in Hrun.
  assert (Hgiven : color_to_int a0 = Ok color) by (rewrite <- Hlow at 1; exact Hcolor).
  rewrite Hgiven in Hrun.
  assert (Hprobe : probe = capture_of b move color).
  { unfold probe. rewrite capture_detection_eq. reflexivity. }
  rewrite Hprobe. clearbody probe. clear Hprobe.
  rewrite Hrun. clear Hrun.
  match goal with
  | |- exists r st', ?X = (r, st') /\ _ =>
      exists (fst X), (snd X); split; [apply surjective_pairing|]
  end.
  destruct (color =? current_player b) eqn:Hturn; cbn [negb fst snd].
  2:{ apply Z.eqb_neq in Hturn.
      split; [|split; [|split; [|split; [|split]]]];
        try (intros Hc; exfalso; exact (Hturn Hc)).
      - intros _. split; reflexivity.
      - intros _. split; reflexivity. }
  apply Z.eqb_eq in Hturn.
  destruct (is_legal b move color) eqn:Hlegal; cbn [fst snd].
  2:{ split; [|split; [|split; [|split; [|split]]]];
        try (intros _ Hc; discriminate Hc).
      - intros _. split; reflexivity.
      - intros Hc. exfalso. exact (Hc Hturn).
      - intros _ _. split; reflexivity. }
  destruct (capture_of b move color) as [[|]|e] eqn:Hcap; cbn [fst snd].
  - split; [|split; [|split; [|split; [|split]]]];
      try (intros _ _ Hc; discriminate Hc).
    + intros _. split; [reflexivity | apply self_plays_probe].
    + intros Hc. exfalso. exact (Hc Hturn).
    + intros _ Hc. discriminate Hc.
    + intros _ _ _. split; reflexivity.
    + intros _ _ e Hc. discriminate Hc.
  - split; [|split; [|split; [|split; [|split]]]];
      try (intros _ _ Hc; discriminate Hc).
    + intros _ _ _.
      split; [reflexivity|]. split; [reflexivity|]. split; [reflexivity|].
      split.
      { unfold answered, write_stdout, self_plays. cbn. rewrite List.filter_app.
        cbn. rewrite List.filter_app. cbn. rewrite app_nil_r. reflexivity. }
      destruct (capture_of_returns b move color false Hcap) as (p & Hp & Hin).
      destruct (legal_move_helper_filter st) as (st1 & Hhelper & _). fold b in Hhelper.
      exists p. eexists. split; [exact Hp|]. rewrite Hhelper. split; [reflexivity|].
      apply List.filter_In. split; [exact Hin|].
      unfold keeps. rewrite <- Hturn, <- Hp, Hlegal, Hcap. reflexivity.
    + intros Hc. exfalso. apply Hc. auto.
    + intros Hc. exfalso. exact (Hc Hturn).
    + intros _ Hc. discriminate Hc.
    + intros _ _ e Hc. discriminate Hc.
  - split; [|split; [|split; [|split; [|split]]]];
      try (intros _ _ Hc; discriminate Hc).
    + intros _. split; [reflexivity | apply self_plays_probe].
    + intros Hc. exfalso. exact (Hc Hturn).
    + intros _ Hc. discriminate Hc.
    + intros _ _ e' [= <-]. split; reflexivity.
Qed.

(** *** The other commands *)

Lemma format_all_length (size : Z) (l : list Z) (fl : list string) :
  format_all size l = Ok fl -> length fl = length l.
Proof.
  revert fl. induction l as [|p l IH]; intros fl; cbn [format_all].
  - intros [= <-]. reflexivity.
  - destruct (point_to_coord (Some p) size) as [c|]; [|discriminate]. cbn [pure_bind].
    destruct (format_point c) as [s|]; [|discriminate]. cbn [pure_bind].
    destruct (format_all size l) as [r|]; [|discriminate]. cbn [pure_bind].
    intros [= <-]. cbn [length]. f_equal. apply IH. reflexivity.
Qed.

(** X13. [gogui-rules_final_result] always returns with one answer and
    the board untouched: [unknown] exactly when some empty point is
    legal for the player to move and [capture_detection] returns False
    for it, which is when [gogui-rules_legal_moves] has a move to list;
    otherwise [white] when the player to move has the code 1, [black]
    when not. *)
Theorem final_result_answers (args : list string) (st : state) :
  let b := the_board st in
  let color := current_player b in
  exists payload st1,
    gogui_rules_final_result_cmd args st = (Ok tt, answered payload st1) /\
    only_probed st st1 /\
    (payload = "unknown"%string <->
     exists p, In p (get_empty_points b) /\
               is_legal b (Some p) color = true /\
               fst (capture_detection (Some p) color st) = Ok false) /\
    (payload <> "unknown"%string ->
     payload = if color =? 1 then "white"%string else "black"%string) /\
    (forall strs st2,
        gogui_rules_legal_moves_cmd args st = (Ok strs, st2) ->
        payload = "unknown"%string <-> strs <> []).
Proof.
  intros b color.
  destruct (legal_move_helper_filter st) as (st1 & Hhelper & Hprobed). fold b color in Hhelper.
  set (l := List.filter (keeps b color) (get_empty_points b)) in *.
  assert (Hl : forall p, In p l <->
                         In p (get_empty_points b) /\
                         is_legal b (Some p) color = true /\
                         fst (capture_detection (Some p) color st) = Ok false).
  { intros p. unfold l. rewrite List.filter_In, (keeps_spec b color p st eq_refl). tauto. }
  assert (Hboard : the_board st1 = b) by apply Hprobed.
  assert (Hmoves : forall strs st2,
             gogui_rules_legal_moves_cmd args st = (Ok strs, st2) -> length strs = length l).
  { intros strs st2. unfold gogui_rules_legal_moves_cmd. run.
    pose proof Hhelper as Hh. unfold legal_move_helper in Hh. revert Hh. run.
    fold b color. intros ->. rewrite Hboard.
    destruct (format_all (board_size b) l) as [fl|e] eqn:Hfl; [|discriminate].
    destruct (sort_by_first_char_spec fl (format_all_nonempty _ _ _ Hfl))
      as (sorted & -> & Hperm & _).
    intros [= <- _]. rewrite <- (Permutation_length Hperm).
    eapply format_all_length. exact Hfl. }
  unfold gogui_rules_final_result_cmd. run. rewrite Hhelper.
  destruct l as [|p l'] eqn:El.
  - change (Z.of_nat (length (@nil Z)) =? 0) with true. cbv beta iota.
    rewrite Hboard. fold color.
    exists (if color =? 1 then "white"%string else "black"%string), st1.
    split; [destruct (color =? 1); reflexivity|]. split; [exact Hprobed|].
    split; [|split].
    + split.
      * destruct (color =? 1); discriminate.
      * intros (p & Hp). apply Hl in Hp. destruct Hp.
    + reflexivity.
    + intros strs st2 Hrun. apply Hmoves in Hrun.
      destruct strs; [|discriminate Hrun].
      split; [destruct (color =? 1); discriminate | congruence].
  - replace (Z.of_nat (length (p :: l')) =? 0) with false
      by (symmetry; apply Z.eqb_neq; cbn [length]; lia).
    cbv beta iota. exists "unknown"%string, st1. split; [reflexivity|]. split; [exact Hprobed|].
    split; [|split].
    + split; [intros _|reflexivity]. exists p. apply Hl. left. reflexivity.
    + congruence.
    + intros strs st2 Hrun. apply Hmoves in Hrun.
      destruct strs; [discriminate Hrun|]. split; [discriminate | reflexivity].
Qed.

(** X14. [quit], whatever its arguments, is answered with the empty
    success response and raises SystemExit, which [get_cmd] neither
    logs nor catches: the command loop ends there and reads no further
    line. *)
Theorem quit_ends_session (command : string) (args rest : list string) (st : state) :
  elements_of command = "quit"%string :: args ->
  get_cmd command st = (Raise SystemExit, answered EmptyString st) /\
  start_connection (command :: rest) st = (Raise SystemExit, answered EmptyString st).
Proof.
  intros Helements.
  assert (Hrun : get_cmd command st = (Raise SystemExit, answered EmptyString st)).
  { rewrite get_cmd_elements, Helements. unfold dispatch, bind.
    rewrite has_arg_error_match; [reflexivity|].
    intros n usage Hin. cbn in Hin.
    destruct Hin as [Hin|[Hin|[Hin|[Hin|[Hin|[Hin|[]]]]]]]; discriminate Hin. }
  split; [exact Hrun|]. cbn [start_connection].
  destruct (len command =? 0) eqn:Hlen.
  { apply len_0 in Hlen. subst command. rewrite elements_of_empty in Helements.
    discriminate Helements. }
  unfold bind. rewrite Hrun. reflexivity.
Qed.

(** X15. [play] never accepts the pass: for a colour token that names
    a colour and a move token that reads pass in any case, the answer
    is the wrong-colour message when it is not the turn of the colour
    and the wrong-coordinate message when it is; the session is not
    changed otherwise. *)
Theorem play_rejects_pass (a0 a1 : string) (color : Z) (st : state) :
  color_to_int (lower a0) = Ok color ->
  lower a1 = "pass"%string ->
  play_cmd [a0; a1] st
  = (Ok tt,
     answered (illegal_move_message a0 a1 (if color =? current_player (the_board st)
                                           then "wrong coordinate" else "wrong color")) st).
Proof.
  intros Hcolor Hpass. rewrite <- illegal_move_message_eq. apply try_play_ok.
  rewrite (play_body_stages [a0; a1] a0 a1 color st eq_refl eq_refl Hcolor).
  destruct (color =? current_player (the_board st)); [|reflexivity]. cbn [negb].
  destruct a1 as [|c1 [|c2 a1]]; try discriminate Hpass.
  rewrite (coordinate_checker_eq a0 _ c2 (index_1_cons c1 c2 a1)).
  cbn in Hpass. injection Hpass as _ Hc2 _.
  assert (Hdigit : isdigit c2 = false).
  { revert Hc2. clear. each_char c2; intros H; try reflexivity; discriminate H. }
  rewrite Hdigit. reflexivity.
Qed.

(** X16. [capture_detection] returns exactly for the points that the
    board lists as empty; for the pass and for every other point it
    raises the ValueError of [list.remove].  Either way it has played
    the move on its copy and the board of the session is the same. *)
Theorem capture_detection_raises_off_empty (p : point) (color : Z) (st : state) :
  let b := the_board st in
  ((exists x, p = Some x /\ In x (get_empty_points b)) <->
   exists captures, fst (capture_detection p color st) = Ok captures) /\
  (~ (exists x, p = Some x /\ In x (get_empty_points b)) <->
   fst (capture_detection p color st)
   = Raise (ValueError "list.remove(x): x not in list")) /\
  snd (capture_detection p color st) = log_play monitor_board p color st /\
  the_board (snd (capture_detection p color st)) = b.
Proof.
  intros b. rewrite capture_detection_eq. cbn [fst snd]. fold b.
  assert (Hcases : (exists x, p = Some x /\ In x (get_empty_points b)) /\
                   (exists captures, capture_of b p color = Ok captures) \/
                   ~ (exists x, p = Some x /\ In x (get_empty_points b)) /\
                   capture_of b p color = Raise (ValueError "list.remove(x): x not in list")).
  { unfold capture_of, list_remove. destruct p as [x|].
    - destruct (remove_first x (get_empty_points b)) as [r|] eqn:Hr.
      + left. split; [|eexists; reflexivity].
        exists x. split; [reflexivity|]. eapply remove_first_some_in. exact Hr.
      + right. split; [|reflexivity]. intros (y & [= <-] & Hin).
        destruct (remove_first_in x _ Hin) as (r & Hr'). congruence.
    - right. split; [|reflexivity]. intros (y & Hy & _). discriminate Hy. }
  split; [|split; [|split; reflexivity]].
  - destruct Hcases as [[Hin Hok]|[Hout Hraise]]; [tauto|].
    split; [tauto|]. intros (captures & Hc). congruence.
  - destruct Hcases as [[Hin (captures & Hok)]|[Hout Hraise]]; [|tauto].
    split; [tauto|]. intros Hc. congruence.
Qed.

(** *** Commands that raise *)

Lemma only_probed_trans (st st1 st2 : state) :
  only_probed st st1 -> only_probed st1 st2 -> only_probed st st2.
Proof.
  intros (Hb1 & Hk1 & Hd1 & Ho1 & He1 & calls1 & Hp1 & Hc1)
         (Hb2 & Hk2 & Hd2 & Ho2 & He2 & calls2 & Hp2 & Hc2).
  unfold only_probed. repeat split; try congruence.
  exists (calls1 ++ calls2). split.
  - rewrite Hp2, Hp1, app_assoc. reflexivity.
  - apply Forall_app. split; assumption.
Qed.

Lemma quiet_atomic {A} (m : M state A) : quiet m -> atomic m.
Proof. intros H st _. apply H. Qed.

Lemma unfailing_atomic {A} (m : M state A) :
  (forall st, is_Ok (fst (m st)) = true) -> atomic m.
Proof. intros H st Hraise. rewrite H in Hraise. discriminate Hraise. Qed.

Lemma atomic_bind {A B} (m : M state A) (k : A -> M state B) :
  quiet m -> (forall a, atomic (k a)) -> atomic (bind m k).
Proof.
  intros Hm Hk st. unfold bind. specialize (Hm st).
  destruct (m st) as [[a|e] st1]; cbn [fst snd] in *.
  - intros Hraise. eapply only_probed_trans; [exact Hm | apply Hk, Hraise].
  - intros _. exact Hm.
Qed.

Lemma quiet_bind {A B} (m : M state A) (k : A -> M state B) :
  quiet m -> (forall a, quiet (k a)) -> quiet (bind m k).
Proof.
  intros Hm Hk st. unfold bind. specialize (Hm st).
  destruct (m st) as [[a|e] st1]; cbn [fst snd] in *.
  - eapply only_probed_trans; [exact Hm | apply Hk].
  - exact Hm.
Qed.

Lemma quiet_ret {A} (a : A) : quiet (ret a : M state A).
Proof. intros st. apply only_probed_refl. Qed.

Lemma quiet_raise {A} (e : exn) : quiet (raise e : M state A).
Proof. intros st. apply only_probed_refl. Qed.

Lemma quiet_lift {A} (r : result A) : quiet (lift r : M state A).
Proof. intros st. apply only_probed_refl. Qed.

Lemma quiet_gets {A} (f : state -> A) : quiet (gets f).
Proof. intros st. apply only_probed_refl. Qed.

Lemma quiet_capture_detection (p : point) (color : Z) : quiet (capture_detection p color).
Proof.
  intros st. rewrite capture_detection_eq. cbn [snd].
  apply (only_probed_log _ _ p color), only_probed_refl.
Qed.

Lemma quiet_legal_loop (color : Z) (points acc : list Z) :
  quiet (legal_loop color points acc).
Proof.
  revert acc. induction points as [|p rest IH]; intros acc; cbn [legal_loop].
  - apply quiet_ret.
  - apply quiet_bind; [apply quiet_gets|]. intros b.
    destruct (is_legal b (Some p) color); [|apply IH].
    apply quiet_bind; [apply quiet_capture_detection|]. intros captures.
    destruct (negb captures); apply IH.
Qed.

Lemma atomic_respond (response : string) : atomic (respond response).
Proof. apply unfailing_atomic. intros st. reflexivity. Qed.

Lemma atomic_reset_respond (size : Z) : atomic (reset size >> respond EmptyString).
Proof.
  intros st. unfold reset. run.
  destruct (board_reset (the_board st) size) as [b'|e]; cbn [fst snd].
  - discriminate.
  - intros _. apply only_probed_refl.
Qed.

Lemma atomic_then_unfailing {A B} (m : M state A) (k : A -> M state B) :
  atomic m -> (forall a st, is_Ok (fst (k a st)) = true) -> atomic (bind m k).
Proof.
  intros Hm Hk st. unfold bind. specialize (Hm st).
  destruct (m st) as [[a|e] st1]; cbn [fst snd is_Ok] in *.
  - rewrite Hk. discriminate.
  - exact Hm.
Qed.

Lemma handlers_atomic (name : string) (handler : list string -> M state unit)
      (args : list string) :
  lookup_command name commands = Some handler ->
  name <> "quit"%string ->
  atomic (handler args).
Proof.
  unfold commands. cbn [lookup_command].
  repeat match goal with
         | |- context [String.eqb ?k name] =>
             destruct (String.eqb k name) eqn:?
         end;
    try discriminate; intros [= <-] Hquit.
  - apply atomic_respond.
  - exfalso. apply Hquit. symmetry. apply String.eqb_eq. assumption.
  - apply atomic_respond.
  - unfold boardsize_cmd. apply atomic_bind; [apply quiet_lift|]. intros a0.
    destruct (py_int a0); [apply atomic_reset_respond | apply quiet_atomic, quiet_raise].
  - unfold showboard_cmd. apply atomic_bind.
    + unfold board2d. apply quiet_bind; [apply quiet_gets | intros b; apply quiet_ret].
    + intros s. apply atomic_respond.
  - unfold clear_board_cmd. apply atomic_bind; [apply quiet_gets|]. intros b. apply atomic_reset_respond.
  - unfold komi_cmd. apply atomic_bind; [apply quiet_lift|]. intros a0.
    destruct (float_of_str a0); [|apply quiet_atomic, quiet_raise].
    apply unfailing_atomic. intros st. reflexivity.
  - apply atomic_respond.
  - unfold known_command_cmd. apply atomic_bind; [apply quiet_lift|]. intros a0.
    destruct (existsb _ _); apply atomic_respond.
  - unfold genmove_cmd.
    apply atomic_bind; [apply quiet_lift|]. intros a0.
    apply atomic_bind; [apply quiet_lift|]. intros color.
    apply atomic_bind; [apply quiet_gets|]. intros b.
    apply atomic_bind; [apply quiet_lift|]. intros move_coord.
    apply atomic_bind; [apply quiet_lift|]. intros move_as_string.
    apply atomic_bind; [apply quiet_lift|]. intros given.
    destruct (negb _); [apply atomic_respond|].
    destruct (is_legal _ _ _); [|apply atomic_respond].
    apply atomic_bind; [apply quiet_capture_detection|]. intros captures.
    destruct (negb captures); [|apply atomic_respond].
    apply unfailing_atomic. intros st. unfold board_play_move. run.
    destruct (play_move _ _ _). reflexivity.
  - apply atomic_respond.
  - apply unfailing_atomic. intros st.
    destruct (play_cmd_answers args st) as (payload & st1 & -> & _). reflexivity.
  - apply atomic_then_unfailing; [|reflexivity].
    unfold gogui_rules_legal_moves_cmd.
    apply atomic_bind; [apply quiet_gets|]. intros b.
    apply atomic_bind; [apply quiet_legal_loop|]. intros l.
    apply atomic_bind; [apply quiet_gets|]. intros b'.
    apply atomic_bind; [apply quiet_lift|]. intros fl.
    apply atomic_bind; [apply quiet_lift|]. intros strs.
    apply unfailing_atomic. intros st. reflexivity.
  - unfold gogui_rules_final_result_cmd. apply atomic_bind.
    + unfold legal_move_helper. apply quiet_bind; [apply quiet_gets|].
      intros b. apply quiet_legal_loop.
    + intros moves. destruct (_ =? 0); [|apply atomic_respond].
      apply atomic_bind; [apply quiet_gets|]. intros b. destruct (_ =? 1); apply atomic_respond.
  - unfold gogui_rules_side_to_move_cmd. apply atomic_bind; [apply quiet_gets|]. intros b.
    apply atomic_respond.
  - apply atomic_respond.
  - unfold gogui_rules_board_cmd. apply atomic_bind; [apply quiet_gets|]. intros b.
    apply atomic_bind; [apply quiet_lift|]. intros s. apply atomic_respond.
  - apply atomic_respond.
  - unfold gogui_rules_board_size_cmd. apply atomic_bind; [apply quiet_gets|]. intros b.
    apply atomic_respond.
Qed.

(** X17. A command that [get_cmd] ends by raising has changed nothing
    a client can see, quit apart: no response was written and the
    board, the [play_move] calls made on it and the komi are as before
    the command. *)
Theorem failed_command_changes_nothing
        (command command_name : string) (args : list string)
        (e : exn) (st st' : state) :
  elements_of command = command_name :: args ->
  command_name <> "quit"%string ->
  get_cmd command st = (Raise e, st') ->
  stdout st' = stdout st /\
  the_board st' = the_board st /\
  self_plays st' = self_plays st /\
  komi st' = komi st.
Proof.
  intros Helements Hquit. rewrite get_cmd_elements, Helements. unfold dispatch, bind.
  destruct (has_arg_error_cases command_name (Z.of_nat (length args)) st)
    as [->|[usage ->]]; [|discriminate].
  unfold invoke. destruct (lookup_command command_name commands) as [handler|] eqn:Hlook.
  - pose proof (handlers_atomic command_name handler args Hlook Hquit st) as Hatomic.
    unfold try_except. destruct (handler args st) as [[u|e1] st1]; [discriminate|].
    cbn [fst snd is_Ok] in Hatomic. specialize (Hatomic eq_refl).
    destruct Hatomic as (Hb & Hk & Hd & Ho & He & calls & Hp & Hcalls).
    assert (Hself : self_plays st1 = self_plays st).
    { unfold self_plays. rewrite Hp, List.filter_app.
      replace (List.filter _ calls) with (@nil (target * point * Z)); [apply app_nil_r|].
      symmetry. clear - Hcalls. induction Hcalls as [|call calls Hcall _ IH]; [reflexivity|].
      cbn. rewrite Hcall. exact IH. }
    assert (Hlog : forall s, stdout s = stdout st1 /\ the_board s = the_board st1 /\
                             self_plays s = self_plays st1 /\ komi s = komi st1 ->
                             stdout s = stdout st /\ the_board s = the_board st /\
                             self_plays s = self_plays st /\ komi s = komi st).
    { intros s (H1 & H2 & H3 & H4). repeat split; congruence. }
    destruct (is_Exception e1).
    + unfold debug_msg. run.
      destruct (debug_mode st1) eqn:Hdebug; cbn; rewrite ?Hdebug; cbn;
        intros [= _ <-]; apply Hlog; repeat split; reflexivity.
    + intros [= _ <-]. apply Hlog. repeat split; reflexivity.
  - unfold debug_msg, error. run. destruct (debug_mode st); discriminate.
Qed.

(** *** The picture of the board *)

Lemma append_nil_r (s : string) : s +:+ EmptyString = s.
Proof.
  induction s as [|c s IH]; [reflexivity|].
  change (String c (s +:+ EmptyString) = String c s). rewrite IH. reflexivity.
Qed.

Lemma append_assoc (s1 s2 s3 : string) : (s1 +:+ s2) +:+ s3 = s1 +:+ (s2 +:+ s3).
Proof.
  induction s1 as [|c s1 IH]; [reflexivity|].
  change (String c ((s1 +:+ s2) +:+ s3) = String c (s1 +:+ (s2 +:+ s3))).
  rewrite IH. reflexivity.
Qed.

Lemma In_range (n x : Z) : In x (range n) <-> 0 <= x < n.
Proof.
  unfold range. rewrite in_map_iff. split.
  - intros (k & <- & Hk). apply in_seq in Hk. lia.
  - intros Hx. exists (Z.to_nat x). split; [lia | apply in_seq; lia].
Qed.

Lemma length_range (n : Z) : length (range n) = Z.to_nat n.
Proof. unfold range. rewrite length_map, length_seq. reflexivity. Qed.

Lemma shows_glyph (v : Z) (c : ascii) :
  shows v c -> In c [ "X"; "O"; "." ]%char.
Proof. intros [[_ ->]|[(_ & _ & ->)|(_ & _ & _ & ->)]]; cbn; auto. Qed.

Lemma board_row_spec (b : board) (start : Z) (cols : list Z) (str : string) :
  match board_row b start cols str with
  | Ok text =>
      exists cells, text = str +:+ string_of_list_ascii cells /\
                    Forall2 (fun i c => shown b (start + i) c) cols cells
  | Raise e => exists i, In i cols /\ unshowable b (start + i) e
  end.
Proof.
  revert str. induction cols as [|i cols IH]; intros str; cbn [board_row].
  - exists []. split; [symmetry; apply append_nil_r | constructor].
  - destruct (array_index (board_array b) (start + i)) as [v|e] eqn:Hcell; cbn [pure_bind].
    2:{ exists i. split; [left; reflexivity | left; exact Hcell]. }
    assert (Hstep : forall g, shows v g ->
              match board_row b start cols (str +:+ String g EmptyString) with
              | Ok text =>
                  exists cells, text = str +:+ string_of_list_ascii cells /\
                                Forall2 (fun i c => shown b (start + i) c) (i :: cols) cells
              | Raise e => exists i0, In i0 (i :: cols) /\ unshowable b (start + i0) e
              end).
    { intros g Hg. specialize (IH (str +:+ String g EmptyString)).
      destruct (board_row b start cols _) as [text|e].
      - destruct IH as (cells & -> & Hcells). exists (g :: cells). split.
        + rewrite append_assoc. reflexivity.
        + constructor; [exists v; split; assumption | exact Hcells].
      - destruct IH as (i0 & Hin & Hbad). exists i0. split; [right; exact Hin | exact Hbad]. }
    destruct (v =? BLACK) eqn:Hblack.
    { apply Z.eqb_eq in Hblack. apply Hstep. left. split; [exact Hblack | reflexivity]. }
    apply Z.eqb_neq in Hblack. destruct (v =? WHITE) eqn:Hwhite.
    { apply Z.eqb_eq in Hwhite. apply Hstep. right. left. auto. }
    apply Z.eqb_neq in Hwhite. destruct (v =? EMPTY) eqn:Hempty.
    { apply Z.eqb_eq in Hempty. apply Hstep. right. right. auto. }
    apply Z.eqb_neq in Hempty. exists i. split; [left; reflexivity|].
    right. exists v. auto.
Qed.

Lemma board_rows_spec (b : board) (rows : list Z) (str : string) :
  match board_rows b rows str with
  | Ok text =>
      exists lines,
        text = str +:+ lines_text lines /\
        Forall2 (fun row cells =>
                   Forall2 (fun i c => shown b (row_start b (row + 1) + i) c)
                           (range (board_size b)) cells)
                rows lines
  | Raise e =>
      exists row i, In row rows /\ In i (range (board_size b)) /\
                    unshowable b (row_start b (row + 1) + i) e
  end.
Proof.
  revert str. induction rows as [|row rows IH]; intros str; cbn [board_rows].
  - exists []. split; [symmetry; apply append_nil_r | constructor].
  - pose proof (board_row_spec b (row_start b (row + 1)) (range (board_size b)) str) as Hrow.
    destruct (board_row b _ _ str) as [text|e]; cbn [pure_bind].
    + destruct Hrow as (cells & -> & Hcells).
      specialize (IH ((str +:+ string_of_list_ascii cells) +:+ nl)).
      destruct (board_rows b rows _) as [text|e].
      * destruct IH as (lines & -> & Hlines). exists (cells :: lines). split.
        -- cbn [lines_text]. rewrite !append_assoc. reflexivity.
        -- constructor; assumption.
      * destruct IH as (row' & i & Hin & Hi & Hbad). exists row', i.
        split; [right; exact Hin | split; assumption].
    + destruct Hrow as (i & Hi & Hbad). exists row, i.
      split; [left; reflexivity | split; assumption].
Qed.

(** X18. [gogui-rules_board] answers with a picture of the board: one
    line for each row, the row with the highest number first, each line
    made of one character for each of the [size] cells that follow the
    start of the row in the board array, [X] for black, [O] for white
    and [.] for empty, and ended by a line feed.  It raises, with no
    answer and the session as it was, exactly when one of these cells
    lies outside the array or holds none of the three colours. *)
Theorem gogui_rules_board_picture (args : list string) (st : state) :
  let b := the_board st in
  let size := board_size b in
  match fst (gogui_rules_board_cmd args st) with
  | Ok _ =>
      exists lines,
        snd (gogui_rules_board_cmd args st) = answered (lines_text lines) st /\
        Forall2 (fun row cells =>
                   Forall2 (fun i c => shown b (row_start b (row + 1) + i) c)
                           (range size) cells)
                (rev (range size)) lines /\
        length lines = Z.to_nat size /\
        Forall (fun cells => length cells = Z.to_nat size /\
                             Forall (fun c => In c [ "X"; "O"; "." ]%char) cells) lines
  | Raise e =>
      snd (gogui_rules_board_cmd args st) = st /\
      exists row i, 0 <= row < size /\ 0 <= i < size /\
                    unshowable b (row_start b (row + 1) + i) e
  end.
Proof.
  intros b size. unfold gogui_rules_board_cmd. run. fold b size.
  pose proof (board_rows_spec b (rev (range size)) EmptyString) as Hspec. fold size in Hspec.
  destruct (board_rows b (rev (range size)) EmptyString) as [text|e]; cbn [fst snd].
  - destruct Hspec as (lines & -> & Hlines). exists lines.
    split; [reflexivity|]. split; [exact Hlines|]. split.
    + rewrite <- (List.Forall2_length Hlines), length_rev. apply length_range.
    + clear - Hlines. induction Hlines as [|row cells rows lines Hcells _ IH]; constructor.
      * split.
        -- rewrite <- (List.Forall2_length Hcells). apply length_range.
        -- clear - Hcells. induction Hcells as [|i c cols cells (v & _ & Hshow) _ IH];
             constructor; [eapply shows_glyph; exact Hshow | exact IH].
      * exact IH.
  - destruct Hspec as (row & i & Hrow & Hi & Hbad). split; [reflexivity|].
    exists row, i. apply in_rev in Hrow. apply In_range in Hrow, Hi. auto.
Qed.

End Props.
End SessionExtras.

(** ** More of the session on the test board *)

Module OnTestBoardMore.
Import PyStr Codec Gtp Notions SessionNotions ExtraNotions SessionProps SessionExtras.

#[local] Existing Instance TestBoard.collab.

Lemma query_commands_keep_board_witness :
  the_board (snd (get_cmd "gogui-rules_legal_moves" (TestBoard.session 5 false)))
  = the_board (TestBoard.session 5 false) /\
  self_plays (snd (get_cmd "gogui-rules_legal_moves" (TestBoard.session 5 false)))
  = self_plays (TestBoard.session 5 false).
Proof.
  apply (query_commands_keep_board
           "gogui-rules_legal_moves" "gogui-rules_legal_moves" []
           (TestBoard.session 5 false)).
  - vm_compute. reflexivity.
  - cbn. intuition discriminate.
Defined.

Lemma get_cmd_drops_number_witness :
  get_cmd ("10" +:+ " name") (TestBoard.session 5 false)
  = get_cmd " name" (TestBoard.session 5 false).
Proof.
  apply (get_cmd_drops_number "10" " name" (TestBoard.session 5 false)).
  - discriminate.
  - reflexivity.
  - intros c Hc. vm_compute in Hc. injection Hc as <-. split; [reflexivity | discriminate].
Defined.

Lemma unknown_command_answered_witness :
  get_cmd "foo 1 2" (TestBoard.session 5 true)
  = (Ok tt,
     write_stdout (error_frame "Unknown command")
       (if debug_mode (TestBoard.session 5 true)
        then write_stderr ("Unknown command: " +:+ "foo" +:+ nl) (TestBoard.session 5 true)
        else TestBoard.session 5 true)).
Proof.
  apply (unknown_command_answered "foo 1 2" "foo" [ "1"; "2" ]%string
                                  (TestBoard.session 5 true)).
  - vm_compute. reflexivity.
  - cbn. intuition discriminate.
  - discriminate.
Defined.

Lemma genmove_upper_case_color_raises_witness :
  exists e,
    genmove_cmd [ "B"%string ] (TestBoard.session 5 false)
    = (Raise e, TestBoard.session 5 false) /\
    is_Exception e = true /\
    (forall s, move_text (the_board (TestBoard.session 5 false)) 1 = Ok s ->
               e = KeyError "B") /\
    (forall command more,
        elements_of command = [ "genmove"%string; "B"%string ] ->
        start_connection (command :: more) (TestBoard.session 5 false)
        = (Raise e, logged e (TestBoard.session 5 false))).
Proof.
  apply (genmove_upper_case_color_raises "B" [] 1 (TestBoard.session 5 false)).
  - reflexivity.
  - discriminate.
Defined.

Lemma genmove_plays_engine_move_witness :
  exists r st',
    genmove_cmd [ "b"%string ] (TestBoard.session 5 false) = (r, st') /\
    r = Ok tt /\
    stdout st' = stdout (TestBoard.session 5 false) ++ [ success_frame "A1" ] /\
    self_plays st' = self_plays (TestBoard.session 5 false) ++ [ (self_board, Some 7, 1) ].
Proof.
  assert (Htext : move_text (the_board (TestBoard.session 5 false)) 1 = Ok "A1"%string)
    by (vm_compute; reflexivity).
  destruct (genmove_plays_engine_move "b" [] 1 "A1" (TestBoard.session 5 false)
              eq_refl eq_refl Htext)
    as (r & st' & Hrun & Hplayed & _).
  exists r, st'. split; [exact Hrun|].
  destruct Hplayed as (Hr & Hout & _ & Hself & _).
  - reflexivity.
  - vm_compute. reflexivity.
  - vm_compute. reflexivity.
  - split; [exact Hr|]. split; [exact Hout | exact Hself].
Defined.

Lemma quit_ends_session_witness :
  get_cmd "quit" (TestBoard.session 5 true)
  = (Raise SystemExit, answered EmptyString (TestBoard.session 5 true)) /\
  start_connection [ "quit"; "name" ]%string (TestBoard.session 5 true)
  = (Raise SystemExit, answered EmptyString (TestBoard.session 5 true)).
Proof.
  apply (quit_ends_session "quit" [] [ "name"%string ] (TestBoard.session 5 true)).
  vm_compute. reflexivity.
Defined.

Lemma play_rejects_pass_witness :
  play_cmd [ "b"; "PASS" ]%string (TestBoard.session 5 false)
  = (Ok tt,
     answered (illegal_move_message "b" "PASS" "wrong coordinate")
              (TestBoard.session 5 false)) /\
  success_frame (illegal_move_message "b" "PASS" "wrong coordinate")
  = "= illegal move: " +:+ String "034"%char EmptyString +:+ "b PASS" +:+
    String "034"%char EmptyString +:+ " wrong coordinate" +:+ nl +:+ nl.
Proof.
  split; [|reflexivity].
  apply (play_rejects_pass "b" "PASS" 1 (TestBoard.session 5 false)).
  - reflexivity.
  - reflexivity.
Defined.

Lemma failed_command_changes_nothing_witness :
  stdout (logged AssertionError (TestBoard.session 5 true))
  = stdout (TestBoard.session 5 true) /\
  the_board (logged AssertionError (TestBoard.session 5 true))
  = the_board (TestBoard.session 5 true) /\
  self_plays (logged AssertionError (TestBoard.session 5 true))
  = self_plays (TestBoard.session 5 true) /\
  komi (logged AssertionError (TestBoard.session 5 true))
  = komi (TestBoard.session 5 true).
Proof.
  apply (failed_command_changes_nothing
           "boardsize 99" "boardsize" [ "99"%string ] AssertionError
           (TestBoard.session 5 true)
           (logged AssertionError (TestBoard.session 5 true))).
  - vm_compute. reflexivity.
  - discriminate.
  - rewrite get_cmd_elements.
    replace (elements_of "boardsize 99") with [ "boardsize"; "99" ]%string
      by (vm_compute; reflexivity).
    unfold dispatch, Py.bind. rewrite has_arg_error_match; [reflexivity|].
    intros n usage Hin. change (n = 1). cbn in Hin.
    destruct Hin as [Hin|[Hin|[Hin|[Hin|[Hin|[Hin|[]]]]]]]; congruence.
Defined.

(** The line [12#foo] starts with a number, not with the number sign:
    it is no comment, and is answered as an unknown command. *)
Example numbered_comment_is_a_command :
  ignored_line "12#foo" = false /\
  stdout (snd (get_cmd "12#foo" (TestBoard.session 5 false)))
  = [ error_frame "Unknown command" ].
Proof. split; vm_compute; reflexivity. Qed.

(** [genmove B] ends the session; [play B a1] does not. *)
Example upper_case_color_in_play_and_genmove :
  stdout (TestBoard.after [ "play B a1"; "genmove W"; "name" ]%string
                          (TestBoard.session 5 false))
  = [ success_frame EmptyString ].
Proof. vm_compute. reflexivity. Qed.

(** The picture of the corner position. *)
Example picture_of_the_corner :
  stdout (snd (gogui_rules_board_cmd [] TestBoard.corner))
  = stdout TestBoard.corner
    ++ [ success_frame ("..." +:+ nl +:+ "X.." +:+ nl +:+ "O.." +:+ nl) ].
Proof. vm_compute. reflexivity. Qed.

End OnTestBoardMore.
